(** * ElectricSheep: working memory, encrypted deep memory and the dream cycle

    A shallow embedding of [electricsheep/memory.py], [electricsheep/state.py],
    [electricsheep/config.py] and the dream cycle of [electricsheep/dreamer.py],
    followed by the properties of the stores and of the consolidation
    pipeline.

    Conventions of the embedding.
    - A Python [str] is a Rocq [string]; a character is a code point below
      256.  [bytes] values (keys, ciphertexts) are strings as well.
    - Files and the SQLite table are fields of a [world] record; a function
      that touches them is a computation in the monad [M], which threads the
      world and propagates exceptions.  What was written before an exception
      stays written, as on a real file system.
    - The collaborators the program calls but does not implement (the Fernet
      cipher, [json.dumps]/[json.loads], SHA-256, the wall clock, the SQL
      engine's row order, the text generation service) are fields of an
      environment record [env].  The environment also says which I/O
      operations of a run fail; a failed operation raises and writes nothing.
    - Console output is left out.  An exception raised while printing would
      leave the world as the failure of the next I/O operation leaves it. *)

From Stdlib Require Import ZArith Ascii String List Lia DecimalString.
From stdpp Require Import base option list gmap strings sorting.

Local Open Scope string_scope.
Local Open Scope list_scope.

(** ** Python string operations *)

Module PyStr.

(** [str.isspace] on one character: TAB, LF, VT, FF, CR, the separators
    FS GS RS US, the space, NEL and the no-break space. *)
Definition isspace (c : ascii) : bool :=
  let n := nat_of_ascii c in
  (((9 <=? n) && (n <=? 13)) || ((28 <=? n) && (n <=? 32))
   || (n =? 133) || (n =? 160))%nat.

(** [s.lstrip(chars)] for a predicate on characters. *)
Fixpoint lstrip_by (p : ascii -> bool) (s : string) : string :=
  match s with
  | EmptyString => EmptyString
  | String c s' => if p c then lstrip_by p s' else s
  end.

(** [s.rstrip(chars)] for a predicate on characters. *)
Fixpoint rstrip_by (p : ascii -> bool) (s : string) : string :=
  match s with
  | EmptyString => EmptyString
  | String c s' =>
      match rstrip_by p s' with
      | EmptyString => if p c then EmptyString else String c EmptyString
      | r => String c r
      end
  end.

(** [s.strip()] *)
Definition strip (s : string) : string := lstrip_by isspace (rstrip_by isspace s).

(** [s.lstrip("# ")]: the argument is a set of characters. *)
Definition hash_or_space (c : ascii) : bool :=
  Ascii.eqb c "#"%char || Ascii.eqb c " "%char.

(** [s.split(sep)] for a one-character separator; never the empty list. *)
Fixpoint split (sep : ascii) (s : string) : list string :=
  match s with
  | EmptyString => [EmptyString]
  | String c s' =>
      if Ascii.eqb c sep then EmptyString :: split sep s'
      else match split sep s' with
           | l :: ls => String c l :: ls
           | [] => [String c EmptyString]
           end
  end.

(** [s.split(sep, 1)[1]]: what follows the first separator; [None] is the
    [IndexError] of a string without separator. *)
Fixpoint split1_snd (sep : ascii) (s : string) : option string :=
  match s with
  | EmptyString => None
  | String c s' => if Ascii.eqb c sep then Some s' else split1_snd sep s'
  end.

(** [str.upper] on one character: the ASCII and Latin-1 small letters.  The
    three letters whose capital is not a single code point below 256
    (181, 223, 255) are left as they are; no such letter occurs in the
    ASCII marker the result is compared with. *)
Definition upper_char (c : ascii) : ascii :=
  let n := nat_of_ascii c in
  if (((97 <=? n) && (n <=? 122))
      || ((224 <=? n) && (n <=? 254) && negb (n =? 247)))%nat
  then ascii_of_nat (n - 32) else c.

Fixpoint upper (s : string) : string :=
  match s with
  | EmptyString => EmptyString
  | String c s' => String (upper_char c) (upper s')
  end.

(** [s.startswith(p)] *)
Definition startswith (s p : string) : bool := String.prefix p s.

(** [sep.join(ls)] *)
Definition join (sep : string) (ls : list string) : string := String.concat sep ls.

(** [s[:n]] for [n >= 0] *)
Definition take (n : nat) (s : string) : string := String.substring 0 n s.

(** [str(n)] for a non-negative integer. *)
Definition of_nat (n : nat) : string := NilEmpty.string_of_uint (Nat.to_uint n).

(** [l[-n:]] on a list, for [n >= 0]: the last [n] elements; [l[-0:]] is
    [l[0:]], the whole list. *)
Definition last_n {A} (n : nat) (l : list A) : list A :=
  match n with
  | O => l
  | _ => skipn (List.length l - n) l
  end.

End PyStr.

(** ** Parsing a generation response ([generate_dream], after the call) *)

Record dream := Dream {
  title : string;
  narrative : string;
  consolidation : string;
}.

Definition LF : ascii := ascii_of_nat 10.
Definition NL : string := String LF EmptyString.

Definition is_consolidation_line (line : string) : bool :=
  PyStr.startswith (PyStr.upper (PyStr.strip line)) "CONSOLIDATION:".

(** The [for line in lines[1:]] loop, with its two accumulators.  [None] is
    the [IndexError] of [split(":", 1)[1]]. *)
Fixpoint scan_lines (lines : list string) (consolidation : string)
    (narrative_lines : list string) : option (string * list string) :=
  match lines with
  | [] => Some (consolidation, narrative_lines)
  | line :: rest =>
      if is_consolidation_line line then
        match PyStr.split1_snd ":" (PyStr.strip line) with
        | Some r => scan_lines rest (PyStr.strip r) narrative_lines
        | None => None
        end
      else scan_lines rest consolidation (narrative_lines ++ [line])
  end.

(** Lines 68-89 of [dreamer.py]: from the response text to the dream. *)
Definition parse_dream (response : string) : option dream :=
  let text := PyStr.strip response in
  let lines := PyStr.split LF text in
  let title := PyStr.strip (PyStr.lstrip_by PyStr.hash_or_space
                              (PyStr.strip (List.hd EmptyString lines))) in
  match scan_lines (List.tl lines) EmptyString [] with
  | Some (consolidation, narrative_lines) =>
      Some (Dream title (PyStr.strip (PyStr.join NL narrative_lines)) consolidation)
  | None => None
  end.

Definition mk_lines (ls : list string) : string := PyStr.join NL ls.

Example parse_scenario :
  parse_dream (mk_lines ["Title"; "Line one"; "CONSOLIDATION: insight text"; "Line two"])
  = Some (Dream "Title" (mk_lines ["Line one"; "Line two"]) "insight text").
Proof. vm_compute. reflexivity. Qed.

(** ** Data model *)

(** A JSON value as [json.loads] returns it ([float] is not modelled). *)
#[local] Unset Elimination Schemes.
Inductive json :=
  | JNull
  | JBool (b : bool)
  | JInt (n : Z)
  | JStr (s : string)
  | JList (l : list json)
  | JDict (d : list (string * json)).
#[local] Set Elimination Schemes.

(** One row of the table [deep_memories]. *)
Record deep_row := DeepRow {
  row_id : Z;
  row_timestamp : string;
  row_category : string;
  encrypted_blob : string;
  content_hash : string;
  dreamed : Z;
  dream_date : option string;
}.

(** One dictionary of the list [retrieve_undreamed_memories] returns. *)
Record memory := Memory {
  mem_id : Z;
  mem_timestamp : string;
  mem_category : string;
  mem_content : json;
}.

(** One entry of [working.json]; the key ["metadata"] may be absent. *)
Record wm_entry := WmEntry {
  wm_timestamp : string;
  wm_category : string;
  wm_summary : string;
  wm_metadata : option (list (string * json));
}.

(** [deep_memory_stats()] *)
Record stats := Stats {
  total_memories : nat;
  undreamed : nat;
  dreamed_count : nat;
  categories : gmap string nat;
}.

(** What persists between calls: the key file, the table (rows in rowid
    order), [working.json], [state.json] and the directory of dream files
    ([None]: the file does not exist), and two counters that index the
    clock readings and the I/O operations of the run. *)
Record world := World {
  key_file : option string;
  deep_db : list deep_row;
  working_file : option (list wm_entry);
  state_file : option (gmap string json);
  dreams_dir : gmap string string;
  ticks : nat;
  io_count : nat;
}.

Definition set_key_file (k : option string) (w : world) : world :=
  World k (deep_db w) (working_file w) (state_file w) (dreams_dir w) (ticks w) (io_count w).
Definition set_deep_db (d : list deep_row) (w : world) : world :=
  World (key_file w) d (working_file w) (state_file w) (dreams_dir w) (ticks w) (io_count w).
Definition set_working_file (f : option (list wm_entry)) (w : world) : world :=
  World (key_file w) (deep_db w) f (state_file w) (dreams_dir w) (ticks w) (io_count w).
Definition set_state_file (f : option (gmap string json)) (w : world) : world :=
  World (key_file w) (deep_db w) (working_file w) f (dreams_dir w) (ticks w) (io_count w).
Definition set_dreams_dir (d : gmap string string) (w : world) : world :=
  World (key_file w) (deep_db w) (working_file w) (state_file w) d (ticks w) (io_count w).
Definition set_ticks (n : nat) (w : world) : world :=
  World (key_file w) (deep_db w) (working_file w) (state_file w) (dreams_dir w) n (io_count w).
Definition set_io_count (n : nat) (w : world) : world :=
  World (key_file w) (deep_db w) (working_file w) (state_file w) (dreams_dir w) (ticks w) n.

(** ** Collaborators *)

(** [Fernet(key)]: what the program uses of a cipher object.  [decrypt]
    returns [None] where the library raises [InvalidToken]. *)
Record cipher := Cipher {
  encrypt : string -> string;
  decrypt : string -> option string;
}.

(** One reading of [datetime.now(timezone.utc)]: its [isoformat()] and its
    [strftime("%Y-%m-%d")]. *)
Record instant := Instant {
  isoformat : string;
  ymd : string;
}.

(** SQLite compares [TEXT] values byte by byte. *)
Definition ts_le (a b : deep_row) : Prop :=
  String.leb (row_timestamp a) (row_timestamp b) = true.

(** [ORDER BY timestamp]: the rows come back as a permutation of the
    selected rows in which timestamps never decrease.  The query does not
    say how two rows with equal timestamps are ordered; the way the engine
    answers it does (see [engine_ties_ascending] for the program's). *)
Record sql_engine := SqlEngine {
  order_by_timestamp : list deep_row -> list deep_row;
  order_by_perm : forall l, Permutation (order_by_timestamp l) l;
  order_by_sorted : forall l, Sorted ts_le (order_by_timestamp l);
}.

Record env := Env {
  DREAM_ENCRYPTION_KEY : string;           (* config.py, from the environment *)
  generate_key : string;                   (* Fernet.generate_key() *)
  Fernet : string -> option cipher;        (* None: ValueError, malformed key *)
  json_dumps : json -> string;             (* json.dumps(x, default=str) *)
  json_dumps_indent : json -> string;      (* json.dumps(x, indent=2, default=str) *)
  json_loads : string -> option json;      (* None: JSONDecodeError *)
  sha256_hexdigest : string -> string;
  clock : nat -> instant;                  (* the n-th reading of the clock *)
  io_fault : nat -> bool;                  (* does the n-th I/O operation fail *)
  engine : sql_engine;
  (* the n-th I/O operation being a generation request: the text of
     resp.content[0].text, or the error raised *)
  llm : nat -> string -> string -> string + string;
  (* persona.py is not part of the sources at hand *)
  DREAM_SYSTEM_PROMPT_format : string -> string;
}.

(** ** The monad of the program: state and exceptions *)

Inductive exn :=
  | IOError (n : nat)
  | ValueError
  | TypeError
  | IndexError
  | GenerationError (msg : string).

Inductive outcome (A : Type) :=
  | Ok (a : A)
  | Raise (e : exn).
Arguments Ok {A} a.
Arguments Raise {A} e.

Definition M (A : Type) : Type := world -> outcome A * world.

#[export] Instance M_ret : MRet M := fun A a w => (Ok a, w).
#[export] Instance M_bind : MBind M := fun A B f m w =>
  match m w with
  | (Ok a, w') => f a w'
  | (Raise e, w') => (Raise e, w')
  end.

Definition raise {A} (e : exn) : M A := fun w => (Raise e, w).
Definition get : M world := fun w => (Ok w, w).
Definition modify (f : world -> world) : M unit := fun w => (Ok tt, f w).

Section Program.

Variable E : env.

(** One I/O operation (a file read or write, a database connection and its
    statement): it either raises and changes nothing, or takes place. *)
Definition io : M unit := fun w =>
  let w' := set_io_count (S (io_count w)) w in
  if io_fault E (io_count w) then (Raise (IOError (io_count w)), w') else (Ok tt, w').

(** [datetime.now(timezone.utc)] *)
Definition now : M instant := fun w =>
  (Ok (clock E (ticks w)), set_ticks (S (ticks w)) w).

(** *** memory.py: key management *)

Definition get_or_create_dream_key : M string :=
  if String.eqb (DREAM_ENCRYPTION_KEY E) "" then
    w ← get;
    match key_file w with
    | Some k => _ ← io; mret k
    | None =>
        let key := generate_key E in
        _ ← io;
        _ ← modify (set_key_file (Some key));
        _ ← io;   (* chmod 0o600 *)
        mret key
    end
  else mret (DREAM_ENCRYPTION_KEY E).

Definition get_cipher : M cipher :=
  key ← get_or_create_dream_key;
  match Fernet E key with
  | Some c => mret c
  | None => raise ValueError
  end.

(** *** memory.py: deep memory *)

(** [CREATE TABLE IF NOT EXISTS], [CREATE INDEX IF NOT EXISTS]: no row
    changes.  Here and below one [io] stands for one database session:
    connect, statement, commit, close. *)
Definition _init_deep_db : M unit := io.

(** [INTEGER PRIMARY KEY AUTOINCREMENT]: one more than the largest id in
    use (the program never deletes a row). *)
Definition next_rowid (db : list deep_row) : Z :=
  (1 + fold_right Z.max 0 (map row_id db))%Z.

Definition store_deep_memory (content : json) (category : string) : M unit :=
  _ ← _init_deep_db;
  cipher ← get_cipher;
  let raw := json_dumps E content in
  let encrypted := encrypt cipher raw in
  let content_hash := PyStr.take 16 (sha256_hexdigest E raw) in
  _ ← io;
  t ← now;
  modify (fun w =>
    set_deep_db (deep_db w ++
      [DeepRow (next_rowid (deep_db w)) (isoformat t) category encrypted
               content_hash 0%Z None]) w).

Definition is_undreamed (r : deep_row) : bool := (dreamed r =? 0)%Z.

(** [SELECT ... WHERE dreamed = 0 ORDER BY timestamp] *)
Definition select_undreamed (db : list deep_row) : list deep_row :=
  order_by_timestamp (engine E) (List.filter is_undreamed db).

Definition corrupted_note : json :=
  JDict [("note", JStr "This memory could not be recovered.")].

(** The body of the loop over the fetched rows, with its [try/except]. *)
Definition decode_row (c : cipher) (r : deep_row) : memory :=
  match decrypt c (encrypted_blob r) ≫= json_loads E with
  | Some decrypted => Memory (row_id r) (row_timestamp r) (row_category r) decrypted
  | None => Memory (row_id r) (row_timestamp r) "corrupted" corrupted_note
  end.

Definition retrieve_undreamed_memories : M (list memory) :=
  _ ← _init_deep_db;
  cipher ← get_cipher;
  _ ← io;
  w ← get;
  mret (map (decode_row cipher) (select_undreamed (deep_db w))).

Definition id_in (ids : list Z) (r : deep_row) : bool :=
  existsb (Z.eqb (row_id r)) ids.

(** [UPDATE deep_memories SET dreamed = 1, dream_date = ? WHERE id IN (...)] *)
Definition update_dreamed (date : string) (ids : list Z) (db : list deep_row)
  : list deep_row :=
  map (fun r =>
         if id_in ids r then
           DeepRow (row_id r) (row_timestamp r) (row_category r)
                   (encrypted_blob r) (content_hash r) 1%Z (Some date)
         else r) db.

Definition mark_as_dreamed (memory_ids : list Z) : M unit :=
  match memory_ids with
  | [] => mret tt
  | _ =>
      _ ← _init_deep_db;
      _ ← io;
      t ← now;
      modify (fun w => set_deep_db (update_dreamed (isoformat t) memory_ids (deep_db w)) w)
  end.

Definition count_categories (db : list deep_row) : gmap string nat :=
  fold_right (fun r m => <[row_category r := S (default 0 (m !! row_category r))]> m)
             ∅ db.

Definition deep_memory_stats : M stats :=
  _ ← _init_deep_db;
  _ ← io;
  w ← get;
  let total := List.length (deep_db w) in
  let undreamed := List.length (List.filter is_undreamed (deep_db w)) in
  mret (Stats total undreamed (total - undreamed) (count_categories (deep_db w))).

(** *** memory.py: working memory *)

Definition WORKING_MEMORY_MAX_ENTRIES : nat := 50.

Definition _load_working_memory : M (list wm_entry) :=
  w ← get;
  match working_file w with
  | Some l => _ ← io; mret l
  | None => mret []
  end.

Definition _save_working_memory (memories : list wm_entry) : M unit :=
  _ ← io;
  modify (set_working_file (Some memories)).

(** [if metadata:] is false for [None] and for the empty dictionary. *)
Definition truthy_dict (m : option (list (string * json))) : option (list (string * json)) :=
  match m with
  | Some (_ :: _) => m
  | _ => None
  end.

(** The pruning of [store_working_memory]. *)
Definition prune (max : nat) (memories : list wm_entry) : list wm_entry :=
  if (max <? List.length memories)%nat then PyStr.last_n max memories else memories.

Definition store_working_memory (summary category : string)
    (metadata : option (list (string * json))) : M unit :=
  memories ← _load_working_memory;
  t ← now;
  let entry := WmEntry (isoformat t) category summary (truthy_dict metadata) in
  let memories := memories ++ [entry] in
  let memories := prune WORKING_MEMORY_MAX_ENTRIES memories in
  _save_working_memory memories.

(** [l[k:]] for any integer [k]. *)
Definition slice_from {A} (k : Z) (l : list A) : list A :=
  if (0 <=? k)%Z then skipn (Z.to_nat k) l
  else skipn (Z.to_nat (Z.max 0 (Z.of_nat (List.length l) + k))) l.

Definition get_working_memory (limit : option Z) (category : option string)
  : M (list wm_entry) :=
  memories ← _load_working_memory;
  let memories :=
    match category with
    | Some c => if String.eqb c "" then memories
                else List.filter (fun m => String.eqb (wm_category m) c) memories
    | None => memories
    end in
  let memories :=
    match limit with
    | Some n => if (n =? 0)%Z then memories else slice_from (- n) memories
    | None => memories
    end in
  mret memories.

Definition context_line (mem : wm_entry) : string :=
  "[" ++ PyStr.take 16 (wm_timestamp mem) ++ "] (" ++ wm_category mem ++ ") "
      ++ wm_summary mem.

Definition omitted_line (n : nat) : string :=
  "... (" ++ PyStr.of_nat n ++ " older memories omitted)".

(** The loop over [reversed(memories)]; [lines.insert(0, x)] is a cons. *)
Fixpoint context_loop (total : nat) (char_budget : Z) (rev_memories : list wm_entry)
    (lines : list string) (char_count : Z) : list string :=
  match rev_memories with
  | [] => lines
  | mem :: rest =>
      let line := context_line mem in
      let n := Z.of_nat (String.length line) in
      if (char_budget <? char_count + n)%Z then
        omitted_line (total - List.length lines) :: lines
      else context_loop total char_budget rest (line :: lines) (char_count + n)%Z
  end.

Definition get_working_memory_context (max_tokens_approx : Z) : M string :=
  memories ← _load_working_memory;
  match memories with
  | [] => mret "No memories yet. This is my first day."
  | _ =>
      let char_budget := (max_tokens_approx * 4)%Z in
      mret (PyStr.join NL
              (context_loop (List.length memories) char_budget (rev memories) [] 0%Z))
  end.

Definition consolidate_dream_insight (insight source_category : string) : M unit :=
  store_working_memory ("[DREAM INSIGHT] " ++ insight) source_category None.

(** *** memory.py: the dual store helper *)

Definition remember (summary : string) (full_context : json) (category : string)
  : M unit :=
  _ ← store_working_memory summary category None;
  store_deep_memory full_context category.

(** *** state.py *)

Definition load_state : M (gmap string json) :=
  w ← get;
  match state_file w with
  | Some s => _ ← io; mret s
  | None => mret ∅
  end.

Definition save_state (state : gmap string json) : M unit :=
  _ ← io;
  modify (set_state_file (Some state)).

(** *** dreamer.py *)

Definition DREAM_USER_PROMPT : string :=
  "Process these memories into a dream. "
  ++ "Remember: you are the subconscious, not the waking agent. "
  ++ "Be surreal, associative, and emotionally amplified. "
  ++ "End with a CONSOLIDATION line.".

Definition format_memory (mem : memory) : string :=
  "[" ++ PyStr.take 16 (mem_timestamp mem) ++ "] (" ++ mem_category mem ++ ")" ++ NL
      ++ json_dumps_indent E (mem_content mem).

Definition dream_system_prompt (memories : list memory) : string :=
  DREAM_SYSTEM_PROMPT_format E
    (PyStr.join (NL ++ "---" ++ NL) (map format_memory memories)).

(** [claude.messages.create(...)] followed by [resp.content[0].text]. *)
Definition messages_create (system user : string) : M string := fun w =>
  let w' := set_io_count (S (io_count w)) w in
  match llm E (io_count w) system user with
  | inl text => (Ok text, w')
  | inr msg => (Raise (GenerationError msg), w')
  end.

Definition generate_dream (memories : list memory) : M dream :=
  text ← messages_create (dream_system_prompt memories) DREAM_USER_PROMPT;
  match parse_dream text with
  | Some d => mret d
  | None => raise IndexError
  end.

Fixpoint replace_char (a b : ascii) (s : string) : string :=
  match s with
  | EmptyString => EmptyString
  | String c s' => String (if Ascii.eqb c a then b else c) (replace_char a b s')
  end.

Definition dream_filename (d : dream) (date_str : string) : string :=
  date_str ++ "_"
    ++ replace_char "/" "_" (replace_char " " "_" (PyStr.take 40 (title d)))
    ++ ".md".

Definition dream_file_content (d : dream) (date_str : string) : string :=
  "# " ++ title d ++ NL
  ++ "*Dreamed: " ++ date_str ++ "*" ++ NL
  ++ NL
  ++ narrative d ++ NL
  ++ NL
  ++ "---" ++ NL
  ++ "**Consolidation:** " ++ consolidation d ++ NL.

Definition save_dream_locally (d : dream) (date_str : string) : M string :=
  let filename := dream_filename d date_str in
  _ ← io;
  _ ← modify (fun w =>
        set_dreams_dir (<[filename := dream_file_content d date_str]> (dreams_dir w)) w);
  mret filename.

(** [state.get("total_dreams", 0) + 1]; a [bool] is an [int] in Python. *)
Definition incr_total_dreams (state : gmap string json) : M json :=
  match state !! "total_dreams" with
  | None => mret (JInt 1)
  | Some (JInt n) => mret (JInt (n + 1))
  | Some (JBool b) => mret (JInt (Z.b2z b + 1))
  | Some _ => raise TypeError
  end.

Definition is_empty_list {A} (l : list A) : bool :=
  match l with [] => true | _ => false end.

(** The statements of [run_dream_cycle] in their order.  The clock reading
    of line 120 and the statistics of line 122 are only printed;
    [get_claude_client()] builds the client object that [messages_create]
    stands for. *)
Definition run_dream_cycle : M (option dream) :=
  _ ← now;
  _ ← deep_memory_stats;
  memories ← retrieve_undreamed_memories;
  if is_empty_list memories then
    state ← load_state;
    t ← now;
    _ ← save_state (<["dream_count" := JInt 0]>
                      (<["last_dream" := JStr (isoformat t)]> state));
    mret None
  else
    d ← generate_dream memories;
    t ← now;
    let date_str := ymd t in
    _ ← save_dream_locally d date_str;
    _ ← (if String.eqb (consolidation d) "" then mret tt
         else consolidate_dream_insight (consolidation d) "dream_consolidation");
    let memory_ids := map mem_id memories in
    _ ← mark_as_dreamed memory_ids;
    state ← load_state;
    t ← now;
    let state := <["last_dream" := JStr (isoformat t)]> state in
    n ← incr_total_dreams state;
    let state := <["total_dreams" := n]> state in
    let state := <["latest_dream_title" := JStr (title d)]> state in
    _ ← save_state state;
    mret (Some d).

End Program.

(** ** Reading the dream files back ([post_dream_journal], [cli.dreams]) *)

Module PyText.

(** [s.split(sep)[0]] for a separator of several characters: what comes
    before its first occurrence, all of [s] when it does not occur. *)
Fixpoint before_first (sep s : string) : string :=
  if String.prefix sep s then EmptyString
  else match s with
       | EmptyString => EmptyString
       | String c s' => String c (before_first sep s')
       end.

(** [c in s] *)
Fixpoint has_char (c : ascii) (s : string) : bool :=
  match s with
  | EmptyString => false
  | String a s' => Ascii.eqb a c || has_char c s'
  end.

(** [sep in s] *)
Fixpoint occurs (sep s : string) : bool :=
  String.prefix sep s
  || match s with
     | EmptyString => false
     | String _ s' => occurs sep s'
     end.

End PyText.

Definition CR : ascii := ascii_of_nat 13.

(** [Path.read_text()] on the text that [write_text] stored.  The file is
    opened in text mode with universal newlines: a carriage return followed
    by a line feed, and a carriage return alone, are read as one line feed.
    ([write_text] stores a line feed as it is on a POSIX system.) *)
Fixpoint read_text (stored : string) : string :=
  match stored with
  | EmptyString => EmptyString
  | String c rest =>
      if Ascii.eqb c CR then
        String LF
          match rest with
          | String c' rest' => if Ascii.eqb c' LF then read_text rest' else read_text rest
          | EmptyString => EmptyString
          end
      else String c (read_text rest)
  end.

(** Lines 187-192 of [dreamer.py]: the title and the narrative that
    [post_dream_journal] reads from a dream file, given the text stored in
    the file. *)
Definition journal_from_file (stored : string) : string * string :=
  let content := read_text stored in
  let lines := PyStr.split LF content in
  let title := PyStr.strip (PyStr.lstrip_by PyStr.hash_or_space
                              (List.hd EmptyString lines)) in
  let narrative :=
    PyStr.strip (PyText.before_first "---" (PyStr.join NL (skipn 3 lines))) in
  (title, narrative).




(** [name.endswith(suffix)] *)
Fixpoint ends_with (suffix s : string) : bool :=
  String.eqb s suffix
  || match s with
     | EmptyString => false
     | String _ s' => ends_with suffix s'
     end.

(** The order of [sorted(..., reverse=True)] on the files of one directory:
    by name, greatest first. *)
Definition name_ge (a b : string * string) : Prop := String.le (fst b) (fst a).

#[export] Instance name_ge_dec a b : Decision (name_ge a b).
Proof. unfold name_ge. apply _. Defined.

(** [sorted(DREAMS_DIR.glob("*.md"), reverse=True)], each file with its
    text: the files whose name ends in [".md"], greatest name first
    ([post_dream_journal] reads the first, [cli.dreams] lists the first
    twenty). *)
Definition dream_files (dir : gmap string string) : list (string * string) :=
  merge_sort name_ge
    (List.filter (fun f => ends_with ".md" (fst f)) (map_to_list dir)).

(** Lines 180-192 of [dreamer.py]: the dream that [post_dream_journal]
    posts when it is given none, read with [read_text] from the first of
    the dream files; [None] when there is no dream file. *)
Definition latest_dream (dir : gmap string string) : option (string * string) :=
  match dream_files dir with
  | [] => None
  | f :: _ => Some (journal_from_file (snd f))
  end.

(** ** waking.py: the reply of [decide_engagement] *)

(** [s.rsplit(sep, 1)[0]]: what comes before the last occurrence of [sep],
    all of [s] when it does not occur. *)
Fixpoint before_last (sep s : string) : string :=
  match s with
  | EmptyString => EmptyString
  | String c s' =>
      if PyText.occurs sep s' then String c (before_last sep s')
      else if String.prefix sep s then EmptyString
      else s
  end.

Definition FENCE : string := "```".

(** Lines 101-104 of [waking.py]: the reply without its Markdown fences;
    [None] is the [IndexError] of [text.split("\n", 1)[1]]. *)
Definition strip_fences (reply : string) : option string :=
  let text := PyStr.strip reply in
  if PyStr.startswith text FENCE then
    match PyStr.split1_snd LF text with
    | Some rest => Some (PyStr.strip (before_last FENCE rest))
    | None => None
    end
  else Some text.

(** ** Vocabulary of the statements *)

(** The key [get_or_create_dream_key] answers with in a given world. *)
Definition current_key (E : env) (w : world) : string :=
  if String.eqb (DREAM_ENCRYPTION_KEY E) "" then default (generate_key E) (key_file w)
  else DREAM_ENCRYPTION_KEY E.

(** The content of [working.json] as [_load_working_memory] sees it. *)
Definition working (w : world) : list wm_entry := default [] (working_file w).

(** The content of [state.json] as [load_state] sees it. *)
Definition agent_state (w : world) : gmap string json := default ∅ (state_file w).

(** A computation leaves a component [proj] of the world as it found it,
    whatever its outcome. *)
Definition keeps {A B} (proj : world -> B) (m : M A) : Prop :=
  forall w o w', m w = (o, w') -> proj w' = proj w.

(** The component [proj] of the world does not depend on the field that
    [set] writes. *)
Class Frame {B C} (set : C -> world -> world) (proj : world -> B) : Prop :=
  frame_eq : forall c w, proj (set c w) = proj w.

#[export] Hint Extern 1 (Frame _ _) => (intros ? ?; reflexivity) : typeclass_instances.

(** No I/O operation fails in this run. *)
Definition no_faults (E : env) : Prop := forall n, io_fault E n = false.


Definition mem_ts_le (a b : memory) : Prop :=
  String.leb (mem_timestamp a) (mem_timestamp b) = true.

(** The entry a call of [store_working_memory] inserts in world [w]. *)
Definition new_entry (E : env) (w : world) (summary category : string)
    (metadata : option (list (string * json))) : wm_entry :=
  WmEntry (isoformat (clock E (ticks w))) category summary (truthy_dict metadata).

(** A sequence of [store_working_memory] calls. *)
Definition wm_call : Type := string * string * option (list (string * json)).

Fixpoint store_all (E : env) (calls : list wm_call) : M unit :=
  match calls with
  | [] => mret tt
  | (summary, category, metadata) :: rest =>
      _ ← store_working_memory E summary category metadata;
      store_all E rest
  end.

(** The entries those calls insert when the clock has been read [t] times. *)
Fixpoint inserted (E : env) (t : nat) (calls : list wm_call) : list wm_entry :=
  match calls with
  | [] => []
  | (summary, category, metadata) :: rest =>
      WmEntry (isoformat (clock E t)) category summary (truthy_dict metadata)
        :: inserted E (S t) rest
  end.

(** The last [n] elements of a list. *)
Definition most_recent {A} (n : nat) (l : list A) : list A :=
  skipn (List.length l - n) l.

(** The parse as the specification words it: the lines are those of the
    response as received, and the first of them is the title. *)
Definition parse_dream_as_specified (response : string) : option dream :=
  let lines := PyStr.split LF response in
  let title := PyStr.strip (PyStr.lstrip_by PyStr.hash_or_space
                              (PyStr.strip (List.hd EmptyString lines))) in
  match scan_lines (List.tl lines) EmptyString [] with
  | Some (consolidation, narrative_lines) =>
      Some (Dream title (PyStr.strip (PyStr.join NL narrative_lines)) consolidation)
  | None => None
  end.

(** The remainder of a line after its first colon, trimmed. *)
Definition after_colon (line : string) : string :=
  PyStr.strip (default EmptyString (PyStr.split1_snd ":" (PyStr.strip line))).

(** The entry that [consolidate_dream_insight] stores at time [t]. *)
Definition insight_entry (t : string) (insight : string) : wm_entry :=
  WmEntry t "dream_consolidation" ("[DREAM INSIGHT] " ++ insight) None.

(** The four stores of the program are the same in two worlds. *)
Definition same_stores (w w' : world) : Prop :=
  deep_db w' = deep_db w /\ working_file w' = working_file w
  /\ state_file w' = state_file w /\ dreams_dir w' = dreams_dir w.

(** A computation raises only exceptions that satisfy [P]. *)
Definition raises_only {A} (P : exn -> Prop) (m : M A) : Prop :=
  forall w e w', m w = (Raise e, w') -> P e.

(** The exceptions of the file system, the database and the state file. *)
Definition local_failure (e : exn) : Prop :=
  match e with
  | GenerationError _ => False
  | _ => True
  end.

(** The parts of [run_dream_cycle], named after the states of the cycle:
    the branch of a night without memories, and, for a dream [d] made of
    [memories], marking with the update of the agent state, and before
    them archiving and promoting; first of all, collecting. *)
Definition dreamless_night (E : env) : M (option dream) :=
  state ← load_state E;
  t ← now E;
  _ ← save_state E (<["dream_count" := JInt 0]>
                      (<["last_dream" := JStr (isoformat t)]> state));
  mret None.

Definition update_state (E : env) (d : dream) : M (option dream) :=
  state ← load_state E;
  t ← now E;
  let state := <["last_dream" := JStr (isoformat t)]> state in
  n ← incr_total_dreams state;
  let state := <["total_dreams" := n]> state in
  let state := <["latest_dream_title" := JStr (title d)]> state in
  _ ← save_state E state;
  mret (Some d).

Definition marking_done (E : env) (memories : list memory) (d : dream)
  : M (option dream) :=
  _ ← mark_as_dreamed E (map mem_id memories);
  update_state E d.

Definition promoting (E : env) (d : dream) : M unit :=
  if String.eqb (consolidation d) "" then mret tt
  else consolidate_dream_insight E (consolidation d) "dream_consolidation".

Definition persisting (E : env) (memories : list memory) (d : dream)
  : M (option dream) :=
  t ← now E;
  _ ← save_dream_locally E d (ymd t);
  _ ← promoting E d;
  marking_done E memories d.

Definition collecting (E : env) : M (list memory) :=
  _ ← now E;
  _ ← deep_memory_stats E;
  retrieve_undreamed_memories E.

Definition after_collecting (E : env) (memories : list memory) : M (option dream) :=
  if is_empty_list memories then dreamless_night E
  else d ← generate_dream E memories; persisting E memories d.

(** The readings of the clock that the promotion of the insight of [d]
    takes: one, the timestamp of the entry, when the dream has a
    consolidation, and none when it has not. *)
Definition insight_readings (d : dream) : nat :=
  if String.eqb (consolidation d) "" then 0 else 1.

(** What [mark_as_dreamed] never writes: everything in a row but the flag
    and its date. *)
Definition row_content (r : deep_row) : Z * string * string * string * string :=
  (row_id r, row_timestamp r, row_category r, encrypted_blob r, content_hash r).

(** The value that [state.get("total_dreams", 0) + 1] computes in a state;
    [None] where the addition is a [TypeError]. *)
Definition next_total (state : gmap string json) : option json :=
  match state !! "total_dreams" with
  | None => Some (JInt 1)
  | Some (JInt n) => Some (JInt (n + 1))
  | Some (JBool b) => Some (JInt (Z.b2z b + 1))
  | Some _ => None
  end.

(** The state that a completed cycle saves for the dream [d], read at [t]. *)
Definition state_after_dream (state : gmap string json) (t : string) (n : json)
    (d : dream) : gmap string json :=
  <["latest_dream_title" := JStr (title d)]>
    (<["total_dreams" := n]> (<["last_dream" := JStr t]> state)).

(** Every exception but [TypeError]. *)
Definition not_type_error (e : exn) : Prop :=
  match e with
  | TypeError => False
  | _ => True
  end.

(** What a cycle has written outside the agent state once it has got as
    far as the update of the state with the dream [d]: the marks on every row
    that was not dreamed, the dream file, and the insight in working memory
    when the dream has one. *)
Definition dream_committed (E : env) (w w' : world) (d : dream) : Prop :=
  (exists t,
      deep_db w'
      = update_dreamed t (map row_id (select_undreamed E (deep_db w))) (deep_db w))
  /\ (exists date,
        dreams_dir w'
        = <[dream_filename d date := dream_file_content d date]> (dreams_dir w))
  /\ (consolidation d = "" -> working_file w' = working_file w)
  /\ (consolidation d <> "" ->
      exists t,
        working_file w'
        = Some (prune WORKING_MEMORY_MAX_ENTRIES
                  (working w ++ [insight_entry t (consolidation d)]))).

(** What has become of the agent state when the cycle ends with [o]: the
    new state is saved, or a total that is not a number has stopped the
    update and the file is as it was. *)
Definition state_outcome (w w' : world) (o : outcome (option dream)) (d : dream)
  : Prop :=
  (o = Ok (Some d)
   /\ exists t n,
        next_total (agent_state w) = Some n
        /\ state_file w' = Some (state_after_dream (agent_state w) t n d))
  \/ (o = Raise TypeError
      /\ next_total (agent_state w) = None /\ state_file w' = state_file w).

(** Outcomes that are only reached after the marking. *)
Definition late (o : outcome (option dream)) : Prop :=
  (exists d, o = Ok (Some d)) \/ o = Raise TypeError.

(** The characters of a list of lines, separators not counted. *)
Definition lines_length (ls : list string) : Z :=
  fold_right (fun l n => (Z.of_nat (String.length l) + n)%Z) 0%Z ls.

(** The entries of working memory that [get_working_memory] keeps for a
    category. *)
Definition of_category (category : option string) (l : list wm_entry) : list wm_entry :=
  match category with
  | Some c => if String.eqb c "" then l
              else List.filter (fun m => String.eqb (wm_category m) c) l
  | None => l
  end.

(** ** Concrete collaborators, used to run the model on examples *)

Module Engines.

(** Sorting by timestamp with a chosen order [tie] between the ids of rows
    that have the same timestamp. *)
Definition row_leb (tie : Z -> Z -> bool) (a b : deep_row) : bool :=
  match String.compare (row_timestamp a) (row_timestamp b) with
  | Lt => true
  | Eq => tie (row_id a) (row_id b)
  | Gt => false
  end.

Definition row_le (tie : Z -> Z -> bool) : relation deep_row :=
  fun a b => row_leb tie a b = true.

#[export] Instance row_le_dec tie a b : Decision (row_le tie a b).
Proof. unfold row_le. apply _. Defined.

Definition sort_rows (tie : Z -> Z -> bool) (l : list deep_row) : list deep_row :=
  merge_sort (row_le tie) l.

Definition ids_ascending (x y : Z) : bool := (x <=? y)%Z.

End Engines.

Module EngineFacts.
Import Engines.

Lemma row_le_total tie :
  (forall x y, tie x y = true \/ tie y x = true) -> Total (row_le tie).
Proof.
  intros Htie a b. unfold row_le, row_leb.
  rewrite (String.compare_antisym (row_timestamp a) (row_timestamp b)).
  destruct (String.compare (row_timestamp b) (row_timestamp a)); simpl.
  - apply Htie.
  - right; reflexivity.
  - left; reflexivity.
Qed.

Lemma row_le_ts_le tie a b : row_le tie a b -> ts_le a b.
Proof.
  unfold row_le, row_leb, ts_le, String.leb.
  destruct (String.compare (row_timestamp a) (row_timestamp b)); auto; discriminate.
Qed.

Lemma Sorted_weaken {A} (R R' : relation A) l :
  (forall x y, R x y -> R' x y) -> Sorted R l -> Sorted R' l.
Proof.
  intros Himp. induction 1 as [|x l Hs IH Hhd]; constructor; auto.
  destruct Hhd; constructor; auto.
Qed.

Lemma sort_rows_perm tie l : Permutation (sort_rows tie l) l.
Proof. apply merge_sort_Permutation. Qed.

Lemma sort_rows_sorted tie l :
  (forall x y, tie x y = true \/ tie y x = true) -> Sorted ts_le (sort_rows tie l).
Proof.
  intros Htie. apply Sorted_weaken with (R := row_le tie).
  - apply row_le_ts_le.
  - unfold sort_rows. apply Sorted_merge_sort. apply (row_le_total _ Htie).
Qed.

Lemma ids_ascending_total x y : ids_ascending x y = true \/ ids_ascending y x = true.
Proof. unfold ids_ascending. lia. Qed.

End EngineFacts.

(** The engine of the program.  [_init_deep_db] creates the index
    [idx_deep_dreamed ON deep_memories(dreamed, timestamp)], and SQLite
    answers [WHERE dreamed = 0 ORDER BY timestamp] by a scan of that index.
    An index entry is the indexed columns followed by the rowid, so the
    rows with [dreamed = 0] come by timestamp and, where timestamps are
    equal, by ascending id. *)
Definition engine_ties_ascending : sql_engine :=
  SqlEngine (Engines.sort_rows Engines.ids_ascending)
    (EngineFacts.sort_rows_perm _)
    (fun l => EngineFacts.sort_rows_sorted _ l EngineFacts.ids_ascending_total).

Module Samples.

(** A toy cipher: the ciphertext is the plaintext behind a four-character
    tag; any other blob is rejected. *)
Definition toy_cipher : cipher :=
  Cipher (fun raw => String.append "enc:" raw)
         (fun blob => if String.prefix "enc:" blob
                      then Some (String.substring 4 (String.length blob - 4) blob)
                      else None).

(** A toy serialiser: every document is a JSON string. *)
Definition toy_dumps (j : json) : string :=
  match j with JStr s => s | _ => "null" end.

Definition toy_clock (n : nat) : instant :=
  Instant ("2026-01-01T00:00:00.000" ++ PyStr.of_nat (100 + n) ++ "+00:00") "2026-01-01".

Definition reply : string :=
  mk_lines ["Title"; "Line one"; "CONSOLIDATION: insight text"; "Line two"].

(** An environment without faults, whose generation service answers [reply]. *)
Definition quiet (eng : sql_engine) : env :=
  Env "" "generated-key" (fun _ => Some toy_cipher)
      toy_dumps toy_dumps (fun s => Some (JStr s)) (fun s => s)
      toy_clock (fun _ => false) eng
      (fun _ _ _ => inl reply) (fun s => s).

(** The same, with a generation service that is out of quota. *)
Definition no_quota : env :=
  Env "" "generated-key" (fun _ => Some toy_cipher)
      toy_dumps toy_dumps (fun s => Some (JStr s)) (fun s => s)
      toy_clock (fun _ => false) engine_ties_ascending
      (fun _ _ _ => inr "quota exceeded") (fun s => s).

(** The same as [quiet], where the I/O operation number [k] fails. *)
Definition failing_at (k : nat) : env :=
  Env "" "generated-key" (fun _ => Some toy_cipher)
      toy_dumps toy_dumps (fun s => Some (JStr s)) (fun s => s)
      toy_clock (fun n => Nat.eqb n k) engine_ties_ascending
      (fun _ _ _ => inl reply) (fun s => s).

(** The same as [quiet], with a key that [Fernet] rejects. *)
Definition bad_key : env :=
  Env "not-a-fernet-key" "generated-key" (fun _ => None)
      toy_dumps toy_dumps (fun s => Some (JStr s)) (fun s => s)
      toy_clock (fun _ => false) engine_ties_ascending
      (fun _ _ _ => inl reply) (fun s => s).

Definition empty_world : world := World None [] None None ∅ 0 0.

Definition row (id : Z) (ts blob : string) (dreamed : Z) : deep_row :=
  DeepRow id ts "interaction" blob "0123456789abcdef" dreamed None.

(** Two rows wait for the dream; the blob of the second is damaged. *)
Definition corrupted_row : deep_row := row 2 "2026-01-01T00:05" "garbage" 0.

Definition one_corrupted : world :=
  set_deep_db [row 1 "2026-01-01T00:00" "enc:hello" 0; corrupted_row] empty_world.

(** Every row has been dreamed already, three dreams so far. *)
Definition nothing_new : world :=
  World None [row 1 "2026-01-01T00:00" "enc:hello" 1] None
        (Some {["total_dreams" := JInt 3]}) ∅ 0 0.

Definition note (summary : string) : wm_entry :=
  WmEntry "2026-01-01T00:00:00.000100+00:00" "interaction" summary None.

(** Three memories stored one after the other in an empty world. *)
Definition three_stored : world :=
  snd ((_ ← store_deep_memory (quiet engine_ties_ascending) (JStr "x") "interaction";
        _ ← store_deep_memory (quiet engine_ties_ascending) (JStr "y") "interaction";
        store_deep_memory (quiet engine_ties_ascending) (JStr "z") "feed_scan")
         empty_world).

End Samples.

(** The scenarios of the specification, run on the model. *)

Example prune_scenario :
  map wm_summary (prune 2 [Samples.note "a"; Samples.note "b"; Samples.note "c"])
  = ["b"; "c"].
Proof. reflexivity. Qed.

Example stats_scenario :
  match fst (deep_memory_stats (Samples.quiet engine_ties_ascending) Samples.three_stored) with
  | Ok st =>
      (total_memories st, undreamed st,
       categories st !! "interaction", categories st !! "feed_scan")
  | Raise _ => (0, 0, None, None)
  end
  = (3, 3, Some 2, Some 1).
Proof. vm_compute. reflexivity. Qed.

Example context_scenario :
  fst (get_working_memory_context (Samples.quiet engine_ties_ascending) 10
         (set_working_file (Some [Samples.note "a"; Samples.note "b"])
                           Samples.empty_world))
  = Ok (mk_lines ["... (1 older memories omitted)";
                  "[2026-01-01T00:00] (interaction) b"]).
Proof. vm_compute. reflexivity. Qed.

Example corrupted_scenario :
  fst (retrieve_undreamed_memories (Samples.quiet engine_ties_ascending)
         Samples.one_corrupted)
  = Ok [Memory 1 "2026-01-01T00:00" "interaction" (JStr "hello");
        Memory 2 "2026-01-01T00:05" "corrupted" corrupted_note].
Proof. vm_compute. reflexivity. Qed.

(** ** The monad and the frame of each operation *)

Section Frames.

Variable E : env.

Lemma bind_inv {A B} (m : M A) (f : A -> M B) w o w' :
  (m ≫= f) w = (o, w') ->
  (exists a w1, m w = (Ok a, w1) /\ f a w1 = (o, w'))
  \/ (exists e, m w = (Raise e, w') /\ o = Raise e).
Proof.
  unfold mbind, M_bind. destruct (m w) as [[a|e] w1]; intros H.
  - left; eauto.
  - right; exists e. inversion H; subst; auto.
Qed.

Lemma bind_ok {A B} (m : M A) (f : A -> M B) w a w1 :
  m w = (Ok a, w1) -> (m ≫= f) w = f a w1.
Proof. unfold mbind, M_bind. intros ->. reflexivity. Qed.

Lemma bind_raise {A B} (m : M A) (f : A -> M B) w e w1 :
  m w = (Raise e, w1) -> (m ≫= f) w = (Raise e, w1).
Proof. unfold mbind, M_bind. intros ->. reflexivity. Qed.

Lemma bind_assoc {A B C} (m : M A) (f : A -> M B) (g : B -> M C) w :
  ((m ≫= f) ≫= g) w = (m ≫= (fun a => f a ≫= g)) w.
Proof. unfold mbind, M_bind. destruct (m w) as [[a | e] w1]; reflexivity. Qed.

Lemma bind_ext {A B} (m : M A) (f f' : A -> M B) w :
  (forall a w1, f a w1 = f' a w1) -> (m ≫= f) w = (m ≫= f') w.
Proof. intros H. unfold mbind, M_bind. destruct (m w) as [[a | e] w1]; auto. Qed.

Lemma keeps_ret {A B} (proj : world -> B) (a : A) : keeps proj (mret a).
Proof. intros w o w' H. inversion H; reflexivity. Qed.

Lemma keeps_raise {A B} (proj : world -> B) e : keeps proj (@raise A e).
Proof. intros w o w' H. inversion H; reflexivity. Qed.

Lemma keeps_get {B} (proj : world -> B) : keeps proj get.
Proof. intros w o w' H. inversion H; reflexivity. Qed.

Lemma keeps_bind {A C B} (proj : world -> B) (m : M A) (f : A -> M C) :
  keeps proj m -> (forall a, keeps proj (f a)) -> keeps proj (m ≫= f).
Proof.
  intros Hm Hf w o w' H. apply bind_inv in H as [(a & w1 & H1 & H2) | (e & H1 & _)].
  - rewrite (Hf _ _ _ _ H2). eapply Hm; eauto.
  - eapply Hm; eauto.
Qed.

Lemma keeps_io {B} (proj : world -> B) `{!Frame set_io_count proj} :
  keeps proj (io E).
Proof.
  intros w o w' H. unfold io in H.
  destruct (io_fault E (io_count w)); inversion H; apply frame_eq.
Qed.

Lemma keeps_now {B} (proj : world -> B) `{!Frame set_ticks proj} :
  keeps proj (now E).
Proof. intros w o w' H. inversion H. apply frame_eq. Qed.

Lemma keeps_modify {B} (proj : world -> B) (f : world -> world) :
  (forall w, proj (f w) = proj w) -> keeps proj (modify f).
Proof. intros Hf w o w' H. inversion H. apply Hf. Qed.

Lemma keeps_messages_create {B} (proj : world -> B)
    `{!Frame set_io_count proj} system user :
  keeps proj (messages_create E system user).
Proof.
  intros w o w' H. unfold messages_create in H.
  destruct (llm E (io_count w) system user); inversion H; apply frame_eq.
Qed.

End Frames.

Create HintDb frame discriminated.

(** Decompose a computation along its binds and case distinctions. *)
Ltac frame_step :=
  first
    [ assumption
    | apply keeps_ret | apply keeps_raise | apply keeps_get
    | apply keeps_io; apply _ | apply keeps_now; apply _
    | apply keeps_messages_create; apply _
    | apply keeps_modify; intros; first [reflexivity | apply frame_eq]
    | apply keeps_bind; [| intros ?]
    | solve [eauto with frame]
    | progress cbv zeta
    | match goal with
      | |- keeps _ (match ?x with _ => _ end) => destruct x
      | |- keeps _ (if ?x then _ else _) => destruct x
      end ].

Ltac frame := repeat frame_step.

Section OperationFrames.

Variable E : env.

Context {B : Type} (proj : world -> B).
Context `{!Frame set_io_count proj, !Frame set_ticks proj}.

Lemma get_or_create_dream_key_keeps `{!Frame set_key_file proj} :
  keeps proj (get_or_create_dream_key E).
Proof. unfold get_or_create_dream_key. frame. Qed.

Lemma get_cipher_keeps `{!Frame set_key_file proj} : keeps proj (get_cipher E).
Proof. unfold get_cipher. pose proof get_or_create_dream_key_keeps. frame. Qed.

Lemma store_deep_memory_keeps `{!Frame set_key_file proj, !Frame set_deep_db proj}
    content category :
  keeps proj (store_deep_memory E content category).
Proof.
  intros. unfold store_deep_memory, _init_deep_db.
  pose proof get_cipher_keeps. frame.
Qed.

Lemma retrieve_undreamed_memories_keeps `{!Frame set_key_file proj} :
  keeps proj (retrieve_undreamed_memories E).
Proof.
  unfold retrieve_undreamed_memories, _init_deep_db.
  pose proof get_cipher_keeps. frame.
Qed.

Lemma deep_memory_stats_keeps : keeps proj (deep_memory_stats E).
Proof. unfold deep_memory_stats, _init_deep_db. frame. Qed.

Lemma mark_as_dreamed_keeps `{!Frame set_deep_db proj} ids :
  keeps proj (mark_as_dreamed E ids).
Proof. unfold mark_as_dreamed, _init_deep_db. frame. Qed.

Lemma _load_working_memory_keeps : keeps proj (_load_working_memory E).
Proof. unfold _load_working_memory. frame. Qed.

Lemma store_working_memory_keeps `{!Frame set_working_file proj} s c m :
  keeps proj (store_working_memory E s c m).
Proof.
  unfold store_working_memory, _save_working_memory.
  pose proof _load_working_memory_keeps. frame.
Qed.

Lemma load_state_keeps : keeps proj (load_state E).
Proof. unfold load_state. frame. Qed.

Lemma save_state_keeps `{!Frame set_state_file proj} s : keeps proj (save_state E s).
Proof. unfold save_state. frame. Qed.

Lemma generate_dream_keeps mems : keeps proj (generate_dream E mems).
Proof. unfold generate_dream. frame. Qed.

Lemma save_dream_locally_keeps `{!Frame set_dreams_dir proj} d s :
  keeps proj (save_dream_locally E d s).
Proof. unfold save_dream_locally. frame. Qed.

Lemma incr_total_dreams_keeps s : keeps proj (incr_total_dreams s).
Proof. unfold incr_total_dreams. frame. Qed.

End OperationFrames.

(** Split a hypothesis [(m ≫= f) w = (o, w')] into the run of [m] and the
    run of [f]. *)
Ltac inv_bind H :=
  let a := fresh "a" in
  let w1 := fresh "w" in
  let H1 := fresh "Hrun" in
  let e := fresh "e" in
  apply bind_inv in H as [(a & w1 & H1 & H) | (e & H & ?)].

(** Use up the hypotheses that run [now] or [get]. *)
Ltac inv_pure :=
  repeat match goal with
         | H : now _ _ = (Ok _, _) |- _ => injection H as <- <-
         | H : get _ = (Ok _, _) |- _ => injection H as <- <-
         end.

(** ** What each operation returns *)

Section Results.

Variable E : env.

Lemma io_ok w : io_fault E (io_count w) = false ->
  io E w = (Ok tt, set_io_count (S (io_count w)) w).
Proof. unfold io. intros ->. reflexivity. Qed.

Lemma io_no_faults w : no_faults E -> io E w = (Ok tt, set_io_count (S (io_count w)) w).
Proof. intros H. apply io_ok, H. Qed.

Lemma io_inv w o w' : io E w = (o, w') -> w' = set_io_count (S (io_count w)) w.
Proof. unfold io. destruct (io_fault E (io_count w)); intros H; inversion H; auto. Qed.

Lemma get_or_create_dream_key_current w k w' :
  get_or_create_dream_key E w = (Ok k, w') -> k = current_key E w.
Proof.
  unfold get_or_create_dream_key, current_key.
  destruct (String.eqb (DREAM_ENCRYPTION_KEY E) ""); intros H.
  - inv_bind H; [| discriminate]. inversion Hrun; subst a w0; clear Hrun.
    destruct (key_file w) as [k0|].
    + inv_bind H; [| discriminate]. inversion H; reflexivity.
    + inv_bind H; [| discriminate]. inv_bind H; [| discriminate].
      inv_bind H; [| discriminate]. inversion H; reflexivity.
  - inversion H; reflexivity.
Qed.

Lemma get_or_create_dream_key_keeps_current :
  keeps (current_key E) (get_or_create_dream_key E).
Proof.
  intros w o w'. unfold get_or_create_dream_key, current_key.
  destruct (String.eqb (DREAM_ENCRYPTION_KEY E) ""); intros H; [| reflexivity].
  inv_bind H; [| discriminate]. inversion Hrun; subst a w0; clear Hrun.
  destruct (key_file w) as [k0|] eqn:Hk.
  - assert (Hkeep : keeps key_file (_ ← io E; mret k0)) by frame.
    rewrite (Hkeep _ _ _ H), Hk. reflexivity.
  - inv_bind H.
    + apply io_inv in Hrun. subst w0.
      inv_bind H; [| discriminate]. inversion Hrun; subst a0 w0; clear Hrun.
      assert (Hkeep : keeps key_file (_ ← io E; mret (generate_key E))) by frame.
      rewrite (Hkeep _ _ _ H). reflexivity.
    + apply io_inv in H. subst w'. simpl. rewrite Hk. reflexivity.
Qed.

Lemma get_cipher_keeps_current : keeps (current_key E) (get_cipher E).
Proof.
  unfold get_cipher. pose proof get_or_create_dream_key_keeps_current. frame.
Qed.

Lemma get_cipher_inv w c w' :
  get_cipher E w = (Ok c, w') -> Fernet E (current_key E w) = Some c.
Proof.
  unfold get_cipher. intros H. inv_bind H; [| discriminate].
  apply get_or_create_dream_key_current in Hrun. subst a.
  destruct (Fernet E (current_key E w)); inversion H; reflexivity.
Qed.

Lemma get_or_create_dream_key_ok w :
  no_faults E -> exists w', get_or_create_dream_key E w = (Ok (current_key E w), w').
Proof.
  intros Hnf. unfold get_or_create_dream_key, current_key.
  destruct (String.eqb (DREAM_ENCRYPTION_KEY E) ""); [| eexists; reflexivity].
  unfold mbind, M_bind, get. destruct (key_file w); simpl.
  - rewrite io_no_faults by assumption. eexists; reflexivity.
  - rewrite io_no_faults by assumption. simpl.
    rewrite io_no_faults by assumption. eexists; reflexivity.
Qed.

Lemma get_cipher_ok w c :
  no_faults E -> Fernet E (current_key E w) = Some c ->
  exists w', get_cipher E w = (Ok c, w').
Proof.
  intros Hnf Hc. unfold get_cipher.
  destruct (get_or_create_dream_key_ok w Hnf) as [w' Hk].
  rewrite (bind_ok _ _ _ _ _ Hk), Hc. eexists; reflexivity.
Qed.

(** The memories the dream process sees: the selected rows, each one
    decoded with the cipher of the current key. *)
Lemma retrieve_undreamed_memories_inv w mems w' :
  retrieve_undreamed_memories E w = (Ok mems, w') ->
  exists c, Fernet E (current_key E w) = Some c
            /\ mems = map (decode_row E c) (select_undreamed E (deep_db w)).
Proof.
  unfold retrieve_undreamed_memories, _init_deep_db. intros H.
  inv_bind H; [| discriminate]. inv_bind H; [| discriminate].
  inv_bind H; [| discriminate]. inv_bind H; [| discriminate].
  inversion Hrun2; subst a2 w3; clear Hrun2. inversion H; subst; clear H.
  exists a0. split.
  - rewrite <- (keeps_io E (current_key E) _ _ _ Hrun).
    eapply get_cipher_inv; eauto.
  - rewrite (keeps_io E deep_db _ _ _ Hrun1).
    rewrite (get_cipher_keeps E deep_db _ _ _ Hrun0).
    rewrite (keeps_io E deep_db _ _ _ Hrun). reflexivity.
Qed.

Lemma retrieve_undreamed_memories_ok w c :
  no_faults E -> Fernet E (current_key E w) = Some c ->
  exists w', retrieve_undreamed_memories E w
             = (Ok (map (decode_row E c) (select_undreamed E (deep_db w))), w')
             /\ ticks w' = ticks w.
Proof.
  intros Hnf Hc. unfold retrieve_undreamed_memories, _init_deep_db.
  rewrite (bind_ok _ _ _ _ _ (io_no_faults w Hnf)).
  destruct (get_cipher_ok (set_io_count (S (io_count w)) w) c Hnf Hc) as [w1 H1].
  rewrite (bind_ok _ _ _ _ _ H1).
  rewrite (bind_ok _ _ _ _ _ (io_no_faults w1 Hnf)).
  pose proof (get_cipher_keeps E deep_db _ _ _ H1) as Hdb.
  pose proof (get_cipher_keeps E ticks _ _ _ H1) as Hticks.
  unfold mbind, M_bind, get, mret, M_ret. simpl in *. rewrite Hdb.
  eexists; split; [reflexivity | exact Hticks].
Qed.

End Results.

(** ** Working memory *)

Section WorkingMemory.

Variable E : env.

Lemma _load_working_memory_inv w l w' :
  _load_working_memory E w = (Ok l, w') -> l = working w /\ ticks w' = ticks w.
Proof.
  unfold _load_working_memory, working. intros H.
  inv_bind H; [| discriminate]. inversion Hrun; subst a w0; clear Hrun.
  destruct (working_file w); simpl.
  - inv_bind H; [| discriminate]. apply io_inv in Hrun. subst w0.
    inversion H; subst. auto.
  - inversion H; subst. auto.
Qed.

Lemma _load_working_memory_ok w :
  no_faults E -> exists w', _load_working_memory E w = (Ok (working w), w').
Proof.
  intros Hnf. unfold _load_working_memory, working, mbind, M_bind, get.
  destruct (working_file w); simpl.
  - rewrite io_no_faults by assumption. eexists; reflexivity.
  - eexists; reflexivity.
Qed.

Lemma store_working_memory_inv summary category metadata w w' :
  store_working_memory E summary category metadata w = (Ok tt, w') ->
  working_file w'
  = Some (prune WORKING_MEMORY_MAX_ENTRIES
            (working w ++ [new_entry E w summary category metadata]))
  /\ ticks w' = S (ticks w).
Proof.
  unfold store_working_memory, _save_working_memory, new_entry. intros H.
  inv_bind H; [| discriminate].
  apply _load_working_memory_inv in Hrun as [-> Ht].
  inv_bind H; [| discriminate]. inversion Hrun; subst a w1; clear Hrun.
  inv_bind H; [| discriminate]. apply io_inv in Hrun. subst w1.
  inversion H; subst; clear H. simpl. rewrite Ht. auto.
Qed.

Lemma store_working_memory_ok summary category metadata w :
  no_faults E ->
  exists w', store_working_memory E summary category metadata w = (Ok tt, w').
Proof.
  intros Hnf. unfold store_working_memory, _save_working_memory.
  destruct (_load_working_memory_ok w Hnf) as [w1 H1].
  rewrite (bind_ok _ _ _ _ _ H1).
  unfold mbind at 1, M_bind at 1, now.
  rewrite (bind_ok _ _ _ _ _ (io_no_faults E _ Hnf)).
  eexists; reflexivity.
Qed.

End WorkingMemory.

Lemma most_recent_length {A} n (l : list A) :
  List.length (most_recent n l) <= n.
Proof. unfold most_recent. rewrite length_skipn. lia. Qed.

Lemma most_recent_all {A} n (l : list A) :
  List.length l <= n -> most_recent n l = l.
Proof.
  intros H. unfold most_recent. replace (List.length l - n) with 0 by lia.
  reflexivity.
Qed.

Lemma prune_most_recent max l : 0 < max -> prune max l = most_recent max l.
Proof.
  intros Hmax. unfold prune, PyStr.last_n.
  destruct (Nat.ltb_spec max (List.length l)).
  - destruct max; [lia | reflexivity].
  - symmetry. apply most_recent_all. assumption.
Qed.

Lemma most_recent_snoc {A} n (l : list A) x :
  0 < n -> most_recent n (most_recent n l ++ [x]) = most_recent n (l ++ [x]).
Proof.
  intros Hn. destruct (Nat.le_gt_cases (List.length l) n) as [Hle | Hgt].
  - rewrite (most_recent_all n l Hle). reflexivity.
  - assert (Hlen : List.length (most_recent n l) = n).
    { unfold most_recent. rewrite length_skipn. lia. }
    unfold most_recent at 1. rewrite length_app, Hlen. simpl.
    replace (n + 1 - n) with 1 by lia.
    rewrite skipn_app, Hlen. replace (1 - n) with 0 by lia. simpl.
    unfold most_recent. rewrite skipn_skipn, length_app. simpl.
    rewrite skipn_app.
    replace (List.length l + 1 - n - List.length l) with 0 by lia. simpl.
    f_equal. f_equal. lia.
Qed.

Lemma most_recent_last {A} n (l : list A) x :
  0 < n -> last (most_recent n (l ++ [x])) = Some x.
Proof.
  intros Hn. unfold most_recent. rewrite length_app. simpl.
  rewrite skipn_app.
  replace (List.length l + 1 - n - List.length l) with 0 by lia.
  simpl. apply last_snoc.
Qed.

Lemma most_recent_app {A} n (l l2 : list A) :
  0 < n -> most_recent n (most_recent n l ++ l2) = most_recent n (l ++ l2).
Proof.
  intros Hn. induction l2 as [| x l2 IH] using rev_ind.
  - rewrite !app_nil_r. apply most_recent_all, most_recent_length.
  - rewrite !app_assoc.
    rewrite <- (most_recent_snoc n (most_recent n l ++ l2)) by assumption.
    rewrite IH. apply most_recent_snoc. assumption.
Qed.

Lemma max_entries_positive : 0 < WORKING_MEMORY_MAX_ENTRIES.
Proof. unfold WORKING_MEMORY_MAX_ENTRIES. lia. Qed.

(** C3.  Whatever the sequence of [store_working_memory] calls, the file
    never holds more than [WORKING_MEMORY_MAX_ENTRIES] (50) entries, and it
    holds the most recent 50 of what was stored before followed by what the
    calls inserted, in insertion order: the oldest entries are dropped at
    each insertion.  For a store that starts empty these are the most
    recent 50 insertions. *)
Theorem working_store_keeps_most_recent (E : env) (calls : list wm_call) (w : world) :
  no_faults E ->
  List.length (working w) <= WORKING_MEMORY_MAX_ENTRIES ->
  exists w',
    store_all E calls w = (Ok tt, w')
    /\ List.length (working w') <= WORKING_MEMORY_MAX_ENTRIES
    /\ working w'
       = most_recent WORKING_MEMORY_MAX_ENTRIES
           (working w ++ inserted E (ticks w) calls).
Proof.
  intros Hnf. revert w.
  induction calls as [| [[summary category] metadata] rest IH]; intros w Hlen.
  - exists w. split; [reflexivity |]. split; [assumption |].
    simpl. rewrite app_nil_r. symmetry. apply most_recent_all. assumption.
  - destruct (store_working_memory_ok E summary category metadata w Hnf) as [w1 H1].
    destruct (store_working_memory_inv E _ _ _ _ _ H1) as [Hfile Hticks].
    assert (Hw1 : working w1
                  = most_recent WORKING_MEMORY_MAX_ENTRIES
                      (working w ++ [new_entry E w summary category metadata])).
    { unfold working at 1. rewrite Hfile. simpl.
      apply prune_most_recent, max_entries_positive. }
    destruct (IH w1) as (w' & Hrun & Hbound & Hlist).
    { rewrite Hw1. apply most_recent_length. }
    exists w'. split; [| split; [assumption |]].
    + simpl. rewrite (bind_ok _ _ _ _ _ H1). assumption.
    + rewrite Hlist, Hw1, Hticks.
      rewrite most_recent_app by apply max_entries_positive.
      rewrite <- app_assoc. reflexivity.
Qed.

Lemma working_store_keeps_most_recent_witness :
  let E := Samples.quiet engine_ties_ascending in
  let calls : list wm_call :=
    [("a", "interaction", None); ("b", "interaction", None); ("c", "observation", None)] in
  no_faults E
  /\ List.length (working Samples.empty_world) <= WORKING_MEMORY_MAX_ENTRIES
  /\ exists w',
       store_all E calls Samples.empty_world = (Ok tt, w')
       /\ List.length (working w') <= WORKING_MEMORY_MAX_ENTRIES
       /\ working w'
          = most_recent WORKING_MEMORY_MAX_ENTRIES
              (working Samples.empty_world ++ inserted E (ticks Samples.empty_world) calls).
Proof.
  intros E calls.
  assert (Hnf : no_faults E) by (intros n; reflexivity).
  assert (Hlen : List.length (working Samples.empty_world) <= WORKING_MEMORY_MAX_ENTRIES)
    by (vm_compute; lia).
  split; [exact Hnf |]. split; [exact Hlen |].
  exact (working_store_keeps_most_recent E calls Samples.empty_world Hnf Hlen).
Defined.

(** C10.  With no entry in working memory, [get_working_memory_context]
    answers the fixed sentence for every budget. *)
Theorem empty_working_memory_context (E : env) (max_tokens_approx : Z) (w : world) :
  working w = [] ->
  io_fault E (io_count w) = false ->
  fst (get_working_memory_context E max_tokens_approx w)
  = Ok "No memories yet. This is my first day.".
Proof.
  unfold working, get_working_memory_context, _load_working_memory.
  unfold mbind, M_bind, get. intros Hw Hio.
  destruct (working_file w) as [l|]; simpl in *.
  - rewrite (io_ok E w Hio). subst l. reflexivity.
  - reflexivity.
Qed.

Lemma empty_working_memory_context_witness :
  let E := Samples.quiet engine_ties_ascending in
  let w := set_working_file (Some []) Samples.empty_world in
  working w = []
  /\ io_fault E (io_count w) = false
  /\ fst (get_working_memory_context E 2000 w)
     = Ok "No memories yet. This is my first day.".
Proof.
  intros E w.
  split; [reflexivity |]. split; [reflexivity |].
  apply (empty_working_memory_context E 2000 w); reflexivity.
Defined.

(** ** Deep memory: marking *)

Lemma id_in_update_row date ids r :
  id_in ids r = true ->
  id_in ids (DeepRow (row_id r) (row_timestamp r) (row_category r)
                     (encrypted_blob r) (content_hash r) 1%Z (Some date)) = true.
Proof. unfold id_in. simpl. auto. Qed.

Lemma update_dreamed_nil date db : update_dreamed date [] db = db.
Proof.
  induction db as [| r db IH]; [reflexivity |].
  unfold update_dreamed in *. simpl. f_equal. exact IH.
Qed.

(** A second [UPDATE] with the same ids overwrites the first. *)
Lemma update_dreamed_twice d1 d2 ids db :
  update_dreamed d2 ids (update_dreamed d1 ids db) = update_dreamed d2 ids db.
Proof.
  unfold update_dreamed. rewrite map_map. apply map_ext. intros r.
  destruct (id_in ids r) eqn:Hin.
  - rewrite (id_in_update_row d1 ids r Hin). reflexivity.
  - rewrite Hin. reflexivity.
Qed.

Lemma update_dreamed_flags d1 d2 ids db :
  map dreamed (update_dreamed d2 ids db) = map dreamed (update_dreamed d1 ids db).
Proof.
  unfold update_dreamed. rewrite !map_map. apply map_ext. intros r.
  destruct (id_in ids r); reflexivity.
Qed.

Lemma update_dreamed_ids date ids db :
  map row_id (update_dreamed date ids db) = map row_id db.
Proof.
  unfold update_dreamed. rewrite map_map. apply map_ext. intros r.
  destruct (id_in ids r); reflexivity.
Qed.

Lemma update_dreamed_stamp date ids db r :
  In r (update_dreamed date ids db) -> id_in ids r = true ->
  dreamed r = 1%Z /\ dream_date r = Some date.
Proof.
  unfold update_dreamed. rewrite in_map_iff. intros (r0 & Hr & _) Hin.
  destruct (id_in ids r0) eqn:Hin0; subst r.
  - simpl. auto.
  - congruence.
Qed.

Lemma update_dreamed_marks date ids db r :
  In r db -> id_in ids r = true ->
  In (DeepRow (row_id r) (row_timestamp r) (row_category r)
              (encrypted_blob r) (content_hash r) 1%Z (Some date))
     (update_dreamed date ids db).
Proof.
  intros Hr Hin. unfold update_dreamed. apply in_map_iff. exists r.
  rewrite Hin. auto.
Qed.

Section Marking.

Variable E : env.

Lemma mark_as_dreamed_inv ids w w' :
  mark_as_dreamed E ids w = (Ok tt, w') ->
  deep_db w' = update_dreamed (isoformat (clock E (ticks w))) ids (deep_db w).
Proof.
  unfold mark_as_dreamed, _init_deep_db. destruct ids as [| i ids].
  - intros H. inversion H; subst. symmetry. apply update_dreamed_nil.
  - intros H. inv_bind H; [| discriminate]. apply io_inv in Hrun. subst w0.
    inv_bind H; [| discriminate]. apply io_inv in Hrun. subst w0.
    inv_bind H; [| discriminate]. inversion Hrun; subst a1 w0; clear Hrun.
    inversion H; subst. reflexivity.
Qed.

Lemma mark_as_dreamed_ok ids w :
  no_faults E -> exists w', mark_as_dreamed E ids w = (Ok tt, w').
Proof.
  intros Hnf. unfold mark_as_dreamed, _init_deep_db. destruct ids as [| i ids].
  - eexists; reflexivity.
  - rewrite (bind_ok _ _ _ _ _ (io_no_faults E _ Hnf)).
    rewrite (bind_ok _ _ _ _ _ (io_no_faults E _ Hnf)).
    eexists; reflexivity.
Qed.

End Marking.

(** C2, as the code has it.  Marking twice is never an error and leaves
    the same records marked as marking once; the second call stamps
    [dream_date] again on every listed id, also on those already marked, so
    the table is the one a single call made at the time of the second call
    would leave.  It is the table of the first call when both calls read the
    same time, and when the list of ids is empty nothing changes. *)
Theorem mark_as_dreamed_twice (E : env) (ids : list Z) (w : world) :
  no_faults E ->
  exists w1 w2,
    mark_as_dreamed E ids w = (Ok tt, w1)
    /\ mark_as_dreamed E ids w1 = (Ok tt, w2)
    /\ map dreamed (deep_db w2) = map dreamed (deep_db w1)
    /\ deep_db w2 = update_dreamed (isoformat (clock E (ticks w1))) ids (deep_db w)
    /\ (forall r, In r (deep_db w2) -> id_in ids r = true ->
          dreamed r = 1%Z /\ dream_date r = Some (isoformat (clock E (ticks w1))))
    /\ (isoformat (clock E (ticks w1)) = isoformat (clock E (ticks w)) ->
          deep_db w2 = deep_db w1)
    /\ (ids = [] -> deep_db w2 = deep_db w).
Proof.
  intros Hnf.
  destruct (mark_as_dreamed_ok E ids w Hnf) as [w1 H1].
  destruct (mark_as_dreamed_ok E ids w1 Hnf) as [w2 H2].
  pose proof (mark_as_dreamed_inv E _ _ _ H1) as Hdb1.
  pose proof (mark_as_dreamed_inv E _ _ _ H2) as Hdb2.
  rewrite Hdb1, update_dreamed_twice in Hdb2.
  exists w1, w2. repeat split; try assumption.
  - rewrite Hdb1, Hdb2. apply update_dreamed_flags.
  - rewrite Hdb2 in H. eapply update_dreamed_stamp in H as [? _]; eauto.
  - rewrite Hdb2 in H. eapply update_dreamed_stamp in H as [_ ?]; eauto.
  - intros Heq. rewrite Hdb1, Hdb2, Heq. reflexivity.
  - intros ->. rewrite Hdb2. apply update_dreamed_nil.
Qed.

Lemma mark_as_dreamed_twice_witness :
  let E := Samples.quiet engine_ties_ascending in
  let w := set_deep_db [Samples.row 1 "2026-01-01T00:00" "enc:hello" 0] Samples.empty_world in
  no_faults E
  /\ exists w1 w2,
       mark_as_dreamed E [1%Z] w = (Ok tt, w1)
       /\ mark_as_dreamed E [1%Z] w1 = (Ok tt, w2)
       /\ map dreamed (deep_db w2) = map dreamed (deep_db w1)
       /\ deep_db w2 = update_dreamed (isoformat (clock E (ticks w1))) [1%Z] (deep_db w)
       /\ (forall r, In r (deep_db w2) -> id_in [1%Z] r = true ->
             dreamed r = 1%Z /\ dream_date r = Some (isoformat (clock E (ticks w1))))
       /\ (isoformat (clock E (ticks w1)) = isoformat (clock E (ticks w)) ->
             deep_db w2 = deep_db w1)
       /\ ([1%Z] = [] -> deep_db w2 = deep_db w).
Proof.
  intros E w.
  assert (Hnf : no_faults E) by (intros n; reflexivity).
  split; [exact Hnf |].
  exact (mark_as_dreamed_twice E [1%Z] w Hnf).
Defined.

(** C2, as the specification states it, fails: a second call at a later
    time changes the table the first call left. *)
Lemma mark_as_dreamed_restamps :
  let E := Samples.quiet engine_ties_ascending in
  let w := set_deep_db [Samples.row 1 "2026-01-01T00:00" "enc:hello" 0] Samples.empty_world in
  let once := snd (mark_as_dreamed E [1%Z] w) in
  let twice := snd (mark_as_dreamed E [1%Z] once) in
  fst (mark_as_dreamed E [1%Z] w) = Ok tt
  /\ fst (mark_as_dreamed E [1%Z] once) = Ok tt
  /\ map dream_date (deep_db once) = [Some "2026-01-01T00:00:00.000100+00:00"]
  /\ map dream_date (deep_db twice) = [Some "2026-01-01T00:00:00.000101+00:00"]
  /\ deep_db twice <> deep_db once.
Proof.
  intros E w once twice.
  repeat split; try (vm_compute; reflexivity).
  vm_compute. discriminate.
Qed.

(** ** Deep memory: listing *)

Section Listing.

Variable E : env.

Lemma decode_row_id c r : mem_id (decode_row E c r) = row_id r.
Proof. unfold decode_row. destruct (decrypt c (encrypted_blob r) ≫= json_loads E); reflexivity. Qed.

Lemma decode_row_timestamp c r : mem_timestamp (decode_row E c r) = row_timestamp r.
Proof. unfold decode_row. destruct (decrypt c (encrypted_blob r) ≫= json_loads E); reflexivity. Qed.

Lemma select_undreamed_perm db :
  Permutation (select_undreamed E db) (List.filter is_undreamed db).
Proof. apply order_by_perm. Qed.

Lemma select_undreamed_In db r :
  In r (select_undreamed E db) <-> In r db /\ dreamed r = 0%Z.
Proof.
  split.
  - intros H. apply (Permutation_in _ (select_undreamed_perm db)) in H.
    apply filter_In in H as [Hr Hu]. split; [assumption |].
    unfold is_undreamed in Hu. lia.
  - intros [Hr Hu].
    apply (Permutation_in _ (Permutation_sym (select_undreamed_perm db))).
    apply filter_In. split; [assumption |]. unfold is_undreamed. lia.
Qed.

Lemma select_undreamed_nil db :
  List.filter is_undreamed db = [] -> select_undreamed E db = [].
Proof.
  intros H. apply Permutation_nil. rewrite <- H. symmetry. apply select_undreamed_perm.
Qed.

Lemma Sorted_map {A C} (R : relation A) (R' : relation C) (f : A -> C) l :
  (forall a b, R a b -> R' (f a) (f b)) -> Sorted R l -> Sorted R' (map f l).
Proof.
  intros Hf. induction 1 as [| x l Hs IH Hhd]; simpl; constructor; [assumption |].
  destruct Hhd as [| y l' Hxy]; simpl; constructor. apply Hf. exact Hxy.
Qed.

Lemma decode_rows_sorted c rows :
  Sorted ts_le rows -> Sorted mem_ts_le (map (decode_row E c) rows).
Proof.
  apply Sorted_map. intros a b Hab.
  unfold mem_ts_le. rewrite !decode_row_timestamp. exact Hab.
Qed.


End Listing.






(** ** Parsing the generation response *)

Lemma upper_char_colon c : PyStr.upper_char c = ":"%char -> c = ":"%char.
Proof.
  destruct c as [[] [] [] [] [] [] [] []]; vm_compute; intros H;
    first [reflexivity | discriminate].
Qed.

(** A line whose capitals start with a text that has a colon has a colon. *)
Lemma prefix_upper_colon p s :
  String.prefix p (PyStr.upper s) = true ->
  is_Some (PyStr.split1_snd ":" p) -> is_Some (PyStr.split1_snd ":" s).
Proof.
  revert s. induction p as [| a p IH]; intros s Hpre Hp; simpl in *.
  - destruct Hp as [? Hp]. discriminate.
  - destruct s as [| b s]; simpl in *; [discriminate |].
    destruct (ascii_dec a (PyStr.upper_char b)) as [-> |]; [| discriminate].
    destruct (Ascii.eqb (PyStr.upper_char b) ":") eqn:Hcolon.
    + apply Ascii.eqb_eq, upper_char_colon in Hcolon. subst b. simpl. eauto.
    + destruct (Ascii.eqb b ":"); [eauto |]. apply IH; assumption.
Qed.

(** [split(":", 1)[1]] never raises on a consolidation line. *)
Lemma consolidation_line_has_colon line :
  is_consolidation_line line = true ->
  is_Some (PyStr.split1_snd ":" (PyStr.strip line)).
Proof.
  unfold is_consolidation_line, PyStr.startswith. intros H.
  apply (prefix_upper_colon _ _ H). vm_compute. eauto.
Qed.

Lemma scan_lines_spec lines consolidation narrative_lines :
  scan_lines lines consolidation narrative_lines
  = Some (match last (List.filter is_consolidation_line lines) with
          | Some line => after_colon line
          | None => consolidation
          end,
          narrative_lines
            ++ List.filter (fun line => negb (is_consolidation_line line)) lines).
Proof.
  revert consolidation narrative_lines.
  induction lines as [| line rest IH]; intros consolidation narrative_lines;
    cbn [scan_lines List.filter].
  - rewrite app_nil_r. reflexivity.
  - destruct (is_consolidation_line line) eqn:Hline; cbn [negb].
    + destruct (consolidation_line_has_colon line Hline) as [r Hr].
      rewrite Hr, IH, last_cons.
      destruct (last (List.filter is_consolidation_line rest)); [reflexivity |].
      unfold after_colon. rewrite Hr. reflexivity.
    + rewrite IH, <- app_assoc. reflexivity.
Qed.

(** C6, as the code has it.  The response is trimmed as a whole and then
    cut into lines.  The first line, trimmed, without its leading ['#'] and
    space characters and trimmed again, is the title.  Among the following
    lines, those whose trimmed capitals start with ["CONSOLIDATION:"] are
    left out of the narrative, and the trimmed remainder after the first
    colon of the last of them is the consolidation, the empty string when
    there is none; the other lines, joined by line feeds and trimmed, are
    the narrative.  The parse never fails, and the response of the scenario
    parses as stated. *)
Theorem parse_dream_spec (response : string) :
  let lines := PyStr.split LF (PyStr.strip response) in
  parse_dream response
  = Some (Dream
            (PyStr.strip (PyStr.lstrip_by PyStr.hash_or_space
                            (PyStr.strip (List.hd EmptyString lines))))
            (PyStr.strip
               (PyStr.join NL
                  (List.filter (fun line => negb (is_consolidation_line line))
                               (List.tl lines))))
            (match last (List.filter is_consolidation_line (List.tl lines)) with
             | Some line => after_colon line
             | None => EmptyString
             end))
  /\ parse_dream response = parse_dream_as_specified (PyStr.strip response)
  /\ parse_dream
       (mk_lines ["Title"; "Line one"; "CONSOLIDATION: insight text"; "Line two"])
     = Some (Dream "Title" (mk_lines ["Line one"; "Line two"]) "insight text").
Proof.
  intros lines. split; [| split].
  - unfold parse_dream. fold lines. rewrite scan_lines_spec. reflexivity.
  - reflexivity.
  - vm_compute. reflexivity.
Qed.

(** C6, as the specification states it, fails on a response that starts
    with an empty line: the code takes the first line of the trimmed
    response for the title, the specification the first line received. *)
Lemma parse_dream_leading_blank_line :
  let response := mk_lines [""; "Title"; "body"] in
  parse_dream response = Some (Dream "Title" "body" "")
  /\ parse_dream_as_specified response = Some (Dream "" (mk_lines ["Title"; "body"]) "")
  /\ parse_dream response <> parse_dream_as_specified response.
Proof.
  intros response. repeat split; try (vm_compute; reflexivity).
  vm_compute. discriminate.
Qed.

(** ** The dual store helper *)

Section Remember.

Variable E : env.

Lemma store_deep_memory_inv content category w w' :
  store_deep_memory E content category w = (Ok tt, w') ->
  exists c,
    Fernet E (current_key E w) = Some c
    /\ deep_db w'
       = deep_db w ++
         [DeepRow (next_rowid (deep_db w)) (isoformat (clock E (ticks w))) category
                  (encrypt c (json_dumps E content))
                  (PyStr.take 16 (sha256_hexdigest E (json_dumps E content)))
                  0%Z None].
Proof.
  unfold store_deep_memory, _init_deep_db. intros H.
  inv_bind H; [| discriminate]. inv_bind H; [| discriminate].
  inv_bind H; [| discriminate]. inv_bind H; [| discriminate].
  inversion Hrun2; subst a2 w3; clear Hrun2. inversion H; subst w'; clear H.
  exists a0. split.
  - rewrite <- (keeps_io E (current_key E) _ _ _ Hrun).
    eapply get_cipher_inv; eauto.
  - simpl.
    rewrite (keeps_io E deep_db _ _ _ Hrun1), (keeps_io E ticks _ _ _ Hrun1).
    rewrite (get_cipher_keeps E deep_db _ _ _ Hrun0).
    rewrite (get_cipher_keeps E ticks _ _ _ Hrun0).
    rewrite (keeps_io E deep_db _ _ _ Hrun), (keeps_io E ticks _ _ _ Hrun).
    reflexivity.
Qed.

(** A [store_working_memory] that raises has written nothing. *)
Lemma store_working_memory_raise summary category metadata w e w' :
  store_working_memory E summary category metadata w = (Raise e, w') ->
  working_file w' = working_file w.
Proof.
  unfold store_working_memory, _save_working_memory. intros H.
  inv_bind H.
  - rewrite <- (_load_working_memory_keeps E working_file _ _ _ Hrun).
    inv_bind H; [| discriminate]. inversion Hrun0; subst a0 w1; clear Hrun0.
    inv_bind H; [discriminate |]. apply io_inv in H. subst w'. reflexivity.
  - apply (_load_working_memory_keeps E working_file _ _ _ H).
Qed.

(** A [store_deep_memory] that raises has inserted nothing. *)
Lemma store_deep_memory_raise content category w e w' :
  store_deep_memory E content category w = (Raise e, w') ->
  deep_db w' = deep_db w.
Proof.
  unfold store_deep_memory, _init_deep_db. intros H.
  inv_bind H; [| apply (keeps_io E deep_db _ _ _ H)].
  rewrite <- (keeps_io E deep_db _ _ _ Hrun).
  inv_bind H; [| apply (get_cipher_keeps E deep_db _ _ _ H)].
  rewrite <- (get_cipher_keeps E deep_db _ _ _ Hrun0).
  inv_bind H; [| apply (keeps_io E deep_db _ _ _ H)].
  inv_bind H; discriminate.
Qed.

Lemma get_cipher_invalid w :
  no_faults E -> Fernet E (current_key E w) = None ->
  exists w', get_cipher E w = (Raise ValueError, w').
Proof.
  intros Hnf Hc. unfold get_cipher.
  destruct (get_or_create_dream_key_ok E w Hnf) as [w' Hk].
  rewrite (bind_ok _ _ _ _ _ Hk), Hc. eexists; reflexivity.
Qed.

(** With a cipher and without I/O fault, [store_deep_memory] returns. *)
Lemma store_deep_memory_ok content category w c :
  no_faults E -> Fernet E (current_key E w) = Some c ->
  exists w', store_deep_memory E content category w = (Ok tt, w').
Proof.
  intros Hnf Hc. unfold store_deep_memory, _init_deep_db.
  rewrite (bind_ok _ _ _ _ _ (io_no_faults E w Hnf)).
  destruct (get_cipher_ok E (set_io_count (S (io_count w)) w) c Hnf Hc) as [w1 H1].
  rewrite (bind_ok _ _ _ _ _ H1).
  rewrite (bind_ok _ _ _ _ _ (io_no_faults E w1 Hnf)).
  eexists; reflexivity.
Qed.

(** With a key that [Fernet] rejects and without I/O fault, it raises the
    [ValueError] of [Fernet]. *)
Lemma store_deep_memory_invalid content category w :
  no_faults E -> Fernet E (current_key E w) = None ->
  exists w', store_deep_memory E content category w = (Raise ValueError, w').
Proof.
  intros Hnf Hc. unfold store_deep_memory, _init_deep_db.
  rewrite (bind_ok _ _ _ _ _ (io_no_faults E w Hnf)).
  destruct (get_cipher_invalid (set_io_count (S (io_count w)) w) Hnf Hc) as [w1 H1].
  rewrite (bind_raise _ _ _ _ _ H1). eauto.
Qed.

End Remember.

(** C9.  [remember] stores the summary in working memory first and the
    full context in deep memory second, under the same category: a call
    that returns has written the entry of the summary, and after it the row
    that holds the full context, encrypted with the cipher of the current
    key, with the hash of its text; with a cipher and without I/O fault the
    call does return.  When the second store raises after the first has
    succeeded, [remember] raises the same exception, the new working-memory
    entry stays and deep memory is as it was (a key that [Fernet] rejects
    does this); when the first store raises, deep memory is not written at
    all. *)
Theorem remember_working_then_deep (E : env) (summary : string) (full_context : json)
    (category : string) (w : world) :
  let entry := WmEntry (isoformat (clock E (ticks w))) category summary None in
  let stored := prune WORKING_MEMORY_MAX_ENTRIES (working w ++ [entry]) in
  let raw := json_dumps E full_context in
  (forall w',
      remember E summary full_context category w = (Ok tt, w') ->
      working_file w' = Some stored
      /\ exists c,
           Fernet E (current_key E w) = Some c
           /\ deep_db w'
              = deep_db w ++
                [DeepRow (next_rowid (deep_db w)) (isoformat (clock E (S (ticks w))))
                         category (encrypt c raw)
                         (PyStr.take 16 (sha256_hexdigest E raw)) 0%Z None])
  /\ (no_faults E ->
      is_Some (Fernet E (current_key E w)) ->
      exists w', remember E summary full_context category w = (Ok tt, w'))
  /\ (forall w1 e w2,
        store_working_memory E summary category None w = (Ok tt, w1) ->
        store_deep_memory E full_context category w1 = (Raise e, w2) ->
        remember E summary full_context category w = (Raise e, w2)
        /\ working_file w2 = Some stored
        /\ last (working w2) = Some entry
        /\ deep_db w2 = deep_db w)
  /\ (no_faults E ->
      Fernet E (current_key E w) = None ->
      exists w2,
        remember E summary full_context category w = (Raise ValueError, w2)
        /\ working_file w2 = Some stored
        /\ deep_db w2 = deep_db w)
  /\ (forall e w1,
        store_working_memory E summary category None w = (Raise e, w1) ->
        remember E summary full_context category w = (Raise e, w1)
        /\ working_file w1 = working_file w
        /\ deep_db w1 = deep_db w).
Proof.
  intros entry stored raw.
  assert (Hfail : forall w1 e w2,
             store_working_memory E summary category None w = (Ok tt, w1) ->
             store_deep_memory E full_context category w1 = (Raise e, w2) ->
             remember E summary full_context category w = (Raise e, w2)
             /\ working_file w2 = Some stored
             /\ last (working w2) = Some entry
             /\ deep_db w2 = deep_db w).
  { intros w1 e w2 H1 H2. apply store_working_memory_inv in H1 as Hw.
    destruct Hw as [Hfile _].
    pose proof (store_deep_memory_keeps E working_file _ _ _ _ _ H2) as Hwf.
    split; [| split; [| split]].
    - unfold remember. rewrite (bind_ok _ _ _ _ _ H1). exact H2.
    - rewrite Hwf. exact Hfile.
    - unfold working at 1. rewrite Hwf, Hfile. simpl. unfold stored.
      rewrite prune_most_recent by apply max_entries_positive.
      apply most_recent_last, max_entries_positive.
    - rewrite (store_deep_memory_raise E _ _ _ _ _ H2).
      apply (store_working_memory_keeps E deep_db _ _ _ _ _ _ H1). }
  split; [| split; [| split; [| split]]].
  - intros w' H. unfold remember in H. inv_bind H; [| discriminate].
    destruct a. apply store_working_memory_inv in Hrun as Hw. destruct Hw as [Hfile Hticks].
    pose proof (store_working_memory_keeps E deep_db _ _ _ _ _ _ Hrun) as Hdb.
    pose proof (store_working_memory_keeps E (current_key E) _ _ _ _ _ _ Hrun) as Hkey.
    pose proof (store_deep_memory_keeps E working_file _ _ _ _ _ H) as Hwf.
    apply store_deep_memory_inv in H as (c & Hc & Hdeep).
    split.
    + rewrite Hwf. exact Hfile.
    + exists c. split; [rewrite <- Hkey; exact Hc |].
      rewrite Hdeep, Hdb, Hticks. reflexivity.
  - intros Hnf [c Hc].
    destruct (store_working_memory_ok E summary category None w Hnf) as [w1 H1].
    pose proof (store_working_memory_keeps E (current_key E) _ _ _ _ _ _ H1) as Hkey.
    rewrite <- Hkey in Hc.
    destruct (store_deep_memory_ok E full_context category w1 c Hnf Hc) as [w2 H2].
    exists w2. unfold remember. rewrite (bind_ok _ _ _ _ _ H1). exact H2.
  - exact Hfail.
  - intros Hnf Hc.
    destruct (store_working_memory_ok E summary category None w Hnf) as [w1 H1].
    pose proof (store_working_memory_keeps E (current_key E) _ _ _ _ _ _ H1) as Hkey.
    rewrite <- Hkey in Hc.
    destruct (store_deep_memory_invalid E full_context category w1 Hnf Hc) as [w2 H2].
    exists w2. destruct (Hfail w1 ValueError w2 H1 H2) as (Hr & Hw & _ & Hd). auto.
  - intros e w1 H1. split; [| split].
    + unfold remember. apply bind_raise. exact H1.
    + eapply store_working_memory_raise; eauto.
    + apply (store_working_memory_keeps E deep_db _ _ _ _ _ _ H1).
Qed.

(** ** The dream cycle *)

Section RaisesOnly.

Variable E : env.
Variable P : exn -> Prop.

Lemma raises_only_ret {A} (a : A) : raises_only P (mret a).
Proof. intros w e w' H. discriminate. Qed.

Lemma raises_only_get : raises_only P get.
Proof. intros w e w' H. discriminate. Qed.

Lemma raises_only_now : raises_only P (now E).
Proof. intros w e w' H. discriminate. Qed.

Lemma raises_only_modify f : raises_only P (modify f).
Proof. intros w e w' H. discriminate. Qed.

Lemma raises_only_raise {A} e : P e -> raises_only P (@raise A e).
Proof. intros He w e' w' H. inversion H; subst; assumption. Qed.

Lemma raises_only_io : (forall n, P (IOError n)) -> raises_only P (io E).
Proof.
  intros HP w e w' H. unfold io in H.
  destruct (io_fault E (io_count w)); inversion H; subst; apply HP.
Qed.

Lemma raises_only_bind {A C} (m : M A) (f : A -> M C) :
  raises_only P m -> (forall a, raises_only P (f a)) -> raises_only P (m ≫= f).
Proof.
  intros Hm Hf w e w' H. apply bind_inv in H as [(a & w1 & H1 & H2) | (e' & H1 & He)].
  - eapply Hf; eauto.
  - inversion He; subst. eapply Hm; eauto.
Qed.

End RaisesOnly.

Ltac raises_step :=
  first
    [ assumption
    | apply raises_only_ret | apply raises_only_get | apply raises_only_now
    | apply raises_only_modify
    | apply raises_only_raise; exact I
    | apply raises_only_io; intros; exact I
    | apply raises_only_bind; [| intros ?]
    | progress cbv zeta
    | match goal with
      | |- raises_only _ (match ?x with _ => _ end) => destruct x
      | |- raises_only _ (if ?x then _ else _) => destruct x
      end ].

Ltac raises := repeat raises_step.

Section CycleParts.

Variable E : env.

Lemma mark_as_dreamed_local ids : raises_only local_failure (mark_as_dreamed E ids).
Proof. unfold mark_as_dreamed, _init_deep_db. raises. Qed.

Lemma store_working_memory_local s c m :
  raises_only local_failure (store_working_memory E s c m).
Proof.
  unfold store_working_memory, _load_working_memory, _save_working_memory. raises.
Qed.

Lemma collecting_local : raises_only local_failure (collecting E).
Proof.
  unfold collecting, deep_memory_stats, retrieve_undreamed_memories, _init_deep_db,
    get_cipher, get_or_create_dream_key. raises.
Qed.

Lemma dreamless_night_local : raises_only local_failure (dreamless_night E).
Proof. unfold dreamless_night, load_state, save_state. raises. Qed.

Lemma update_state_local d : raises_only local_failure (update_state E d).
Proof. unfold update_state, load_state, save_state, incr_total_dreams. raises. Qed.

Lemma persisting_local mems d : raises_only local_failure (persisting E mems d).
Proof.
  pose proof (update_state_local d).
  pose proof (mark_as_dreamed_local (map mem_id mems)).
  pose proof (store_working_memory_local ("[DREAM INSIGHT] " ++ consolidation d)
                "dream_consolidation" None).
  unfold persisting, marking_done, promoting, consolidate_dream_insight,
    save_dream_locally. raises.
Qed.

(** [run_dream_cycle] is collecting followed by [after_collecting]. *)
Lemma run_dream_cycle_unfold w :
  run_dream_cycle E w = (collecting E ≫= after_collecting E) w.
Proof.
  symmetry. unfold collecting. rewrite bind_assoc.
  apply bind_ext. intros t w1. rewrite bind_assoc. reflexivity.
Qed.

End CycleParts.

Lemma same_stores_refl w : same_stores w w.
Proof. repeat split. Qed.

Lemma same_stores_trans w1 w2 w3 :
  same_stores w1 w2 -> same_stores w2 w3 -> same_stores w1 w3.
Proof.
  unfold same_stores. intros (Ha & Hb & Hc & Hd) (Ha' & Hb' & Hc' & Hd').
  repeat split; congruence.
Qed.

Section CycleFrames.

Variable E : env.

Lemma retrieve_undreamed_memories_keeps_current :
  keeps (current_key E) (retrieve_undreamed_memories E).
Proof.
  unfold retrieve_undreamed_memories, _init_deep_db.
  pose proof (get_cipher_keeps_current E). frame.
Qed.

Lemma collecting_keeps_current : keeps (current_key E) (collecting E).
Proof.
  unfold collecting.
  pose proof retrieve_undreamed_memories_keeps_current.
  pose proof (deep_memory_stats_keeps E (current_key E)). frame.
Qed.

Context {B : Type} (proj : world -> B).
Context `{!Frame set_io_count proj, !Frame set_ticks proj}.

Lemma collecting_keeps `{!Frame set_key_file proj} : keeps proj (collecting E).
Proof.
  unfold collecting.
  pose proof (retrieve_undreamed_memories_keeps E proj).
  pose proof (deep_memory_stats_keeps E proj). frame.
Qed.

Lemma dreamless_night_keeps `{!Frame set_state_file proj} :
  keeps proj (dreamless_night E).
Proof.
  unfold dreamless_night. pose proof (load_state_keeps E proj).
  pose proof (save_state_keeps E proj). frame.
Qed.

Lemma update_state_keeps `{!Frame set_state_file proj} d :
  keeps proj (update_state E d).
Proof.
  unfold update_state. pose proof (load_state_keeps E proj).
  pose proof (save_state_keeps E proj).
  pose proof (incr_total_dreams_keeps proj). frame.
Qed.

Lemma marking_done_keeps `{!Frame set_state_file proj, !Frame set_deep_db proj} mems d :
  keeps proj (marking_done E mems d).
Proof.
  unfold marking_done. pose proof (update_state_keeps d).
  pose proof (mark_as_dreamed_keeps E proj (map mem_id mems)). frame.
Qed.

Lemma promoting_keeps `{!Frame set_working_file proj} d : keeps proj (promoting E d).
Proof.
  unfold promoting, consolidate_dream_insight.
  pose proof (store_working_memory_keeps E proj). frame.
Qed.

Lemma persisting_keeps
    `{!Frame set_state_file proj, !Frame set_deep_db proj,
      !Frame set_working_file proj, !Frame set_dreams_dir proj} mems d :
  keeps proj (persisting E mems d).
Proof.
  unfold persisting. pose proof (marking_done_keeps mems d).
  pose proof (promoting_keeps d).
  pose proof (save_dream_locally_keeps E proj). frame.
Qed.

End CycleFrames.

Section CycleResults.

Variable E : env.

Lemma collecting_same_stores w o w' :
  collecting E w = (o, w') ->
  same_stores w w' /\ current_key E w' = current_key E w.
Proof.
  intros H. split; [repeat split |].
  - apply (collecting_keeps E deep_db _ _ _ H).
  - apply (collecting_keeps E working_file _ _ _ H).
  - apply (collecting_keeps E state_file _ _ _ H).
  - apply (collecting_keeps E dreams_dir _ _ _ H).
  - apply (collecting_keeps_current E _ _ _ H).
Qed.

Lemma deep_memory_stats_ticks : keeps ticks (deep_memory_stats E).
Proof. apply deep_memory_stats_keeps; apply _. Qed.

Lemma retrieve_undreamed_memories_ticks : keeps ticks (retrieve_undreamed_memories E).
Proof. apply retrieve_undreamed_memories_keeps; apply _. Qed.

Lemma collecting_inv w mems w' :
  collecting E w = (Ok mems, w') ->
  ticks w' = S (ticks w)
  /\ exists c, Fernet E (current_key E w) = Some c
               /\ mems = map (decode_row E c) (select_undreamed E (deep_db w)).
Proof.
  unfold collecting. intros H.
  inv_bind H; [| discriminate]. inversion Hrun; subst a w0; clear Hrun.
  inv_bind H; [| discriminate].
  pose proof (deep_memory_stats_ticks _ _ _ Hrun) as Ht1.
  pose proof (deep_memory_stats_keeps E deep_db _ _ _ Hrun) as Hd1.
  pose proof (deep_memory_stats_keeps E (current_key E) _ _ _ Hrun) as Hk1.
  pose proof (retrieve_undreamed_memories_ticks _ _ _ H) as Ht2.
  apply retrieve_undreamed_memories_inv in H as (c & Hc & ->).
  split; [rewrite Ht2, Ht1; reflexivity |].
  exists c. rewrite Hk1, Hd1 in *. auto.
Qed.

Lemma deep_memory_stats_ok w :
  no_faults E -> exists st w', deep_memory_stats E w = (Ok st, w').
Proof.
  intros Hnf. unfold deep_memory_stats, _init_deep_db.
  rewrite (bind_ok _ _ _ _ _ (io_no_faults E _ Hnf)).
  rewrite (bind_ok _ _ _ _ _ (io_no_faults E _ Hnf)).
  do 2 eexists; reflexivity.
Qed.

Lemma collecting_ok w c :
  no_faults E -> Fernet E (current_key E w) = Some c ->
  exists w', collecting E w
             = (Ok (map (decode_row E c) (select_undreamed E (deep_db w))), w').
Proof.
  intros Hnf Hc. unfold collecting.
  unfold mbind at 1, M_bind at 1, now.
  destruct (deep_memory_stats_ok (set_ticks (S (ticks w)) w) Hnf) as (st & w1 & H1).
  rewrite (bind_ok _ _ _ _ _ H1).
  pose proof (deep_memory_stats_keeps E deep_db _ _ _ H1) as Hd1.
  pose proof (deep_memory_stats_keeps E (current_key E) _ _ _ H1) as Hk1.
  change (deep_db (set_ticks (S (ticks w)) w)) with (deep_db w) in Hd1.
  change (current_key E (set_ticks (S (ticks w)) w)) with (current_key E w) in Hk1.
  rewrite <- Hk1 in Hc.
  destruct (retrieve_undreamed_memories_ok E w1 c Hnf Hc) as (w2 & H2 & _).
  rewrite Hd1 in H2. eauto.
Qed.

Lemma load_state_inv w s w' :
  load_state E w = (Ok s, w') -> s = agent_state w /\ ticks w' = ticks w.
Proof.
  unfold load_state, agent_state. intros H.
  inv_bind H; [| discriminate]. inversion Hrun; subst a w0; clear Hrun.
  destruct (state_file w); simpl.
  - inv_bind H; [| discriminate]. apply io_inv in Hrun. subst w0.
    inversion H; subst. auto.
  - inversion H; subst. auto.
Qed.

Lemma load_state_ok w :
  no_faults E -> exists w', load_state E w = (Ok (agent_state w), w').
Proof.
  intros Hnf. unfold load_state, agent_state, mbind, M_bind, get.
  destruct (state_file w); simpl.
  - rewrite io_no_faults by assumption. eexists; reflexivity.
  - eexists; reflexivity.
Qed.

Lemma save_state_inv s w o w' :
  save_state E s w = (o, w') ->
  (o = Ok tt /\ state_file w' = Some s)
  \/ (exists e, o = Raise e /\ state_file w' = state_file w).
Proof.
  unfold save_state. intros H. inv_bind H.
  - apply io_inv in Hrun. subst w0. inversion H; subst. left. auto.
  - apply io_inv in H. subst w'. right. eauto.
Qed.

(** The night without memories: either the state file gets its two
    entries, or an exception leaves it as it was. *)
Lemma dreamless_night_inv w o w' :
  dreamless_night E w = (o, w') ->
  (o = Ok None
   /\ state_file w'
      = Some (<["dream_count" := JInt 0]>
                (<["last_dream" := JStr (isoformat (clock E (ticks w)))]>
                   (agent_state w))))
  \/ (exists e, o = Raise e /\ state_file w' = state_file w).
Proof.
  unfold dreamless_night. intros H. inv_bind H.
  - pose proof (load_state_keeps E state_file _ _ _ Hrun) as Hs.
    apply load_state_inv in Hrun as [-> Ht].
    inv_bind H; [| discriminate]. inv_pure.
    inv_bind H.
    + apply save_state_inv in Hrun as [[_ Hsaved] | (e & He & _)]; [| discriminate].
      inversion H; subst. left. rewrite Hsaved, Ht. auto.
    + apply save_state_inv in H as [[Hok _] | (e' & He & Hsame)]; [discriminate |].
      right. exists e. split; [assumption |]. rewrite Hsame. exact Hs.
  - right. exists e. split; [assumption |].
    apply (load_state_keeps E state_file _ _ _ H).
Qed.

Lemma dreamless_night_ok w :
  no_faults E -> exists w', dreamless_night E w = (Ok None, w').
Proof.
  intros Hnf. unfold dreamless_night.
  destruct (load_state_ok w Hnf) as [w1 H1]. rewrite (bind_ok _ _ _ _ _ H1).
  unfold mbind at 1, M_bind at 1, now. unfold save_state.
  rewrite (bind_ok _ _ _ _ _
             (bind_ok _ _ _ _ _ (io_no_faults E _ Hnf))).
  eexists; reflexivity.
Qed.

End CycleResults.

(** C7.  When no row of deep memory has [dreamed = 0], the cycle writes no
    dream file, promotes nothing into working memory and marks nothing; it
    leaves the counter ["total_dreams"] of the agent state alone and, when it
    returns, returns [None] after recording the dreamless night in the state
    as ["last_dream"], the time of the cycle, and ["dream_count"], zero.  It
    does return when no I/O operation fails and the key is well formed. *)
Theorem dreamless_cycle (E : env) (w : world) :
  List.filter is_undreamed (deep_db w) = [] ->
  (forall o w',
      run_dream_cycle E w = (o, w') ->
      dreams_dir w' = dreams_dir w
      /\ working_file w' = working_file w
      /\ deep_db w' = deep_db w
      /\ agent_state w' !! "total_dreams" = agent_state w !! "total_dreams"
      /\ ((o = Ok None
           /\ state_file w'
              = Some (<["dream_count" := JInt 0]>
                        (<["last_dream" := JStr (isoformat (clock E (S (ticks w))))]>
                           (agent_state w))))
          \/ (exists e, o = Raise e /\ state_file w' = state_file w)))
  /\ (no_faults E -> is_Some (Fernet E (current_key E w)) ->
      exists w', run_dream_cycle E w = (Ok None, w')).
Proof.
  intros Hnone. split.
  - intros o w' H. rewrite run_dream_cycle_unfold in H. inv_bind H.
    + destruct (collecting_same_stores E _ _ _ Hrun) as [(Hd & Hw & Hs & Hdr) _].
      apply collecting_inv in Hrun as (Ht & c & _ & ->).
      rewrite (select_undreamed_nil E _ Hnone) in H. simpl in H.
      change (after_collecting E [] w0) with (dreamless_night E w0) in H.
      pose proof (dreamless_night_keeps E dreams_dir _ _ _ H) as Hdr'.
      pose proof (dreamless_night_keeps E working_file _ _ _ H) as Hw'.
      pose proof (dreamless_night_keeps E deep_db _ _ _ H) as Hd'.
      assert (Hst : agent_state w0 = agent_state w)
        by (unfold agent_state; rewrite Hs; reflexivity).
      split; [congruence |]. split; [congruence |]. split; [congruence |].
      apply dreamless_night_inv in H as [[-> Hsaved] | (e & -> & Hsame)].
      * rewrite Ht, Hst in Hsaved. split; [| left; auto].
        unfold agent_state at 1. rewrite Hsaved. simpl.
        rewrite !lookup_insert_ne by done. reflexivity.
      * split; [| right; exists e; split; [reflexivity | congruence]].
        unfold agent_state. rewrite Hsame, Hs. reflexivity.
    + destruct (collecting_same_stores E _ _ _ H) as [(Hd & Hw & Hs & Hdr) _].
      repeat split; try assumption.
      * unfold agent_state. rewrite Hs. reflexivity.
      * right. exists e. auto.
  - intros Hnf [c Hc].
    destruct (collecting_ok E w c Hnf Hc) as [w1 H1].
    rewrite (select_undreamed_nil E _ Hnone) in H1.
    destruct (dreamless_night_ok E w1 Hnf) as [w2 H2].
    exists w2. rewrite run_dream_cycle_unfold, (bind_ok _ _ _ _ _ H1). exact H2.
Qed.

Section CycleSteps.

Variable E : env.

Lemma generate_dream_inv mems w d w' :
  generate_dream E mems w = (Ok d, w') ->
  exists text,
    llm E (io_count w) (dream_system_prompt E mems) DREAM_USER_PROMPT = inl text
    /\ parse_dream text = Some d.
Proof.
  unfold generate_dream. intros H. inv_bind H; [| discriminate].
  unfold messages_create in Hrun.
  destruct (llm E (io_count w) (dream_system_prompt E mems) DREAM_USER_PROMPT)
    as [text | msg]; [| discriminate].
  injection Hrun as <- <-. exists text. split; [reflexivity |].
  destruct (parse_dream text); [| discriminate]. injection H as <- _. reflexivity.
Qed.

Lemma generate_dream_raise mems w msg w' :
  generate_dream E mems w = (Raise (GenerationError msg), w') ->
  llm E (io_count w) (dream_system_prompt E mems) DREAM_USER_PROMPT = inr msg.
Proof.
  unfold generate_dream. intros H. inv_bind H.
  - destruct (parse_dream a); discriminate.
  - unfold messages_create in H.
    destruct (llm E (io_count w) (dream_system_prompt E mems) DREAM_USER_PROMPT)
      as [text | msg']; [discriminate |].
    congruence.
Qed.

Lemma mark_as_dreamed_raise ids w e w' :
  mark_as_dreamed E ids w = (Raise e, w') -> deep_db w' = deep_db w.
Proof.
  unfold mark_as_dreamed, _init_deep_db. destruct ids as [| i ids]; [discriminate |].
  intros H. inv_bind H.
  - apply io_inv in Hrun. subst w0. inv_bind H.
    + inv_bind H; discriminate.
    + apply io_inv in H. subst w'. reflexivity.
  - apply io_inv in H. subst w'. reflexivity.
Qed.

Lemma update_state_result d w r w' :
  update_state E d w = (Ok r, w') -> r = Some d.
Proof.
  unfold update_state. intros H.
  inv_bind H; [| discriminate]. inv_bind H; [| discriminate].
  inv_bind H; [| discriminate]. inv_bind H; [| discriminate].
  injection H as <- _. reflexivity.
Qed.

Lemma marking_done_inv mems d w o w' :
  marking_done E mems d w = (o, w') ->
  (deep_db w' = deep_db w /\ exists e, o = Raise e)
  \/ (deep_db w'
      = update_dreamed (isoformat (clock E (ticks w))) (map mem_id mems) (deep_db w)
      /\ forall r, o = Ok r -> r = Some d).
Proof.
  unfold marking_done. intros H. inv_bind H.
  - destruct a. right. split.
    + rewrite (update_state_keeps E deep_db _ _ _ _ H).
      apply mark_as_dreamed_inv. assumption.
    + intros r ->. eapply update_state_result; eauto.
  - left. split; [| eauto]. eapply mark_as_dreamed_raise; eauto.
Qed.

Lemma promoting_inv d w w' :
  promoting E d w = (Ok tt, w') ->
  consolidation d <> "" ->
  last (working w')
  = Some (insight_entry (isoformat (clock E (ticks w))) (consolidation d)).
Proof.
  unfold promoting, consolidate_dream_insight. intros H Hne.
  destruct (String.eqb_spec (consolidation d) ""); [contradiction |].
  apply store_working_memory_inv in H as [Hfile _].
  unfold working at 1. rewrite Hfile. simpl.
  rewrite prune_most_recent by apply max_entries_positive.
  apply most_recent_last, max_entries_positive.
Qed.

(** After the dream has been generated: either deep memory is untouched
    and the cycle has raised, or the listed memories are marked, and then
    the insight, if there is one, is the newest entry of working memory. *)
Lemma persisting_inv mems d w o w' :
  persisting E mems d w = (o, w') ->
  (deep_db w' = deep_db w /\ exists e, o = Raise e)
  \/ ((exists t, deep_db w' = update_dreamed t (map mem_id mems) (deep_db w))
      /\ (consolidation d <> "" ->
          exists t, last (working w') = Some (insight_entry t (consolidation d)))
      /\ forall r, o = Ok r -> r = Some d).
Proof.
  unfold persisting. intros H.
  inv_bind H; [| discriminate]. inv_pure.
  inv_bind H.
  - pose proof (save_dream_locally_keeps E deep_db _ _ _ _ _ Hrun) as Hd1.
    change (deep_db (set_ticks (S (ticks w)) w)) with (deep_db w) in Hd1.
    inv_bind H.
    + destruct a0.
      pose proof (promoting_keeps E deep_db _ _ _ _ Hrun0) as Hd2.
      pose proof (marking_done_keeps E working_file _ _ _ _ _ H) as Hw3.
      apply marking_done_inv in H as [[Hd3 Hraise] | [Hd3 Hres]].
      * left. split; [congruence | assumption].
      * right. split; [| split; [| assumption]].
        -- eexists. rewrite Hd3, Hd2, Hd1. reflexivity.
        -- intros Hne. eexists. unfold working. rewrite Hw3.
           apply (promoting_inv _ _ _ Hrun0 Hne).
    + left. split; [| eauto].
      rewrite (promoting_keeps E deep_db _ _ _ _ H). assumption.
  - left. split; [| eauto].
    apply (save_dream_locally_keeps E deep_db _ _ _ _ _ H).
Qed.

Lemma after_collecting_inv mems w o w' :
  after_collecting E mems w = (o, w') ->
  (deep_db w' = deep_db w /\ (o = Ok None \/ exists e, o = Raise e))
  \/ (exists d,
        (exists n text,
            llm E n (dream_system_prompt E mems) DREAM_USER_PROMPT = inl text
            /\ parse_dream text = Some d)
        /\ (exists t, deep_db w' = update_dreamed t (map mem_id mems) (deep_db w))
        /\ (consolidation d <> "" ->
            exists t, last (working w') = Some (insight_entry t (consolidation d)))
        /\ forall r, o = Ok r -> r = Some d).
Proof.
  unfold after_collecting. intros H. destruct (is_empty_list mems).
  - left. split; [apply (dreamless_night_keeps E deep_db _ _ _ H) |].
    apply dreamless_night_inv in H as [[-> _] | (e & -> & _)]; eauto.
  - inv_bind H.
    + pose proof (generate_dream_keeps E deep_db _ _ _ _ Hrun) as Hd1.
      apply generate_dream_inv in Hrun as (text & Hllm & Hparse).
      apply persisting_inv in H as [[Hd2 Hraise] | (Hmark & Hprom & Hres)].
      * left. split; [congruence | auto].
      * right. exists a. rewrite Hd1 in Hmark. eauto 10.
    + left. split; [| eauto].
      apply (generate_dream_keeps E deep_db _ _ _ _ H).
Qed.

Lemma run_dream_cycle_inv w o w' :
  run_dream_cycle E w = (o, w') ->
  (deep_db w' = deep_db w /\ (o = Ok None \/ exists e, o = Raise e))
  \/ (exists c d,
        Fernet E (current_key E w) = Some c
        /\ (exists n sys text,
               llm E n sys DREAM_USER_PROMPT = inl text /\ parse_dream text = Some d)
        /\ (exists t,
               deep_db w'
               = update_dreamed t (map row_id (select_undreamed E (deep_db w)))
                                (deep_db w))
        /\ (consolidation d <> "" ->
            exists t, last (working w') = Some (insight_entry t (consolidation d)))
        /\ forall r, o = Ok r -> r = Some d).
Proof.
  intros H. rewrite run_dream_cycle_unfold in H. inv_bind H.
  - destruct (collecting_same_stores E _ _ _ Hrun) as [(Hd & _) _].
    apply collecting_inv in Hrun as (_ & c & Hc & ->).
    apply after_collecting_inv in H
      as [[Hd' Ho] | (d & (n & text & Hllm) & (t & Hmark) & Hprom & Hres)].
    + left. split; [congruence | assumption].
    + right. exists c, d. split; [assumption |]. split; [eauto |].
      split; [| auto]. exists t. rewrite Hmark, Hd, map_map.
      rewrite (map_ext _ row_id) by apply decode_row_id. reflexivity.
  - left. split; [| eauto]. apply (collecting_keeps E deep_db _ _ _ H).
Qed.

End CycleSteps.

Lemma is_empty_list_false {A} (l : list A) : l <> [] -> is_empty_list l = false.
Proof. destruct l; [contradiction | reflexivity]. Qed.

(** C5.  A failure of the generation service reaches the caller of
    [run_dream_cycle] as the exception of the service, and a cycle that ends
    with it has changed none of the stores: no row is marked, working memory,
    the dream files and the agent state are as before, and a later retrieval
    sees the memories that a retrieval before the cycle would have seen. *)
Theorem generation_failure_aborts (E : env) (w : world) (msg : string) :
  (no_faults E ->
   is_Some (Fernet E (current_key E w)) ->
   List.filter is_undreamed (deep_db w) <> [] ->
   (forall n sys, llm E n sys DREAM_USER_PROMPT = inr msg) ->
   exists w', run_dream_cycle E w = (Raise (GenerationError msg), w'))
  /\ (forall w',
        run_dream_cycle E w = (Raise (GenerationError msg), w') ->
        (exists n sys, llm E n sys DREAM_USER_PROMPT = inr msg)
        /\ deep_db w' = deep_db w
        /\ working_file w' = working_file w
        /\ dreams_dir w' = dreams_dir w
        /\ state_file w' = state_file w
        /\ forall mems w'',
             retrieve_undreamed_memories E w' = (Ok mems, w'') ->
             exists c, Fernet E (current_key E w) = Some c
                       /\ mems = map (decode_row E c) (select_undreamed E (deep_db w))).
Proof.
  split.
  - intros Hnf [c Hc] Hsome Hllm.
    destruct (collecting_ok E w c Hnf Hc) as [w1 H1].
    exists (set_io_count (S (io_count w1)) w1).
    rewrite run_dream_cycle_unfold, (bind_ok _ _ _ _ _ H1).
    unfold after_collecting. rewrite is_empty_list_false.
    + apply bind_raise. unfold generate_dream. apply bind_raise.
      unfold messages_create. rewrite Hllm. reflexivity.
    + intros Hnil. apply map_eq_nil in Hnil. apply Hsome.
      apply Permutation_nil. rewrite <- Hnil. apply select_undreamed_perm.
  - intros w' H. rewrite run_dream_cycle_unfold in H. inv_bind H.
    + destruct (collecting_same_stores E _ _ _ Hrun) as [(Hd & Hw & Hs & Hdr) Hk].
      unfold after_collecting in H. destruct (is_empty_list a).
      { apply dreamless_night_local in H. contradiction. }
      inv_bind H; [apply persisting_local in H; contradiction |].
      injection H0 as <-.
      pose proof (generate_dream_keeps E deep_db _ _ _ _ H) as Hd'.
      pose proof (generate_dream_keeps E working_file _ _ _ _ H) as Hw'.
      pose proof (generate_dream_keeps E dreams_dir _ _ _ _ H) as Hdr'.
      pose proof (generate_dream_keeps E state_file _ _ _ _ H) as Hs'.
      pose proof (generate_dream_keeps E (current_key E) _ _ _ _ H) as Hk'.
      apply generate_dream_raise in H.
      split; [eauto |]. repeat (split; [congruence |]).
      intros mems w'' Hret.
      apply retrieve_undreamed_memories_inv in Hret as (c & Hc & ->).
      exists c. rewrite Hk', Hk, Hd', Hd in *. auto.
    + injection H0 as <-. apply collecting_local in H. contradiction.
Qed.

(** C1, as the code has it.  A row that cannot be decrypted or decoded is
    returned by [retrieve_undreamed_memories] with its id and timestamp,
    the category ["corrupted"] and the placeholder content, and the failure
    raises nothing.  A dream cycle that completes marks that row as dreamed
    together with every other row it collected. *)
Theorem corrupted_memory_surfaced_and_marked (E : env) (w : world) (r : deep_row)
    (c : cipher) :
  In r (deep_db w) ->
  dreamed r = 0%Z ->
  Fernet E (current_key E w) = Some c ->
  decrypt c (encrypted_blob r) ≫= json_loads E = None ->
  (forall mems w',
      retrieve_undreamed_memories E w = (Ok mems, w') ->
      In (Memory (row_id r) (row_timestamp r) "corrupted" corrupted_note) mems)
  /\ (no_faults E -> exists mems w', retrieve_undreamed_memories E w = (Ok mems, w'))
  /\ (forall d w',
        run_dream_cycle E w = (Ok (Some d), w') ->
        exists t,
          In (DeepRow (row_id r) (row_timestamp r) (row_category r)
                      (encrypted_blob r) (content_hash r) 1%Z (Some t))
             (deep_db w')).
Proof.
  intros Hr Hu Hc Hfail.
  assert (Hsel : In r (select_undreamed E (deep_db w)))
    by (apply select_undreamed_In; auto).
  split; [| split].
  - intros mems w' H. apply retrieve_undreamed_memories_inv in H as (c' & Hc' & ->).
    assert (c' = c) by congruence. subst c'.
    apply in_map_iff. exists r. split; [| assumption].
    unfold decode_row. rewrite Hfail. reflexivity.
  - intros Hnf. destruct (retrieve_undreamed_memories_ok E w c Hnf Hc) as (w' & H & _).
    eauto.
  - intros d w' H.
    apply run_dream_cycle_inv in H
      as [[_ [Ho | [e Ho]]] | (_ & _ & _ & _ & (t & Hmark) & _)]; try discriminate.
    exists t. rewrite Hmark. apply update_dreamed_marks; [assumption |].
    unfold id_in. apply existsb_exists. exists (row_id r).
    split; [apply in_map; assumption | apply Z.eqb_refl].
Qed.

(** ** The theorems at work on the examples *)

Lemma quiet_no_faults eng : no_faults (Samples.quiet eng).
Proof. intros n. reflexivity. Qed.

Lemma generation_failure_aborts_witness :
  let E := Samples.no_quota in
  let w := Samples.one_corrupted in
  let w' := snd (run_dream_cycle E w) in
  run_dream_cycle E w = (Raise (GenerationError "quota exceeded"), w')
  /\ deep_db w' = deep_db w
  /\ working_file w' = working_file w
  /\ dreams_dir w' = dreams_dir w
  /\ state_file w' = state_file w.
Proof.
  intros E w w'.
  assert (Hnf : no_faults E) by (intros n; reflexivity).
  assert (Hkey : is_Some (Fernet E (current_key E w))) by (eexists; reflexivity).
  assert (Hrows : List.filter is_undreamed (deep_db w) <> []) by (simpl; discriminate).
  assert (Hllm : forall n sys, llm E n sys DREAM_USER_PROMPT = inr "quota exceeded")
    by (intros n sys; reflexivity).
  destruct (generation_failure_aborts E w "quota exceeded") as [Hraises Hframe].
  destruct (Hraises Hnf Hkey Hrows Hllm) as [w1 Hrun].
  assert (Hw' : w' = w1) by (unfold w'; rewrite Hrun; reflexivity).
  rewrite Hw'. split; [exact Hrun |].
  destruct (Hframe w1 Hrun) as (_ & Hd & Hwf & Hdr & Hs & _). auto.
Defined.

Lemma dreamless_cycle_witness :
  let E := Samples.quiet engine_ties_ascending in
  let w := Samples.nothing_new in
  let w' := snd (run_dream_cycle E w) in
  List.filter is_undreamed (deep_db w) = []
  /\ run_dream_cycle E w = (Ok None, w')
  /\ dreams_dir w' = dreams_dir w
  /\ working_file w' = working_file w
  /\ deep_db w' = deep_db w
  /\ agent_state w' !! "total_dreams" = Some (JInt 3).
Proof.
  intros E w w'.
  assert (Hnone : List.filter is_undreamed (deep_db w) = []) by reflexivity.
  assert (Hkey : is_Some (Fernet E (current_key E w))) by (eexists; reflexivity).
  destruct (dreamless_cycle E w Hnone) as [Hframe Hreturns].
  destruct (Hreturns (quiet_no_faults _) Hkey) as [w1 Hrun].
  assert (Hw' : w' = w1) by (unfold w'; rewrite Hrun; reflexivity).
  rewrite Hw'. split; [exact Hnone |]. split; [exact Hrun |].
  destruct (Hframe _ _ Hrun) as (Hdr & Hwf & Hd & Ht & _).
  repeat (split; [assumption |]). rewrite Ht. reflexivity.
Defined.

Lemma remember_working_then_deep_witness :
  let E := Samples.failing_at 1 in
  let Q := Samples.quiet engine_ties_ascending in
  let w := Samples.empty_world in
  let entry := WmEntry (isoformat (clock E 0)) "interaction" "saw a post" None in
  let w1 := snd (store_working_memory E "saw a post" "interaction" None w) in
  let w2 := snd (store_deep_memory E (JStr "full") "interaction" w1) in
  let w' := snd (remember Q "saw a post" (JStr "full") "interaction" w) in
  (store_working_memory E "saw a post" "interaction" None w = (Ok tt, w1)
   /\ store_deep_memory E (JStr "full") "interaction" w1 = (Raise (IOError 1), w2)
   /\ remember E "saw a post" (JStr "full") "interaction" w = (Raise (IOError 1), w2)
   /\ working_file w2 = Some [entry]
   /\ last (working w2) = Some entry
   /\ deep_db w2 = [])
  /\ remember Q "saw a post" (JStr "full") "interaction" w = (Ok tt, w')
  /\ working_file w' = Some [entry]
  /\ exists c,
       Fernet Q (current_key Q w) = Some c
       /\ deep_db w'
          = [DeepRow 1 (isoformat (clock Q 1)) "interaction"
                     (encrypt c (json_dumps Q (JStr "full")))
                     (PyStr.take 16 (sha256_hexdigest Q (json_dumps Q (JStr "full"))))
                     0%Z None].
Proof.
  intros E Q w entry w1 w2 w'.
  assert (H1 : store_working_memory E "saw a post" "interaction" None w = (Ok tt, w1))
    by (vm_compute; reflexivity).
  assert (H2 : store_deep_memory E (JStr "full") "interaction" w1
               = (Raise (IOError 1), w2))
    by (vm_compute; reflexivity).
  assert (H3 : remember Q "saw a post" (JStr "full") "interaction" w = (Ok tt, w'))
    by (vm_compute; reflexivity).
  split.
  - split; [exact H1 |]. split; [exact H2 |].
    destruct (remember_working_then_deep E "saw a post" (JStr "full") "interaction" w)
      as (_ & _ & Hdeep_fails & _).
    exact (Hdeep_fails w1 (IOError 1) w2 H1 H2).
  - split; [exact H3 |].
    destruct (remember_working_then_deep Q "saw a post" (JStr "full") "interaction" w)
      as (Hreturns & _).
    exact (Hreturns w' H3).
Defined.

Lemma corrupted_memory_surfaced_and_marked_witness :
  let E := Samples.quiet engine_ties_ascending in
  let w := Samples.one_corrupted in
  let r := Samples.corrupted_row in
  let mems := [Memory 1 "2026-01-01T00:00" "interaction" (JStr "hello");
               Memory 2 "2026-01-01T00:05" "corrupted" corrupted_note] in
  let d := Dream "Title" (mk_lines ["Line one"; "Line two"]) "insight text" in
  let w' := snd (run_dream_cycle E w) in
  In r (deep_db w)
  /\ dreamed r = 0%Z
  /\ Fernet E (current_key E w) = Some Samples.toy_cipher
  /\ decrypt Samples.toy_cipher (encrypted_blob r) ≫= json_loads E = None
  /\ fst (retrieve_undreamed_memories E w) = Ok mems
  /\ In (Memory (row_id r) (row_timestamp r) "corrupted" corrupted_note) mems
  /\ run_dream_cycle E w = (Ok (Some d), w')
  /\ exists t,
       In (DeepRow (row_id r) (row_timestamp r) (row_category r)
                   (encrypted_blob r) (content_hash r) 1%Z (Some t))
          (deep_db w').
Proof.
  intros E w r mems d w'.
  assert (Hr : In r (deep_db w)) by (right; left; reflexivity).
  assert (Hu : dreamed r = 0%Z) by reflexivity.
  assert (Hc : Fernet E (current_key E w) = Some Samples.toy_cipher) by reflexivity.
  assert (Hfail : decrypt Samples.toy_cipher (encrypted_blob r) ≫= json_loads E = None)
    by reflexivity.
  assert (Hret : retrieve_undreamed_memories E w
                 = (Ok mems, snd (retrieve_undreamed_memories E w)))
    by (vm_compute; reflexivity).
  assert (Hrun : run_dream_cycle E w = (Ok (Some d), w'))
    by (vm_compute; reflexivity).
  destruct (corrupted_memory_surfaced_and_marked E w r Samples.toy_cipher Hr Hu Hc Hfail)
    as (Hsurfaced & _ & Hmarked).
  repeat (split; [assumption |]).
  split; [rewrite Hret; reflexivity |].
  split; [exact (Hsurfaced _ _ Hret) |].
  split; [exact Hrun |].
  exact (Hmarked d w' Hrun).
Defined.

(** C1, as the specification states it, fails: the cycle that collected
    the damaged row leaves it marked as dreamed. *)
Lemma corrupted_memory_is_marked :
  let E := Samples.quiet engine_ties_ascending in
  let w := Samples.one_corrupted in
  let w' := snd (run_dream_cycle E w) in
  map mem_category (match fst (retrieve_undreamed_memories E w) with
                    | Ok mems => mems
                    | Raise _ => []
                    end)
  = ["interaction"; "corrupted"]
  /\ map dreamed (deep_db w) = [0%Z; 0%Z]
  /\ fst (run_dream_cycle E w)
     = Ok (Some (Dream "Title" (mk_lines ["Line one"; "Line two"]) "insight text"))
  /\ map (fun r => (row_id r, dreamed r)) (deep_db w') = [(1%Z, 1%Z); (2%Z, 1%Z)].
Proof.
  intros E w w'. repeat split; vm_compute; reflexivity.
Qed.

(** * Further properties of the code *)

(** Use up the hypotheses that run [io]. *)
Ltac inv_io :=
  repeat match goal with
         | H : io _ _ = (_, ?w') |- _ => apply io_inv in H; subst w'
         end.

(** ** The key *)

Section KeyManager.

Variable E : env.

Lemma get_or_create_dream_key_file w k w' :
  get_or_create_dream_key E w = (Ok k, w') ->
  DREAM_ENCRYPTION_KEY E = "" ->
  key_file w' = Some k.
Proof.
  unfold get_or_create_dream_key. intros H Hcfg. rewrite Hcfg in H. simpl in H.
  inv_bind H; [| discriminate]. inv_pure.
  destruct (key_file w) as [k0 |] eqn:Hk.
  - inv_bind H; [| discriminate]. inv_io.
    injection H as <- <-. exact Hk.
  - inv_bind H; [| discriminate]. inv_io.
    inv_bind H; [| discriminate]. injection Hrun as _ <-.
    inv_bind H; [| discriminate]. inv_io.
    injection H as <- <-. reflexivity.
Qed.

Lemma get_or_create_dream_key_keeps_file w o w' k0 :
  get_or_create_dream_key E w = (o, w') ->
  key_file w = Some k0 ->
  key_file w' = Some k0.
Proof.
  unfold get_or_create_dream_key. intros H Hk.
  destruct (String.eqb (DREAM_ENCRYPTION_KEY E) "").
  - inv_bind H; [| discriminate]. inv_pure. rewrite Hk in H.
    assert (Hkeep : keeps key_file (_ ← io E; mret k0)) by frame.
    rewrite (Hkeep _ _ _ H). exact Hk.
  - injection H as _ <-. exact Hk.
Qed.

End KeyManager.

(** X1.  The key that [get_or_create_dream_key] returns is the configured
    key when there is one, and then nothing is read or written; otherwise it
    is the key of the key file, which the call creates when it is missing
    and never overwrites.  Every later call returns the same key. *)
Theorem dream_key_is_stable (E : env) (w w' : world) (k : string) :
  get_or_create_dream_key E w = (Ok k, w') ->
  (DREAM_ENCRYPTION_KEY E <> "" -> k = DREAM_ENCRYPTION_KEY E /\ w' = w)
  /\ (DREAM_ENCRYPTION_KEY E = "" -> key_file w' = Some k)
  /\ (forall k0, key_file w = Some k0 -> key_file w' = Some k0)
  /\ (forall k2 w2, get_or_create_dream_key E w' = (Ok k2, w2) -> k2 = k).
Proof.
  intros H. split; [| split; [| split]].
  - intros Hcfg. unfold get_or_create_dream_key in H.
    destruct (String.eqb_spec (DREAM_ENCRYPTION_KEY E) ""); [contradiction |].
    injection H as <- <-. auto.
  - intros Hcfg. eapply get_or_create_dream_key_file; eauto.
  - intros k0 Hk. eapply get_or_create_dream_key_keeps_file; eauto.
  - intros k2 w2 H2.
    apply get_or_create_dream_key_current in H2. subst k2.
    rewrite (get_or_create_dream_key_keeps_current E _ _ _ H).
    symmetry. eapply get_or_create_dream_key_current; eauto.
Qed.

Lemma dream_key_is_stable_witness :
  let E := Samples.quiet engine_ties_ascending in
  let w := Samples.empty_world in
  let w' := snd (get_or_create_dream_key E w) in
  get_or_create_dream_key E w = (Ok "generated-key", w')
  /\ key_file w = None
  /\ key_file w' = Some "generated-key"
  /\ fst (get_or_create_dream_key E w') = Ok "generated-key".
Proof.
  intros E w w'.
  assert (H : get_or_create_dream_key E w = (Ok "generated-key", w'))
    by (vm_compute; reflexivity).
  destruct (dream_key_is_stable E w w' "generated-key" H) as (_ & Hfile & _ & Hlater).
  split; [exact H |]. split; [reflexivity |]. split; [apply Hfile; reflexivity |].
  destruct (get_or_create_dream_key E w') as [[k2 | e] w2] eqn:H2.
  - simpl. f_equal. eapply Hlater. reflexivity.
  - vm_compute in H2. discriminate.
Defined.

(** ** Deep memory: storing *)

Lemma fold_max_ge (l : list Z) x : In x l -> (x <= fold_right Z.max 0 l)%Z.
Proof.
  induction l as [| y l IH]; simpl; [contradiction |].
  intros [-> | Hx]; [lia |]. specialize (IH Hx). lia.
Qed.

Lemma next_rowid_fresh db r : In r db -> (row_id r < next_rowid db)%Z.
Proof.
  intros Hr. unfold next_rowid.
  pose proof (fold_max_ge (map row_id db) (row_id r) (in_map row_id _ _ Hr)). lia.
Qed.

Lemma next_rowid_positive db : (0 < next_rowid db)%Z.
Proof.
  unfold next_rowid.
  assert (0 <= fold_right Z.max 0 (map row_id db))%Z; [| lia].
  induction (map row_id db); simpl; lia.
Qed.

(** X2.  [store_deep_memory] only appends: the rows already in the table
    stay as they are and in place, and the new row comes last, not yet
    dreamed, under the given category, with a positive id larger than every
    id in the table; ids that were distinct stay distinct. *)
Theorem store_deep_memory_appends (E : env) (content : json) (category : string)
    (w w' : world) :
  store_deep_memory E content category w = (Ok tt, w') ->
  exists r,
    deep_db w' = deep_db w ++ [r]
    /\ dreamed r = 0%Z /\ dream_date r = None
    /\ row_category r = category
    /\ row_timestamp r = isoformat (clock E (ticks w))
    /\ (0 < row_id r)%Z
    /\ (forall r0, In r0 (deep_db w) -> (row_id r0 < row_id r)%Z)
    /\ (NoDup (map row_id (deep_db w)) -> NoDup (map row_id (deep_db w'))).
Proof.
  intros H. apply store_deep_memory_inv in H as (c & _ & Hdb).
  eexists. split; [exact Hdb |]. simpl.
  repeat (split; [reflexivity |]).
  split; [apply next_rowid_positive |].
  split; [apply next_rowid_fresh |].
  intros Hnd. rewrite Hdb, map_app. simpl.
  apply NoDup_app. split; [assumption |]. split.
  - intros x Hx Hx'. apply list_elem_of_In in Hx, Hx'.
    destruct Hx' as [<- | []].
    apply in_map_iff in Hx as (r0 & Hid & Hr0).
    pose proof (next_rowid_fresh _ _ Hr0). lia.
  - apply NoDup_singleton.
Qed.

Lemma store_deep_memory_appends_witness :
  let E := Samples.quiet engine_ties_ascending in
  let w := Samples.one_corrupted in
  let w' := snd (store_deep_memory E (JStr "third") "feed_scan" w) in
  store_deep_memory E (JStr "third") "feed_scan" w = (Ok tt, w')
  /\ map row_id (deep_db w') = [1%Z; 2%Z; 3%Z]
  /\ exists r,
       deep_db w' = deep_db w ++ [r]
       /\ dreamed r = 0%Z /\ dream_date r = None
       /\ row_category r = "feed_scan"
       /\ row_timestamp r = isoformat (clock E (ticks w))
       /\ (0 < row_id r)%Z
       /\ (forall r0, In r0 (deep_db w) -> (row_id r0 < row_id r)%Z)
       /\ (NoDup (map row_id (deep_db w)) -> NoDup (map row_id (deep_db w'))).
Proof.
  intros E w w'.
  assert (H : store_deep_memory E (JStr "third") "feed_scan" w = (Ok tt, w'))
    by (vm_compute; reflexivity).
  split; [exact H |]. split; [vm_compute; reflexivity |].
  exact (store_deep_memory_appends E (JStr "third") "feed_scan" w w' H).
Defined.

Lemma store_deep_memory_keeps_current E content category :
  keeps (current_key E) (store_deep_memory E content category).
Proof.
  unfold store_deep_memory, _init_deep_db.
  pose proof (get_cipher_keeps_current E). frame.
Qed.

(** X3.  What is stored comes back: when the cipher of the current key
    decrypts what it encrypted and [json.loads] reads what [json.dumps] wrote
    for this content, the retrieval that follows a [store_deep_memory]
    returns a memory with the new id, the time of the call, the category
    and the content that were stored. *)
Theorem stored_memory_is_retrieved (E : env) (content : json) (category : string)
    (c : cipher) (w w1 w2 : world) (mems : list memory) :
  Fernet E (current_key E w) = Some c ->
  decrypt c (encrypt c (json_dumps E content)) = Some (json_dumps E content) ->
  json_loads E (json_dumps E content) = Some content ->
  store_deep_memory E content category w = (Ok tt, w1) ->
  retrieve_undreamed_memories E w1 = (Ok mems, w2) ->
  In (Memory (next_rowid (deep_db w)) (isoformat (clock E (ticks w))) category content)
     mems.
Proof.
  intros Hc Hdec Hjson Hstore Hret.
  pose proof (store_deep_memory_keeps_current E _ _ _ _ _ Hstore) as Hkey.
  apply store_deep_memory_inv in Hstore as (c1 & Hc1 & Hdb).
  assert (c1 = c) by congruence. subst c1.
  apply retrieve_undreamed_memories_inv in Hret as (c2 & Hc2 & ->).
  rewrite Hkey in Hc2. assert (c2 = c) by congruence. subst c2.
  apply in_map_iff. eexists. split.
  2: { apply select_undreamed_In. rewrite Hdb. split.
       - apply in_or_app. right. left. reflexivity.
       - reflexivity. }
  unfold decode_row. simpl. rewrite Hdec. simpl. rewrite Hjson. reflexivity.
Qed.

Lemma stored_memory_is_retrieved_witness :
  let E := Samples.quiet engine_ties_ascending in
  let w := Samples.one_corrupted in
  let w1 := snd (store_deep_memory E (JStr "third") "feed_scan" w) in
  let mems := match fst (retrieve_undreamed_memories E w1) with
              | Ok mems => mems
              | Raise _ => []
              end in
  Fernet E (current_key E w) = Some Samples.toy_cipher
  /\ store_deep_memory E (JStr "third") "feed_scan" w = (Ok tt, w1)
  /\ In (Memory 3 "2026-01-01T00:00:00.000100+00:00" "feed_scan" (JStr "third")) mems.
Proof.
  intros E w w1 mems.
  assert (Hc : Fernet E (current_key E w) = Some Samples.toy_cipher) by reflexivity.
  assert (Hstore : store_deep_memory E (JStr "third") "feed_scan" w = (Ok tt, w1))
    by (vm_compute; reflexivity).
  assert (Hret : retrieve_undreamed_memories E w1
                 = (Ok mems, snd (retrieve_undreamed_memories E w1)))
    by (vm_compute; reflexivity).
  split; [exact Hc |]. split; [exact Hstore |].
  exact (stored_memory_is_retrieved E (JStr "third") "feed_scan" Samples.toy_cipher
           w w1 _ mems Hc eq_refl eq_refl Hstore Hret).
Defined.

(** ** Deep memory: marking and what is listed afterwards *)

Lemma id_in_In ids r : id_in ids r = true <-> In (row_id r) ids.
Proof.
  unfold id_in. rewrite existsb_exists. split.
  - intros (x & Hx & Heq). apply Z.eqb_eq in Heq. subst x. assumption.
  - intros H. exists (row_id r). split; [assumption | apply Z.eqb_refl].
Qed.

Lemma update_dreamed_content date ids db :
  map row_content (update_dreamed date ids db) = map row_content db.
Proof.
  unfold update_dreamed. rewrite map_map. apply map_ext. intros r.
  destruct (id_in ids r); reflexivity.
Qed.

Lemma update_dreamed_unlisted date ids db :
  (forall r, In r db -> ~ In (row_id r) ids) -> update_dreamed date ids db = db.
Proof.
  intros H. unfold update_dreamed. rewrite <- (map_id db) at 2.
  apply map_ext_in. intros r Hr.
  destruct (id_in ids r) eqn:Hin; [| reflexivity].
  apply id_in_In in Hin. exfalso. eapply H; eauto.
Qed.

Lemma update_dreamed_undreamed date ids db :
  List.filter is_undreamed (update_dreamed date ids db)
  = List.filter (fun r => is_undreamed r && negb (id_in ids r)) db.
Proof.
  unfold update_dreamed. induction db as [| r db IH]; simpl; [reflexivity |].
  rewrite IH. destruct (id_in ids r); simpl.
  - rewrite andb_false_r. reflexivity.
  - rewrite andb_true_r. reflexivity.
Qed.

Lemma update_dreamed_keeps_marks date ids db :
  Forall2 (fun r r' => dreamed r <> 0%Z -> dreamed r' <> 0%Z)
          db (update_dreamed date ids db).
Proof.
  unfold update_dreamed. induction db as [| r db IH]; simpl; constructor; [| exact IH].
  destruct (id_in ids r); simpl; [lia | auto].
Qed.

(** X4.  [mark_as_dreamed] writes the flag and its date and nothing else:
    ids, timestamps, categories, blobs and hashes are the same, row by row;
    a row whose id is not listed is left as it is; no row that was marked
    loses its mark; and ids that are not in the table are passed over
    without an error, the table staying as it was. *)
Theorem mark_as_dreamed_writes_flags_only (E : env) (ids : list Z) (w w' : world) :
  mark_as_dreamed E ids w = (Ok tt, w') ->
  map row_content (deep_db w') = map row_content (deep_db w)
  /\ (forall r, In r (deep_db w) -> ~ In (row_id r) ids -> In r (deep_db w'))
  /\ Forall2 (fun r r' => dreamed r <> 0%Z -> dreamed r' <> 0%Z) (deep_db w) (deep_db w')
  /\ ((forall r, In r (deep_db w) -> ~ In (row_id r) ids) -> deep_db w' = deep_db w).
Proof.
  intros H. apply mark_as_dreamed_inv in H. rewrite H.
  split; [apply update_dreamed_content |]. split; [| split].
  - intros r Hr Hnot. unfold update_dreamed. apply in_map_iff. exists r.
    destruct (id_in ids r) eqn:Hin; [| auto].
    apply id_in_In in Hin. contradiction.
  - apply update_dreamed_keeps_marks.
  - apply update_dreamed_unlisted.
Qed.

Lemma mark_as_dreamed_writes_flags_only_witness :
  let E := Samples.quiet engine_ties_ascending in
  let w := Samples.one_corrupted in
  let w' := snd (mark_as_dreamed E [2%Z; 7%Z] w) in
  mark_as_dreamed E [2%Z; 7%Z] w = (Ok tt, w')
  /\ map dreamed (deep_db w') = [0%Z; 1%Z]
  /\ map row_content (deep_db w') = map row_content (deep_db w).
Proof.
  intros E w w'.
  assert (H : mark_as_dreamed E [2%Z; 7%Z] w = (Ok tt, w')) by (vm_compute; reflexivity).
  split; [exact H |]. split; [vm_compute; reflexivity |].
  exact (proj1 (mark_as_dreamed_writes_flags_only E [2%Z; 7%Z] w w' H)).
Defined.

(** X5.  Once [mark_as_dreamed] has marked a list of ids, none of them
    comes back from [retrieve_undreamed_memories]; what comes back is one
    memory for each row that was not dreamed before and is not in the list. *)
Theorem marked_memories_are_not_retrieved (E : env) (ids : list Z) (w w1 w2 : world)
    (mems : list memory) :
  mark_as_dreamed E ids w = (Ok tt, w1) ->
  retrieve_undreamed_memories E w1 = (Ok mems, w2) ->
  (forall m, In m mems -> ~ In (mem_id m) ids)
  /\ Permutation (map mem_id mems)
       (map row_id
          (List.filter (fun r => is_undreamed r && negb (id_in ids r)) (deep_db w))).
Proof.
  intros Hmark Hret. apply mark_as_dreamed_inv in Hmark.
  apply retrieve_undreamed_memories_inv in Hret as (c & _ & ->).
  assert (Hperm : Permutation (select_undreamed E (deep_db w1))
                    (List.filter (fun r => is_undreamed r && negb (id_in ids r))
                                 (deep_db w))).
  { rewrite <- (update_dreamed_undreamed (isoformat (clock E (ticks w)))), <- Hmark.
    apply select_undreamed_perm. }
  split.
  - intros m Hm Hin. apply in_map_iff in Hm as (r & <- & Hr).
    apply (Permutation_in _ Hperm) in Hr. apply filter_In in Hr as [_ Hr].
    apply andb_true_iff in Hr as [_ Hr]. rewrite decode_row_id in Hin.
    apply id_in_In in Hin. rewrite Hin in Hr. discriminate.
  - rewrite map_map. rewrite (map_ext _ row_id) by apply decode_row_id.
    apply Permutation_map. exact Hperm.
Qed.

Lemma marked_memories_are_not_retrieved_witness :
  let E := Samples.quiet engine_ties_ascending in
  let w := Samples.one_corrupted in
  let w1 := snd (mark_as_dreamed E [2%Z] w) in
  let mems := [Memory 1 "2026-01-01T00:00" "interaction" (JStr "hello")] in
  mark_as_dreamed E [2%Z] w = (Ok tt, w1)
  /\ fst (retrieve_undreamed_memories E w1) = Ok mems
  /\ (forall m, In m mems -> ~ In (mem_id m) [2%Z]).
Proof.
  intros E w w1 mems.
  assert (Hmark : mark_as_dreamed E [2%Z] w = (Ok tt, w1)) by (vm_compute; reflexivity).
  assert (Hret : retrieve_undreamed_memories E w1
                 = (Ok mems, snd (retrieve_undreamed_memories E w1)))
    by (vm_compute; reflexivity).
  split; [exact Hmark |]. split; [rewrite Hret; reflexivity |].
  exact (proj1 (marked_memories_are_not_retrieved E [2%Z] w w1 _ mems Hmark Hret)).
Defined.

(** ** The completed dream cycle *)

Section CompletedCycle.

Variable E : env.

Lemma incr_total_dreams_next (state : gmap string json) w :
  incr_total_dreams state w
  = match next_total state with
    | Some n => (Ok n, w)
    | None => (Raise TypeError, w)
    end.
Proof.
  unfold incr_total_dreams, next_total.
  destruct (state !! "total_dreams") as [[] |]; reflexivity.
Qed.

Lemma next_total_last_dream (state : gmap string json) v :
  next_total (<["last_dream" := v]> state) = next_total state.
Proof. unfold next_total. rewrite lookup_insert_ne by done. reflexivity. Qed.

Lemma save_dream_locally_inv d date w f w' :
  save_dream_locally E d date w = (Ok f, w') ->
  f = dream_filename d date
  /\ dreams_dir w' = <[dream_filename d date := dream_file_content d date]> (dreams_dir w).
Proof.
  unfold save_dream_locally. intros H.
  inv_bind H; [| discriminate]. inv_io.
  inv_bind H; [| discriminate]. injection Hrun as _ <-.
  injection H as <- <-. auto.
Qed.

Lemma promoting_working d w w' :
  promoting E d w = (Ok tt, w') ->
  (consolidation d = "" -> working_file w' = working_file w)
  /\ (consolidation d <> "" ->
      working_file w'
      = Some (prune WORKING_MEMORY_MAX_ENTRIES
                (working w
                 ++ [insight_entry (isoformat (clock E (ticks w))) (consolidation d)]))).
Proof.
  unfold promoting, consolidate_dream_insight. intros H.
  destruct (String.eqb_spec (consolidation d) "") as [Heq | Hne].
  - injection H as <-. split; [reflexivity | contradiction].
  - split; [contradiction |]. intros _.
    apply store_working_memory_inv in H as [Hfile _]. exact Hfile.
Qed.

Lemma load_state_not_type : raises_only not_type_error (load_state E).
Proof. unfold load_state. raises. Qed.

Lemma save_state_not_type s : raises_only not_type_error (save_state E s).
Proof. unfold save_state. raises. Qed.

(** The outcomes of the update of the agent state. *)
Lemma update_state_inv d w o w' :
  update_state E d w = (o, w') ->
  (exists n,
      o = Ok (Some d)
      /\ next_total (agent_state w) = Some n
      /\ state_file w'
         = Some (state_after_dream (agent_state w) (isoformat (clock E (ticks w))) n d))
  \/ (o = Raise TypeError
      /\ next_total (agent_state w) = None /\ state_file w' = state_file w)
  \/ (exists e, o = Raise e /\ not_type_error e /\ state_file w' = state_file w).
Proof.
  unfold update_state. intros H. inv_bind H.
  - pose proof (load_state_keeps E state_file _ _ _ Hrun) as Hs.
    apply load_state_inv in Hrun as [-> Ht].
    inv_bind H; [| discriminate]. inv_pure.
    unfold mbind at 1, M_bind at 1 in H.
    rewrite incr_total_dreams_next, next_total_last_dream in H.
    destruct (next_total (agent_state w)) as [n |] eqn:Hn.
    + inv_bind H.
      * apply save_state_inv in Hrun as [[_ Hsaved] | (e & He & _)]; [| discriminate].
        injection H as <- <-. left. exists n. rewrite Hsaved, Ht. auto.
      * pose proof (save_state_not_type _ _ _ _ H) as Hnt.
        apply save_state_inv in H as [[Hok _] | (e' & He & Hsame)]; [discriminate |].
        right. right. exists e. subst o. split; [reflexivity |]. split.
        -- exact Hnt.
        -- rewrite Hsame. exact Hs.
    + injection H as <- <-. right. left. auto.
  - right. right. exists e. split; [assumption |]. split.
    + apply (load_state_not_type _ _ _ H).
    + apply (load_state_keeps E state_file _ _ _ H).
Qed.

End CompletedCycle.

Section LateOutcomes.

Variable E : env.

Lemma raises_only_messages_create (P : exn -> Prop) system user :
  (forall msg, P (GenerationError msg)) ->
  raises_only P (messages_create E system user).
Proof.
  intros HP w e w' H. unfold messages_create in H.
  destruct (llm E (io_count w) system user); inversion H; subst. apply HP.
Qed.

Lemma collecting_not_type : raises_only not_type_error (collecting E).
Proof.
  unfold collecting, deep_memory_stats, retrieve_undreamed_memories, _init_deep_db,
    get_cipher, get_or_create_dream_key. raises.
Qed.

Lemma dreamless_night_not_type : raises_only not_type_error (dreamless_night E).
Proof. unfold dreamless_night, load_state, save_state. raises. Qed.

Lemma generate_dream_not_type mems : raises_only not_type_error (generate_dream E mems).
Proof.
  unfold generate_dream. apply raises_only_bind.
  - apply raises_only_messages_create. intros; exact I.
  - intros text. raises.
Qed.

Lemma save_dream_locally_not_type d date :
  raises_only not_type_error (save_dream_locally E d date).
Proof. unfold save_dream_locally. raises. Qed.

Lemma promoting_not_type d : raises_only not_type_error (promoting E d).
Proof.
  unfold promoting, consolidate_dream_insight, store_working_memory,
    _load_working_memory, _save_working_memory. raises.
Qed.

Lemma mark_as_dreamed_not_type ids : raises_only not_type_error (mark_as_dreamed E ids).
Proof. unfold mark_as_dreamed, _init_deep_db. raises. Qed.

Lemma late_raise e : late (Raise e) -> not_type_error e -> False.
Proof. intros [[d Hd] | He] Hnt; [discriminate |]. injection He as ->. exact Hnt. Qed.

Lemma update_state_late d w o w' :
  update_state E d w = (o, w') -> late o -> state_outcome w w' o d.
Proof.
  intros H Hlate.
  apply update_state_inv in H as [(n & -> & Hn & Hs) | [(-> & Hn & Hs) | (e & -> & Hnt & _)]].
  - left. split; [reflexivity |]. eauto.
  - right. auto.
  - destruct (late_raise _ Hlate Hnt).
Qed.

Lemma marking_done_late mems d w o w' :
  marking_done E mems d w = (o, w') -> late o ->
  deep_db w'
  = update_dreamed (isoformat (clock E (ticks w))) (map mem_id mems) (deep_db w)
  /\ state_outcome w w' o d.
Proof.
  unfold marking_done. intros H Hlate. inv_bind H.
  - destruct a.
    pose proof (mark_as_dreamed_keeps E state_file _ _ _ _ Hrun) as Hs.
    pose proof (update_state_keeps E deep_db _ _ _ _ H) as Hd.
    apply mark_as_dreamed_inv in Hrun.
    apply update_state_late in H; [| assumption].
    split; [congruence |].
    unfold state_outcome, agent_state in *. rewrite Hs in H. exact H.
  - subst o. apply mark_as_dreamed_not_type in H. destruct (late_raise _ Hlate H).
Qed.

Lemma persisting_late mems d w o w' :
  persisting E mems d w = (o, w') -> late o ->
  (exists t, deep_db w' = update_dreamed t (map mem_id mems) (deep_db w))
  /\ (exists date,
         dreams_dir w'
         = <[dream_filename d date := dream_file_content d date]> (dreams_dir w))
  /\ (consolidation d = "" -> working_file w' = working_file w)
  /\ (consolidation d <> "" ->
      exists t,
        working_file w'
        = Some (prune WORKING_MEMORY_MAX_ENTRIES
                  (working w ++ [insight_entry t (consolidation d)])))
  /\ state_outcome w w' o d.
Proof.
  unfold persisting. intros H Hlate.
  inv_bind H; [| discriminate]. inv_pure.
  inv_bind H.
  2: { subst o. apply save_dream_locally_not_type in H. destruct (late_raise _ Hlate H). }
  inv_bind H.
  2: { subst o. apply promoting_not_type in H. destruct (late_raise _ Hlate H). }
  destruct a0.
  pose proof (save_dream_locally_keeps E deep_db _ _ _ _ _ Hrun) as Hd1.
  pose proof (save_dream_locally_keeps E working_file _ _ _ _ _ Hrun) as Hw1.
  pose proof (save_dream_locally_keeps E state_file _ _ _ _ _ Hrun) as Hs1.
  apply save_dream_locally_inv in Hrun as [_ Hdr1].
  pose proof (promoting_keeps E deep_db _ _ _ _ Hrun0) as Hd2.
  pose proof (promoting_keeps E dreams_dir _ _ _ _ Hrun0) as Hdr2.
  pose proof (promoting_keeps E state_file _ _ _ _ Hrun0) as Hs2.
  apply promoting_working in Hrun0 as [Hwe Hwn].
  pose proof (marking_done_keeps E working_file _ _ _ _ _ H) as Hw3.
  pose proof (marking_done_keeps E dreams_dir _ _ _ _ _ H) as Hdr3.
  apply marking_done_late in H as [Hd3 Hst]; [| assumption].
  change (deep_db (set_ticks (S (ticks w)) w)) with (deep_db w) in Hd1.
  change (working_file (set_ticks (S (ticks w)) w)) with (working_file w) in Hw1.
  change (state_file (set_ticks (S (ticks w)) w)) with (state_file w) in Hs1.
  change (dreams_dir (set_ticks (S (ticks w)) w)) with (dreams_dir w) in Hdr1.
  split; [eexists; rewrite Hd3, Hd2, Hd1; reflexivity |].
  split; [eexists; rewrite Hdr3, Hdr2, Hdr1; reflexivity |].
  split; [intros He; rewrite Hw3, (Hwe He); exact Hw1 |].
  split.
  - intros Hne. eexists. rewrite Hw3, (Hwn Hne). unfold working. rewrite Hw1.
    reflexivity.
  - unfold state_outcome, agent_state in *. rewrite Hs2, Hs1 in Hst. exact Hst.
Qed.

Lemma after_collecting_late mems w o w' :
  after_collecting E mems w = (o, w') -> late o ->
  exists d,
    (exists t, deep_db w' = update_dreamed t (map mem_id mems) (deep_db w))
    /\ (exists date,
           dreams_dir w'
           = <[dream_filename d date := dream_file_content d date]> (dreams_dir w))
    /\ (consolidation d = "" -> working_file w' = working_file w)
    /\ (consolidation d <> "" ->
        exists t,
          working_file w'
          = Some (prune WORKING_MEMORY_MAX_ENTRIES
                    (working w ++ [insight_entry t (consolidation d)])))
    /\ state_outcome w w' o d.
Proof.
  unfold after_collecting. intros H Hlate. destruct (is_empty_list mems).
  - exfalso. destruct o as [r | e].
    + apply dreamless_night_inv in H as [[Hr _] | (e & He & _)]; [| discriminate].
      injection Hr as ->. destruct Hlate as [[d Hd] | Hd]; discriminate.
    + apply dreamless_night_not_type in H. exact (late_raise _ Hlate H).
  - inv_bind H.
    2: { subst o. apply generate_dream_not_type in H. destruct (late_raise _ Hlate H). }
    pose proof (generate_dream_keeps E deep_db _ _ _ _ Hrun) as Hd.
    pose proof (generate_dream_keeps E dreams_dir _ _ _ _ Hrun) as Hdr.
    pose proof (generate_dream_keeps E working_file _ _ _ _ Hrun) as Hw.
    pose proof (generate_dream_keeps E state_file _ _ _ _ Hrun) as Hs.
    apply persisting_late in H; [| assumption].
    exists a. unfold state_outcome, agent_state, working in *.
    rewrite Hd, Hdr, Hw, Hs in H. exact H.
Qed.

Lemma run_dream_cycle_late w o w' :
  run_dream_cycle E w = (o, w') -> late o ->
  exists d, dream_committed E w w' d /\ state_outcome w w' o d.
Proof.
  intros H Hlate. rewrite run_dream_cycle_unfold in H. inv_bind H.
  2: { subst o. apply collecting_not_type in H. destruct (late_raise _ Hlate H). }
  destruct (collecting_same_stores E _ _ _ Hrun) as [(Hd & Hw & Hs & Hdr) _].
  apply collecting_inv in Hrun as (_ & c & _ & ->).
  apply after_collecting_late in H as (d & Hmark & Hfile & Hwe & Hwn & Hst);
    [| assumption].
  exists d. unfold dream_committed, state_outcome, agent_state, working in *.
  rewrite Hd, Hw, Hs, Hdr in *.
  rewrite map_map, (map_ext _ row_id) in Hmark by apply decode_row_id.
  auto.
Qed.

End LateOutcomes.

Lemma after_collecting_keeps_current E mems :
  keeps (current_key E) (after_collecting E mems).
Proof.
  unfold after_collecting. destruct (is_empty_list mems).
  - apply dreamless_night_keeps; apply _.
  - apply keeps_bind.
    + apply generate_dream_keeps; apply _.
    + intros d. apply persisting_keeps; apply _.
Qed.

Lemma run_dream_cycle_keeps_current E : keeps (current_key E) (run_dream_cycle E).
Proof.
  intros w o w' H. rewrite run_dream_cycle_unfold in H. revert w o w' H.
  apply keeps_bind.
  - apply collecting_keeps_current.
  - apply after_collecting_keeps_current.
Qed.

(** ** The steps of a cycle, in their order and with their times *)

Section CycleTrace.

Variable E : env.

Lemma promoting_ticks d w w' :
  promoting E d w = (Ok tt, w') -> ticks w' = ticks w + insight_readings d.
Proof.
  unfold promoting, consolidate_dream_insight, insight_readings. intros H.
  destruct (String.eqb (consolidation d) "").
  - injection H as <-. lia.
  - apply store_working_memory_inv in H as [_ ->]. lia.
Qed.

Lemma mark_as_dreamed_ticks ids w w' :
  ids <> [] -> mark_as_dreamed E ids w = (Ok tt, w') -> ticks w' = S (ticks w).
Proof.
  intros Hids H.
  assert (Hk : keeps ticks (_ ← _init_deep_db E; io E)).
  { unfold _init_deep_db. frame. }
  unfold mark_as_dreamed in H. destruct ids as [| i ids]; [contradiction |].
  rewrite <- bind_assoc in H.
  apply bind_inv in H as [([] & w1 & Hio & H) | (e & _ & ?)]; [| discriminate].
  apply Hk in Hio. injection H as <-. simpl. rewrite Hio. reflexivity.
Qed.

(** After the dream has been generated: either the cycle has raised with
    deep memory untouched, or it has archived the dream, then promoted its
    insight, then marked the memories, and ends as the update of the state
    ends. *)
Lemma persisting_steps mems d w o w' :
  persisting E mems d w = (o, w') ->
  (exists f w2 w3 w4,
      save_dream_locally E d (ymd (clock E (ticks w))) (set_ticks (S (ticks w)) w)
      = (Ok f, w2)
      /\ promoting E d w2 = (Ok tt, w3)
      /\ mark_as_dreamed E (map mem_id mems) w3 = (Ok tt, w4)
      /\ update_state E d w4 = (o, w'))
  \/ (deep_db w' = deep_db w /\ exists e, o = Raise e).
Proof.
  unfold persisting, marking_done. intros H.
  apply bind_inv in H as [(t & w1 & Hnow & H) | (e & Hnow & _)]; [| discriminate].
  injection Hnow as <- <-.
  apply bind_inv in H as [(f & w2 & Hsave & H) | (e & H & ->)].
  2: { right. split; [| eauto].
       apply (save_dream_locally_keeps E deep_db _ _ _ _ _ H). }
  pose proof (save_dream_locally_keeps E deep_db _ _ _ _ _ Hsave) as Hd2.
  change (deep_db (set_ticks (S (ticks w)) w)) with (deep_db w) in Hd2.
  apply bind_inv in H as [([] & w3 & Hprom & H) | (e & H & ->)].
  2: { right. split; [| eauto].
       rewrite (promoting_keeps E deep_db _ _ _ _ H). exact Hd2. }
  pose proof (promoting_keeps E deep_db _ _ _ _ Hprom) as Hd3.
  apply bind_inv in H as [([] & w4 & Hmark & H) | (e & H & ->)].
  2: { right. split; [| eauto].
       rewrite (mark_as_dreamed_raise E _ _ _ _ H). congruence. }
  left. exists f, w2, w3, w4. auto.
Qed.

(** A cycle either leaves deep memory as it was, or has collected the
    memories, generated the dream, archived it and promoted its insight
    before it calls [mark_as_dreamed]: [w4] is the world in which the
    marking starts. *)
Lemma run_dream_cycle_steps w o w' :
  run_dream_cycle E w = (o, w') ->
  (deep_db w' = deep_db w /\ (o = Ok None \/ exists e, o = Raise e))
  \/ exists mems w1 d w2 w4 w5,
       collecting E w = (Ok mems, w1)
       /\ mems <> []
       /\ generate_dream E mems w1 = (Ok d, w2)
       /\ ticks w4 = S (S (ticks w)) + insight_readings d
       /\ deep_db w4 = deep_db w
       /\ state_file w4 = state_file w
       /\ dreams_dir w4
          = <[dream_filename d (ymd (clock E (S (ticks w))))
              := dream_file_content d (ymd (clock E (S (ticks w))))]> (dreams_dir w)
       /\ (consolidation d = "" -> working_file w4 = working_file w)
       /\ (consolidation d <> "" ->
           working_file w4
           = Some (prune WORKING_MEMORY_MAX_ENTRIES
                     (working w
                      ++ [insight_entry (isoformat (clock E (S (S (ticks w)))))
                                        (consolidation d)])))
       /\ mark_as_dreamed E (map mem_id mems) w4 = (Ok tt, w5)
       /\ update_state E d w5 = (o, w').
Proof.
  intros H. rewrite run_dream_cycle_unfold in H.
  apply bind_inv in H as [(mems & w1 & Hcol & H) | (e & H & ->)].
  2: { left. split; [| eauto]. apply (collecting_keeps E deep_db _ _ _ H). }
  destruct (collecting_same_stores E _ _ _ Hcol) as [(Hd1 & Hw1 & Hs1 & Hdr1) _].
  pose proof (collecting_inv E _ _ _ Hcol) as (Ht1 & _).
  unfold after_collecting in H. destruct (is_empty_list mems) eqn:Hempty.
  { left. split.
    - rewrite <- Hd1. apply (dreamless_night_keeps E deep_db _ _ _ H).
    - apply dreamless_night_inv in H as [[-> _] | (e & -> & _)]; eauto. }
  apply bind_inv in H as [(d & w2 & Hgen & H) | (e & H & ->)].
  2: { left. split; [| eauto].
       rewrite (generate_dream_keeps E deep_db _ _ _ _ H). exact Hd1. }
  pose proof (generate_dream_keeps E deep_db _ _ _ _ Hgen) as Hd2.
  pose proof (generate_dream_keeps E working_file _ _ _ _ Hgen) as Hw2.
  pose proof (generate_dream_keeps E state_file _ _ _ _ Hgen) as Hs2.
  pose proof (generate_dream_keeps E dreams_dir _ _ _ _ Hgen) as Hdr2.
  pose proof (generate_dream_keeps E ticks _ _ _ _ Hgen) as Ht2.
  apply persisting_steps in H
    as [(f & w3 & w4 & w5 & Hsave & Hprom & Hmark & Hupd) | [Hsame Hraise]].
  2: { left. split; [congruence | auto]. }
  right. exists mems, w1, d, w2, w4, w5.
  pose proof (save_dream_locally_keeps E deep_db _ _ _ _ _ Hsave) as Hd3.
  pose proof (save_dream_locally_keeps E working_file _ _ _ _ _ Hsave) as Hw3.
  pose proof (save_dream_locally_keeps E state_file _ _ _ _ _ Hsave) as Hs3.
  pose proof (save_dream_locally_keeps E ticks _ _ _ _ _ Hsave) as Ht3.
  apply save_dream_locally_inv in Hsave as [_ Hdr3].
  change (deep_db (set_ticks (S (ticks w2)) w2)) with (deep_db w2) in Hd3.
  change (working_file (set_ticks (S (ticks w2)) w2)) with (working_file w2) in Hw3.
  change (state_file (set_ticks (S (ticks w2)) w2)) with (state_file w2) in Hs3.
  change (dreams_dir (set_ticks (S (ticks w2)) w2)) with (dreams_dir w2) in Hdr3.
  change (ticks (set_ticks (S (ticks w2)) w2)) with (S (ticks w2)) in Ht3.
  pose proof (promoting_keeps E deep_db _ _ _ _ Hprom) as Hd4.
  pose proof (promoting_keeps E state_file _ _ _ _ Hprom) as Hs4.
  pose proof (promoting_keeps E dreams_dir _ _ _ _ Hprom) as Hdr4.
  pose proof (promoting_ticks _ _ _ Hprom) as Ht4.
  apply promoting_working in Hprom as [Hwe Hwn].
  assert (Hticks3 : ticks w3 = S (S (ticks w))) by congruence.
  split; [exact Hcol |].
  split; [intros ->; discriminate |].
  split; [exact Hgen |].
  split; [rewrite Ht4, Hticks3; reflexivity |].
  split; [congruence |].
  split; [congruence |].
  split; [rewrite Hdr4, Hdr3, Hdr2, Hdr1, Ht2, Ht1; reflexivity |].
  split; [intros He; rewrite (Hwe He); congruence |].
  split; [| split; [exact Hmark | exact Hupd]].
  intros Hne. rewrite (Hwn Hne), Hticks3. unfold working.
  rewrite Hw3, Hw2, Hw1. reflexivity.
Qed.

(** What a completed cycle has written, with the reading of the clock
    that each writing carries: the second for the name of the dream file,
    the third for the insight, the last for the agent state. *)
Lemma completed_cycle_exact w d w' :
  run_dream_cycle E w = (Ok (Some d), w') ->
  let date := ymd (clock E (S (ticks w))) in
  dreams_dir w' = <[dream_filename d date := dream_file_content d date]> (dreams_dir w)
  /\ (consolidation d = "" -> working_file w' = working_file w)
  /\ (consolidation d <> "" ->
      working_file w'
      = Some (prune WORKING_MEMORY_MAX_ENTRIES
                (working w
                 ++ [insight_entry (isoformat (clock E (S (S (ticks w)))))
                                   (consolidation d)])))
  /\ exists n,
       next_total (agent_state w) = Some n
       /\ state_file w'
          = Some (state_after_dream (agent_state w)
                    (isoformat (clock E (3 + ticks w + insight_readings d))) n d).
Proof.
  intros H date.
  apply run_dream_cycle_steps in H
    as [[_ [Ho | [e Ho]]]
       | (mems & w1 & d' & w2 & w4 & w5 & _ & Hmems & _ & Ht4 & _ & Hs4 & Hdr4
          & Hwe & Hwn & Hmark & Hupd)];
    try discriminate.
  pose proof (mark_as_dreamed_keeps E working_file _ _ _ _ Hmark) as Hw5.
  pose proof (mark_as_dreamed_keeps E state_file _ _ _ _ Hmark) as Hs5.
  pose proof (mark_as_dreamed_keeps E dreams_dir _ _ _ _ Hmark) as Hdr5.
  assert (Hids : map mem_id mems <> []).
  { intros Hnil. apply map_eq_nil in Hnil. contradiction. }
  pose proof (mark_as_dreamed_ticks _ _ _ Hids Hmark) as Ht5.
  pose proof (update_state_keeps E working_file _ _ _ _ Hupd) as Hw6.
  pose proof (update_state_keeps E dreams_dir _ _ _ _ Hupd) as Hdr6.
  apply update_state_inv in Hupd
    as [(n & Hd & Hn & Hs) | [(Ho & _) | (e & Ho & _)]]; try discriminate.
  injection Hd as <-.
  split; [unfold date; congruence |].
  split; [intros He; rewrite Hw6, Hw5; apply (Hwe He) |].
  split; [intros Hne; rewrite Hw6, Hw5; apply (Hwn Hne) |].
  exists n. unfold agent_state in *. rewrite Hs5, Hs4 in Hn, Hs.
  split; [exact Hn |]. rewrite Hs. do 4 f_equal. lia.
Qed.

End CycleTrace.

(** C8.  Promotion comes before marking.  A cycle that has changed deep
    memory at all, however it ends, has collected the memories and
    generated its dream, and it reached [mark_as_dreamed] in a world [w4]
    where no row was marked yet and the working-memory file already held the
    insight of that dream as its newest entry (the file was untouched if
    the dream has no consolidation).  What the cycle does afterwards leaves
    that file alone, so at the end the rows are marked and the insight is
    in working memory; a promotion that fails leaves deep memory as it
    was. *)
Theorem promotion_precedes_marking (E : env) (w w' : world)
    (o : outcome (option dream)) :
  run_dream_cycle E w = (o, w') ->
  deep_db w' <> deep_db w ->
  exists mems w1 d w2 w4 w5,
    collecting E w = (Ok mems, w1)
    /\ generate_dream E mems w1 = (Ok d, w2)
    /\ deep_db w4 = deep_db w
    /\ (consolidation d = "" -> working_file w4 = working_file w)
    /\ (consolidation d <> "" ->
        working_file w4
        = Some (prune WORKING_MEMORY_MAX_ENTRIES
                  (working w
                   ++ [insight_entry (isoformat (clock E (S (S (ticks w)))))
                                     (consolidation d)])))
    /\ mark_as_dreamed E (map mem_id mems) w4 = (Ok tt, w5)
    /\ deep_db w'
       = update_dreamed (isoformat (clock E (S (S (ticks w)) + insight_readings d)))
                        (map row_id (select_undreamed E (deep_db w))) (deep_db w)
    /\ working_file w' = working_file w4
    /\ (consolidation d <> "" ->
        last (working w')
        = Some (insight_entry (isoformat (clock E (S (S (ticks w)))))
                              (consolidation d)))
    /\ (forall r, o = Ok r -> r = Some d).
Proof.
  intros H Hchanged.
  apply run_dream_cycle_steps in H
    as [[Hsame _]
       | (mems & w1 & d & w2 & w4 & w5 & Hcol & _ & Hgen & Ht4 & Hd4 & _ & _
          & Hwe & Hwn & Hmark & Hupd)]; [contradiction |].
  exists mems, w1, d, w2, w4, w5.
  pose proof (mark_as_dreamed_keeps E working_file _ _ _ _ Hmark) as Hw5.
  pose proof (update_state_keeps E working_file _ _ _ _ Hupd) as Hw6.
  pose proof (update_state_keeps E deep_db _ _ _ _ Hupd) as Hd6.
  assert (Hfile : working_file w' = working_file w4) by congruence.
  split; [exact Hcol |]. split; [exact Hgen |]. split; [exact Hd4 |].
  split; [exact Hwe |]. split; [exact Hwn |]. split; [exact Hmark |].
  split; [| split; [exact Hfile | split]].
  - rewrite Hd6, (mark_as_dreamed_inv E _ _ _ Hmark), Hd4, Ht4.
    apply collecting_inv in Hcol as (_ & c & _ & ->).
    rewrite map_map, (map_ext _ row_id) by apply decode_row_id. reflexivity.
  - intros Hne. unfold working at 1. rewrite Hfile, (Hwn Hne). cbn [default].
    rewrite prune_most_recent by apply max_entries_positive.
    apply most_recent_last, max_entries_positive.
  - intros r ->. eapply update_state_result; eauto.
Qed.

Lemma promotion_precedes_marking_witness :
  let E := Samples.quiet engine_ties_ascending in
  let w := Samples.one_corrupted in
  let o := fst (run_dream_cycle E w) in
  let w' := snd (run_dream_cycle E w) in
  let d := Dream "Title" (mk_lines ["Line one"; "Line two"]) "insight text" in
  let t := "2026-01-01T00:00:00.000102+00:00" in
  run_dream_cycle E w = (o, w')
  /\ deep_db w' <> deep_db w
  /\ o = Ok (Some d)
  /\ last (working w') = Some (insight_entry t "insight text")
  /\ exists mems w1 d w2 w4 w5,
       collecting E w = (Ok mems, w1)
       /\ generate_dream E mems w1 = (Ok d, w2)
       /\ deep_db w4 = deep_db w
       /\ (consolidation d = "" -> working_file w4 = working_file w)
       /\ (consolidation d <> "" ->
           working_file w4
           = Some (prune WORKING_MEMORY_MAX_ENTRIES
                     (working w
                      ++ [insight_entry (isoformat (clock E (S (S (ticks w)))))
                                        (consolidation d)])))
       /\ mark_as_dreamed E (map mem_id mems) w4 = (Ok tt, w5)
       /\ deep_db w'
          = update_dreamed
              (isoformat (clock E (S (S (ticks w)) + insight_readings d)))
              (map row_id (select_undreamed E (deep_db w))) (deep_db w)
       /\ working_file w' = working_file w4
       /\ (consolidation d <> "" ->
           last (working w')
           = Some (insight_entry (isoformat (clock E (S (S (ticks w)))))
                                 (consolidation d)))
       /\ (forall r, o = Ok r -> r = Some d).
Proof.
  intros E w o w' d t.
  assert (Hrun : run_dream_cycle E w = (o, w')) by apply surjective_pairing.
  assert (Hchanged : deep_db w' <> deep_db w) by (vm_compute; discriminate).
  split; [exact Hrun |]. split; [exact Hchanged |].
  split; [vm_compute; reflexivity |]. split; [vm_compute; reflexivity |].
  exact (promotion_precedes_marking E w w' o Hrun Hchanged).
Defined.

Lemma update_dreamed_all_selected E t db :
  List.filter is_undreamed
    (update_dreamed t (map row_id (select_undreamed E db)) db) = [].
Proof.
  rewrite update_dreamed_undreamed.
  destruct (List.filter _ db) as [| r l] eqn:Hf; [reflexivity |].
  assert (Hr : In r (r :: l)) by (left; reflexivity).
  rewrite <- Hf in Hr. apply filter_In in Hr as [Hr Hb].
  apply andb_true_iff in Hb as [Hu Hn].
  assert (Hin : id_in (map row_id (select_undreamed E db)) r = true).
  { apply id_in_In, in_map, select_undreamed_In. split; [assumption |].
    unfold is_undreamed in Hu. lia. }
  rewrite Hin in Hn. discriminate.
Qed.

(** X6.  A completed dream cycle leaves no row of deep memory undreamed:
    every row that was waiting, readable or not, is marked.  A cycle run
    again right after it, when nothing fails, is the night without memories
    and returns [None]. *)
Theorem completed_cycle_consumes_all (E : env) (w w' : world) (d : dream) :
  run_dream_cycle E w = (Ok (Some d), w') ->
  List.filter is_undreamed (deep_db w') = []
  /\ (no_faults E -> exists w'', run_dream_cycle E w' = (Ok None, w'')).
Proof.
  intros H.
  pose proof (run_dream_cycle_keeps_current E _ _ _ H) as Hkey.
  assert (Hnone : List.filter is_undreamed (deep_db w') = []).
  { apply run_dream_cycle_late in H as (d' & ((t & Hmark) & _) & _); [| left; eauto].
    rewrite Hmark. apply update_dreamed_all_selected. }
  split; [exact Hnone |]. intros Hnf.
  apply run_dream_cycle_inv in H
    as [[_ [Ho | [e Ho]]] | (c & _ & Hc & _)]; try discriminate.
  rewrite <- Hkey in Hc.
  destruct (collecting_ok E w' c Hnf Hc) as [w1 H1].
  rewrite (select_undreamed_nil E _ Hnone) in H1.
  destruct (dreamless_night_ok E w1 Hnf) as [w2 H2].
  exists w2. rewrite run_dream_cycle_unfold, (bind_ok _ _ _ _ _ H1). exact H2.
Qed.

Lemma completed_cycle_consumes_all_witness :
  let E := Samples.quiet engine_ties_ascending in
  let w := Samples.one_corrupted in
  let d := Dream "Title" (mk_lines ["Line one"; "Line two"]) "insight text" in
  let w' := snd (run_dream_cycle E w) in
  run_dream_cycle E w = (Ok (Some d), w')
  /\ List.filter is_undreamed (deep_db w') = []
  /\ exists w'', run_dream_cycle E w' = (Ok None, w'').
Proof.
  intros E w d w'.
  assert (H : run_dream_cycle E w = (Ok (Some d), w')) by (vm_compute; reflexivity).
  destruct (completed_cycle_consumes_all E w w' d H) as [Hnone Hnext].
  split; [exact H |]. split; [exact Hnone |].
  apply Hnext. intros n. reflexivity.
Defined.

(** X7.  A completed dream cycle saves an agent state in which
    ["total_dreams"] is one more than before (one when the key was missing;
    [True] and [False] count as 1 and 0), ["latest_dream_title"] is the
    title of the dream and ["last_dream"] is the last reading of the clock
    that the cycle makes: the fourth after the one the cycle starts with,
    or the fifth when the promotion of an insight has read the clock too.
    Every other key keeps its value. *)
Theorem completed_cycle_updates_state (E : env) (w w' : world) (d : dream) :
  run_dream_cycle E w = (Ok (Some d), w') ->
  let t := isoformat (clock E (3 + ticks w + insight_readings d)) in
  exists n,
    next_total (agent_state w) = Some n
    /\ state_file w' = Some (state_after_dream (agent_state w) t n d)
    /\ agent_state w' !! "total_dreams" = Some n
    /\ agent_state w' !! "latest_dream_title" = Some (JStr (title d))
    /\ agent_state w' !! "last_dream" = Some (JStr t)
    /\ forall k, k <> "total_dreams" -> k <> "latest_dream_title" -> k <> "last_dream" ->
         agent_state w' !! k = agent_state w !! k.
Proof.
  intros H t.
  apply completed_cycle_exact in H as (_ & _ & _ & n & Hn & Hs).
  exists n. split; [exact Hn |]. split; [exact Hs |].
  unfold agent_state at 1 2 3 4. rewrite Hs. simpl. unfold state_after_dream.
  split; [rewrite lookup_insert_ne by done; apply lookup_insert_eq |].
  split; [apply lookup_insert_eq |].
  split; [rewrite !lookup_insert_ne by done; apply lookup_insert_eq |].
  intros k H1 H2 H3. rewrite !lookup_insert_ne by congruence. reflexivity.
Qed.

Lemma completed_cycle_updates_state_witness :
  let E := Samples.quiet engine_ties_ascending in
  let w := set_state_file (Some {["total_dreams" := JInt 3]}) Samples.one_corrupted in
  let d := Dream "Title" (mk_lines ["Line one"; "Line two"]) "insight text" in
  let w' := snd (run_dream_cycle E w) in
  run_dream_cycle E w = (Ok (Some d), w')
  /\ agent_state w' !! "total_dreams" = Some (JInt 4)
  /\ agent_state w' !! "latest_dream_title" = Some (JStr "Title")
  /\ agent_state w' !! "last_dream" = Some (JStr "2026-01-01T00:00:00.000104+00:00").
Proof.
  intros E w d w'.
  assert (H : run_dream_cycle E w = (Ok (Some d), w')) by (vm_compute; reflexivity).
  destruct (completed_cycle_updates_state E w w' d H) as (n & Hn & _ & Ht & Hl & Hlast & _).
  split; [exact H |]. split; [| split; [exact Hl | exact Hlast]].
  rewrite Ht. f_equal. vm_compute in Hn. congruence.
Defined.



(** X9.  A completed dream cycle writes one dream file, named after the
    title and the date of the second reading of the clock (the first is
    only printed), and leaves the other files of the directory alone; in
    working memory it appends the insight entry, stamped with the third
    reading, and prunes, when the dream has a consolidation, and changes
    nothing when it has none. *)
Theorem completed_cycle_writes (E : env) (w w' : world) (d : dream) :
  run_dream_cycle E w = (Ok (Some d), w') ->
  let date := ymd (clock E (S (ticks w))) in
  dreams_dir w' !! dream_filename d date = Some (dream_file_content d date)
  /\ (forall f, f <> dream_filename d date -> dreams_dir w' !! f = dreams_dir w !! f)
  /\ (consolidation d = "" -> working_file w' = working_file w)
  /\ (consolidation d <> "" ->
      working_file w'
      = Some (prune WORKING_MEMORY_MAX_ENTRIES
                (working w
                 ++ [insight_entry (isoformat (clock E (S (S (ticks w)))))
                                   (consolidation d)]))).
Proof.
  intros H date.
  apply completed_cycle_exact in H as (Hdir & Hwe & Hwn & _).
  fold date in Hdir. rewrite Hdir.
  split; [apply lookup_insert_eq |].
  split; [intros f Hf; apply lookup_insert_ne; congruence |].
  split; assumption.
Qed.

Lemma completed_cycle_writes_witness :
  let E := Samples.quiet engine_ties_ascending in
  let w := Samples.one_corrupted in
  let d := Dream "Title" (mk_lines ["Line one"; "Line two"]) "insight text" in
  let w' := snd (run_dream_cycle E w) in
  run_dream_cycle E w = (Ok (Some d), w')
  /\ dreams_dir w' !! "2026-01-01_Title.md" = Some (dream_file_content d "2026-01-01")
  /\ (forall f, f <> "2026-01-01_Title.md" -> dreams_dir w' !! f = dreams_dir w !! f)
  /\ working_file w'
     = Some [insight_entry "2026-01-01T00:00:00.000102+00:00" "insight text"].
Proof.
  intros E w d w'.
  assert (H : run_dream_cycle E w = (Ok (Some d), w')) by (vm_compute; reflexivity).
  destruct (completed_cycle_writes E w w' d H) as (Hfile & Hothers & _ & Hinsight).
  split; [exact H |]. split; [exact Hfile |]. split; [exact Hothers |].
  apply Hinsight. discriminate.
Defined.

(** ** Statistics of deep memory *)

Lemma count_categories_lookup db c :
  default 0 (count_categories db !! c)
  = List.length (List.filter (fun r => String.eqb (row_category r) c) db).
Proof.
  induction db as [| r db IH]; simpl; [reflexivity |].
  destruct (String.eqb_spec (row_category r) c) as [-> | Hne]; simpl.
  - rewrite lookup_insert_eq. simpl. rewrite IH. reflexivity.
  - rewrite lookup_insert_ne by assumption. exact IH.
Qed.

Lemma count_categories_None db c :
  count_categories db !! c = None <-> forall r, In r db -> row_category r <> c.
Proof.
  induction db as [| r db IH]; simpl.
  - split; [intros _ r [] | reflexivity].
  - destruct (decide (row_category r = c)) as [Heq | Hne].
    + rewrite Heq, lookup_insert_eq. split; [discriminate |].
      intros H. exfalso. apply (H r); [left; reflexivity | exact Heq].
    + rewrite lookup_insert_ne by assumption. rewrite IH. split.
      * intros H r' [<- | Hr']; auto.
      * intros H r' Hr'. apply H. auto.
Qed.

(** X10.  [deep_memory_stats] counts without reading any content: the
    total is the number of rows, [undreamed] and [dreamed] add up to it, the
    dictionary of categories has, for each category that occurs, the number
    of its rows, and no entry for a category that does not occur; and
    [undreamed] is the number of memories that a retrieval made next
    returns. *)
Theorem deep_memory_stats_counts (E : env) (w w' : world) (st : stats) :
  deep_memory_stats E w = (Ok st, w') ->
  total_memories st = List.length (deep_db w)
  /\ undreamed st + dreamed_count st = total_memories st
  /\ (forall c, default 0 (categories st !! c)
                = List.length
                    (List.filter (fun r => String.eqb (row_category r) c) (deep_db w)))
  /\ (forall c, categories st !! c = None
                <-> forall r, In r (deep_db w) -> row_category r <> c)
  /\ (forall mems w2,
         retrieve_undreamed_memories E w' = (Ok mems, w2) ->
         List.length mems = undreamed st).
Proof.
  intros H.
  pose proof (deep_memory_stats_keeps E deep_db _ _ _ H) as Hdb.
  unfold deep_memory_stats, _init_deep_db in H.
  inv_bind H; [| discriminate]. inv_bind H; [| discriminate]. inv_io.
  inv_bind H; [| discriminate]. inv_pure. injection H as <- _. simpl.
  split; [reflexivity |]. split.
  - pose proof (filter_length_le is_undreamed (deep_db w)). lia.
  - split; [apply count_categories_lookup |].
    split; [apply count_categories_None |].
    intros mems w2 Hret.
    apply retrieve_undreamed_memories_inv in Hret as (c & _ & ->).
    rewrite length_map, Hdb.
    apply Permutation_length, select_undreamed_perm.
Qed.

Lemma deep_memory_stats_counts_witness :
  let E := Samples.quiet engine_ties_ascending in
  let w := Samples.three_stored in
  let st := Stats 3 3 0 (count_categories (deep_db w)) in
  let w' := snd (deep_memory_stats E w) in
  deep_memory_stats E w = (Ok st, w')
  /\ categories st !! "interaction" = Some 2
  /\ categories st !! "feed_scan" = Some 1
  /\ total_memories st = List.length (deep_db w)
  /\ undreamed st + dreamed_count st = total_memories st.
Proof.
  intros E w st w'.
  assert (H : deep_memory_stats E w = (Ok st, w')) by (vm_compute; reflexivity).
  destruct (deep_memory_stats_counts E w w' st H) as (Ht & Hsum & _).
  split; [exact H |]. split; [vm_compute; reflexivity |].
  split; [vm_compute; reflexivity |]. split; assumption.
Defined.

(** ** Reading working memory *)

Lemma of_category_sublist category l : sublist (of_category category l) l.
Proof.
  unfold of_category. destruct category as [c |]; [| reflexivity].
  destruct (String.eqb c ""); [reflexivity |].
  induction l as [| m l IH]; simpl; [constructor |].
  destruct (String.eqb (wm_category m) c); constructor; assumption.
Qed.

Lemma slice_from_last {A} (n : Z) (l : list A) :
  (0 < n)%Z -> slice_from (- n) l = most_recent (Z.to_nat n) l.
Proof.
  intros Hn. unfold slice_from, most_recent.
  destruct (Z.leb_spec 0 (- n)); [lia |]. f_equal. lia.
Qed.

Lemma get_working_memory_inv E limit category w l w' :
  get_working_memory E limit category w = (Ok l, w') ->
  l = match limit with
      | Some n => if (n =? 0)%Z then of_category category (working w)
                  else slice_from (- n) (of_category category (working w))
      | None => of_category category (working w)
      end.
Proof.
  unfold get_working_memory. intros H.
  inv_bind H; [| discriminate].
  apply _load_working_memory_inv in Hrun as [-> _].
  injection H as <- _. reflexivity.
Qed.

(** X11.  [get_working_memory] filters first and limits second.  Without
    a category, or with the empty one, every entry passes the filter;
    otherwise the entries of exactly that category do.  A positive limit
    keeps the most recent that many of them, no limit and the limit zero
    keep them all, and a negative limit drops that many of the oldest.  The
    result is always a subsequence of the file, in its order. *)
Theorem get_working_memory_filters_then_limits (E : env) (limit : option Z)
    (category : option string) (w w' : world) (l : list wm_entry) :
  get_working_memory E limit category w = (Ok l, w') ->
  let kept := of_category category (working w) in
  sublist l (working w)
  /\ (forall c, category = Some c -> c <> "" ->
        Forall (fun m => wm_category m = c) l)
  /\ (forall n, limit = Some n -> (0 < n)%Z ->
        l = most_recent (Z.to_nat n) kept /\ List.length l <= Z.to_nat n)
  /\ (limit = None \/ limit = Some 0%Z -> l = kept)
  /\ (forall n, limit = Some n -> (n < 0)%Z -> l = skipn (Z.to_nat (- n)) kept).
Proof.
  intros H kept. apply get_working_memory_inv in H. fold kept in H. subst l.
  split; [| split; [| split; [| split]]].
  - transitivity kept; [| apply of_category_sublist].
    destruct limit as [n |]; [| reflexivity].
    destruct (n =? 0)%Z; [reflexivity |].
    unfold slice_from. destruct (0 <=? - n)%Z; apply sublist_drop.
  - intros c -> Hc. apply Forall_forall. intros m Hm.
    assert (Hk : m ∈ kept).
    { eapply elem_of_sublist; [exact Hm |].
      destruct limit as [n |]; [| reflexivity].
      destruct (n =? 0)%Z; [reflexivity |].
      unfold slice_from. destruct (0 <=? - n)%Z; apply sublist_drop. }
    unfold kept, of_category in Hk.
    destruct (String.eqb_spec c ""); [contradiction |].
    apply list_elem_of_In, filter_In in Hk as [_ Hk].
    apply String.eqb_eq. exact Hk.
  - intros n -> Hn. destruct (Z.eqb_spec n 0); [lia |].
    rewrite slice_from_last by assumption.
    split; [reflexivity | apply most_recent_length].
  - intros [-> | ->]; reflexivity.
  - intros n -> Hn. destruct (Z.eqb_spec n 0); [lia |].
    unfold slice_from. destruct (Z.leb_spec 0 (- n)); [reflexivity | lia].
Qed.

Lemma get_working_memory_filters_then_limits_witness :
  let E := Samples.quiet engine_ties_ascending in
  let w := set_working_file
             (Some [Samples.note "a"; Samples.note "b"; Samples.note "c"])
             Samples.empty_world in
  let l := [Samples.note "b"; Samples.note "c"] in
  get_working_memory E (Some 2%Z) (Some "interaction") w
  = (Ok l, snd (get_working_memory E (Some 2%Z) (Some "interaction") w))
  /\ l = most_recent 2 (of_category (Some "interaction") (working w))
  /\ fst (get_working_memory E (Some 0%Z) None w)
     = Ok [Samples.note "a"; Samples.note "b"; Samples.note "c"].
Proof.
  intros E w l.
  assert (H : get_working_memory E (Some 2%Z) (Some "interaction") w
              = (Ok l, snd (get_working_memory E (Some 2%Z) (Some "interaction") w)))
    by (vm_compute; reflexivity).
  split; [exact H |].
  destruct (get_working_memory_filters_then_limits E _ _ w _ l H)
    as (_ & _ & Hlimit & _).
  split; [exact (proj1 (Hlimit 2%Z eq_refl ltac:(lia))) |].
  vm_compute. reflexivity.
Defined.

(** ** The context for the prompt *)

Lemma lines_length_app l1 l2 :
  lines_length (l1 ++ l2) = (lines_length l1 + lines_length l2)%Z.
Proof. induction l1 as [| x l1 IH]; simpl; [reflexivity |]. rewrite IH. lia. Qed.

Lemma lines_length_rev l : lines_length (rev l) = lines_length l.
Proof.
  induction l as [| x l IH]; simpl; [reflexivity |].
  rewrite lines_length_app, IH. simpl. lia.
Qed.

Lemma lines_length_nonneg l : (0 <= lines_length l)%Z.
Proof. induction l as [| x l IH]; simpl; lia. Qed.

Lemma lines_length_take_S k mem rest :
  lines_length (map context_line (firstn (S k) (mem :: rest)))
  = (Z.of_nat (String.length (context_line mem))
     + lines_length (map context_line (firstn k rest)))%Z.
Proof. reflexivity. Qed.

Lemma lines_length_take_0 (rest : list wm_entry) :
  lines_length (map context_line (firstn 0 rest)) = 0%Z.
Proof. reflexivity. Qed.

(** The loop of [get_working_memory_context]: it takes [k] of the entries
    it is given, newest first, and stops at the first that does not fit. *)
Lemma context_loop_spec total budget rest lines count :
  exists k : nat,
    (k <= List.length rest)%nat
    /\ context_loop total budget rest lines count
       = (if (k <? List.length rest)%nat
          then [omitted_line (total - (List.length lines + k))] else [])
         ++ rev (map context_line (firstn k rest)) ++ lines
    /\ ((0 < k)%nat ->
        (count + lines_length (map context_line (firstn k rest)) <= budget)%Z)
    /\ ((k < List.length rest)%nat ->
        (budget < count + lines_length (map context_line (firstn (S k) rest)))%Z).
Proof.
  revert lines count. induction rest as [| mem rest IH]; intros lines count.
  - exists 0. simpl. repeat split; lia.
  - cbn [context_loop].
    destruct (Z.ltb_spec budget
                (count + Z.of_nat (String.length (context_line mem)))) as [Hover | Hfits].
    + exists 0. split; [cbn [List.length]; lia |]. split; [| split].
      * cbn [firstn map rev app Nat.ltb Nat.leb List.length].
        rewrite Nat.add_0_r. reflexivity.
      * lia.
      * intros _. rewrite lines_length_take_S, lines_length_take_0. lia.
    + destruct (IH (context_line mem :: lines)
                   (count + Z.of_nat (String.length (context_line mem)))%Z)
        as (k & Hk & Heq & Hfit & Hstop).
      exists (S k). split; [simpl; lia |]. split; [| split].
      * rewrite Heq. cbn [List.length firstn map rev].
        change (S k <? S (List.length rest))%nat with (k <? List.length rest)%nat.
        replace (S (List.length lines) + k) with (List.length lines + S k) by lia.
        rewrite <- !app_assoc. reflexivity.
      * intros _. rewrite lines_length_take_S.
        destruct k as [| k'].
        -- rewrite lines_length_take_0. lia.
        -- specialize (Hfit ltac:(lia)). lia.
      * intros Hlt. cbn [List.length] in Hlt. specialize (Hstop ltac:(lia)).
        rewrite lines_length_take_S. lia.
Qed.

Lemma lines_length_skipn j l : (lines_length (skipn j l) <= lines_length l)%Z.
Proof.
  rewrite <- (firstn_skipn j l) at 2. rewrite lines_length_app.
  pose proof (lines_length_nonneg (firstn j l)). lia.
Qed.

Lemma get_working_memory_context_inv E max_tokens_approx w text w' :
  get_working_memory_context E max_tokens_approx w = (Ok text, w') ->
  working w <> [] ->
  text = PyStr.join NL
           (context_loop (List.length (working w)) (max_tokens_approx * 4)
                         (rev (working w)) [] 0%Z).
Proof.
  unfold get_working_memory_context. intros H Hne.
  inv_bind H; [| discriminate].
  apply _load_working_memory_inv in Hrun as [-> _].
  destruct (working w); [contradiction |]. injection H as <- _. reflexivity.
Qed.

(** X12.  With entries in working memory, the context is made of the
    lines of the most recent entries, oldest first, as many as fit: the
    lines shown have at most [max_tokens_approx * 4] characters together
    (separators not counted), and one more line would not fit.  When lines
    are left out, a first line says how many; when all lines fit, the
    context is all of them and nothing else. *)
Theorem working_memory_context_budget (E : env) (max_tokens_approx : Z)
    (w w' : world) (text : string) :
  get_working_memory_context E max_tokens_approx w = (Ok text, w') ->
  working w <> [] ->
  let ls := map context_line (working w) in
  let n := List.length ls in
  let budget := (max_tokens_approx * 4)%Z in
  exists k : nat,
    (k <= n)%nat
    /\ text = PyStr.join NL
                ((if (k <? n)%nat then [omitted_line (n - k)] else [])
                 ++ skipn (n - k) ls)
    /\ ((0 < k)%nat -> (lines_length (skipn (n - k) ls) <= budget)%Z)
    /\ ((k < n)%nat -> (budget < lines_length (skipn (n - S k) ls))%Z)
    /\ ((lines_length ls <= budget)%Z -> text = PyStr.join NL ls).
Proof.
  intros H Hne ls n budget.
  apply get_working_memory_context_inv in H; [| assumption].
  destruct (context_loop_spec (List.length (working w)) budget (rev (working w)) [] 0%Z)
    as (k & Hk & Heq & Hfit & Hstop).
  assert (Hn : n = List.length (working w)) by (unfold n, ls; apply length_map).
  assert (Hshown : forall j,
             map context_line (firstn j (rev (working w)))
             = rev (skipn (n - j) ls)).
  { intros j. rewrite firstn_rev, <- Hn. unfold ls.
    rewrite skipn_map, map_rev. reflexivity. }
  rewrite length_rev, <- Hn in Hk, Heq, Hstop.
  rewrite Hshown, rev_involutive, app_nil_r in Heq.
  cbn [List.length Nat.add] in Heq.
  rewrite Hshown, lines_length_rev in Hfit.
  rewrite Hshown, lines_length_rev in Hstop.
  assert (Htext : text = PyStr.join NL
                           ((if (k <? n)%nat then [omitted_line (n - k)] else [])
                            ++ skipn (n - k) ls)).
  { rewrite H. fold budget. rewrite <- Hn, Heq. reflexivity. }
  exists k. split; [exact Hk |]. split; [exact Htext |].
  split; [intros Hpos; specialize (Hfit Hpos); lia |].
  split; [intros Hlt; specialize (Hstop Hlt); lia |].
  intros Hall. destruct (Nat.eq_dec k n) as [-> | Hneq].
  - rewrite Htext, Nat.ltb_irrefl, Nat.sub_diag. reflexivity.
  - exfalso. assert (Hlt : (k < n)%nat) by lia. specialize (Hstop Hlt).
    pose proof (lines_length_skipn (n - S k) ls). lia.
Qed.

Lemma working_memory_context_budget_witness :
  let E := Samples.quiet engine_ties_ascending in
  let w := set_working_file (Some [Samples.note "a"; Samples.note "b"])
                            Samples.empty_world in
  let text := mk_lines ["... (1 older memories omitted)";
                        "[2026-01-01T00:00] (interaction) b"] in
  let ls := map context_line (working w) in
  get_working_memory_context E 10 w
  = (Ok text, snd (get_working_memory_context E 10 w))
  /\ working w <> []
  /\ exists k : nat,
       (k <= 2)%nat
       /\ text = PyStr.join NL
                   ((if (k <? 2)%nat then [omitted_line (2 - k)] else [])
                    ++ skipn (2 - k) ls)
       /\ ((0 < k)%nat -> (lines_length (skipn (2 - k) ls) <= 40)%Z).
Proof.
  intros E w text ls.
  assert (H : get_working_memory_context E 10 w
              = (Ok text, snd (get_working_memory_context E 10 w)))
    by (vm_compute; reflexivity).
  assert (Hne : working w <> []) by discriminate.
  split; [exact H |]. split; [exact Hne |].
  destruct (working_memory_context_budget E 10 w _ text H Hne)
    as (k & Hk & Htext & Hfit & _).
  exists k. split; [exact Hk |]. split; [exact Htext |]. exact Hfit.
Defined.

(** ** Facts about the string operations *)

Module PyFacts.
Import PyStr PyText.
#[local] Open Scope string_scope.

Lemma lstrip_by_fixed p s : lstrip_by p (lstrip_by p s) = lstrip_by p s.
Proof.
  induction s as [| c s IH]; simpl; [reflexivity |].
  destruct (p c) eqn:Hc; [exact IH |]. simpl. rewrite Hc. reflexivity.
Qed.

Lemma rstrip_by_cons p c s :
  rstrip_by p (String c s)
  = match rstrip_by p s with
    | EmptyString => if p c then EmptyString else String c EmptyString
    | r => String c r
    end.
Proof. reflexivity. Qed.

Lemma rstrip_by_fixed p s : rstrip_by p (rstrip_by p s) = rstrip_by p s.
Proof.
  induction s as [| c s IH]; [reflexivity |]. rewrite rstrip_by_cons.
  destruct (rstrip_by p s) as [| c' r] eqn:Hr.
  - destruct (p c) eqn:Hc; [reflexivity |].
    rewrite rstrip_by_cons. simpl. rewrite Hc. reflexivity.
  - rewrite rstrip_by_cons, IH. reflexivity.
Qed.

(** Taking spaces off the left of a string without spaces on its right
    leaves none on its right. *)
Lemma rstrip_lstrip_fixed p r :
  rstrip_by p r = r -> rstrip_by p (lstrip_by p r) = lstrip_by p r.
Proof.
  induction r as [| c r IH]; intros Hr; [reflexivity |].
  cbn [lstrip_by]. destruct (p c) eqn:Hc; [| exact Hr].
  apply IH. rewrite rstrip_by_cons in Hr.
  destruct (rstrip_by p r) as [| c' r'] eqn:Hr'.
  - rewrite Hc in Hr. discriminate.
  - injection Hr as <-. reflexivity.
Qed.

Lemma strip_fixed s : strip (strip s) = strip s.
Proof.
  unfold strip.
  rewrite (rstrip_lstrip_fixed _ _ (rstrip_by_fixed isspace s)).
  apply lstrip_by_fixed.
Qed.

Lemma rstrip_by_app_all p s ws :
  rstrip_by p ws = EmptyString -> rstrip_by p (s ++ ws) = rstrip_by p s.
Proof.
  intros Hws. induction s as [| c s IH]; [exact Hws |].
  change ((String c s ++ ws)%string) with (String c (s ++ ws)%string).
  rewrite !rstrip_by_cons, IH. reflexivity.
Qed.

Lemma has_char_app c s t : has_char c (s ++ t) = has_char c s || has_char c t.
Proof.
  induction s as [| a s IH]; simpl; [reflexivity |].
  rewrite IH, orb_assoc. reflexivity.
Qed.

Lemma has_char_lstrip_by c p s :
  has_char c s = false -> has_char c (lstrip_by p s) = false.
Proof.
  induction s as [| a s IH]; simpl; [reflexivity |]. intros H.
  apply orb_false_iff in H as [Ha Hs].
  destruct (p a); [auto |]. simpl. rewrite Ha. exact Hs.
Qed.

Lemma has_char_rstrip_by c p s :
  has_char c s = false -> has_char c (rstrip_by p s) = false.
Proof.
  induction s as [| a s IH]; simpl; [reflexivity |]. intros H.
  apply orb_false_iff in H as [Ha Hs]. specialize (IH Hs).
  destruct (rstrip_by p s) as [| a' r].
  - destruct (p a); simpl; [reflexivity |]. rewrite Ha. reflexivity.
  - cbn [has_char] in *. rewrite Ha. exact IH.
Qed.

Lemma has_char_strip c s : has_char c s = false -> has_char c (strip s) = false.
Proof. intros H. unfold strip. apply has_char_lstrip_by, has_char_rstrip_by, H. Qed.

(** The lines of a text have no line feed. *)
Lemma split_no_sep sep s : Forall (fun l => has_char sep l = false) (split sep s).
Proof.
  induction s as [| c s IH]; simpl.
  - constructor; [reflexivity | constructor].
  - destruct (Ascii.eqb c sep) eqn:Hc.
    + constructor; [reflexivity | exact IH].
    + destruct (split sep s) as [| l ls].
      * constructor; [| constructor]. simpl. rewrite Hc. reflexivity.
      * apply Forall_cons in IH as [Hl Hls].
        constructor; [| exact Hls]. simpl. rewrite Hc. exact Hl.
Qed.

Lemma split_nonempty sep s : split sep s <> [].
Proof.
  destruct s as [| c s]; simpl; [discriminate |].
  destruct (Ascii.eqb c sep); [discriminate |].
  destruct (split sep s); discriminate.
Qed.

Lemma split_app sep a b :
  has_char sep a = false ->
  split sep (a ++ String sep b) = a :: split sep b.
Proof.
  induction a as [| c a IH]; simpl; intros H.
  - rewrite Ascii.eqb_refl. reflexivity.
  - apply orb_false_iff in H as [Hc Ha]. rewrite Hc, (IH Ha). reflexivity.
Qed.

Lemma join_cons sep l ls :
  ls <> [] -> join sep (l :: ls) = l ++ sep ++ join sep ls.
Proof. destruct ls; [contradiction | reflexivity]. Qed.

Lemma join_split s : join NL (split LF s) = s.
Proof.
  induction s as [| c s IH]; [reflexivity |]. cbn [split].
  destruct (Ascii.eqb_spec c LF) as [-> | Hne].
  - rewrite join_cons by apply split_nonempty. rewrite IH. reflexivity.
  - pose proof (split_nonempty LF s) as Hne'.
    destruct (split LF s) as [| l ls]; [contradiction |].
    destruct ls as [| l' ls'].
    + simpl in *. rewrite IH. reflexivity.
    + rewrite join_cons in IH by discriminate.
      rewrite join_cons by discriminate. rewrite <- IH. reflexivity.
Qed.

Lemma prefix_cons a p b s :
  String.prefix (String a p) (String b s)
  = if ascii_dec a b then String.prefix p s else false.
Proof. reflexivity. Qed.

(** A text without line feed starts a string cut at a line feed only if
    it starts the part before the cut. *)
Lemma prefix_app_lf p a r :
  has_char LF p = false -> String.prefix p (a ++ String LF r) = String.prefix p a.
Proof.
  revert a. induction p as [| x p IH]; intros a H.
  - destruct a; reflexivity.
  - cbn [has_char] in H. apply orb_false_iff in H as [Hx Hp].
    destruct a as [| c a].
    + change (("" ++ String LF r)) with (String LF r). rewrite prefix_cons.
      destruct (ascii_dec x LF) as [-> |]; [| reflexivity].
      rewrite Ascii.eqb_refl in Hx. discriminate.
    + change ((String c a ++ String LF r)) with (String c (a ++ String LF r)).
      rewrite !prefix_cons. destruct (ascii_dec x c); [apply IH; exact Hp | reflexivity].
Qed.

Lemma prefix_dashes_app a r :
  String.prefix "---" (a ++ String LF r) = String.prefix "---" a.
Proof. apply prefix_app_lf. reflexivity. Qed.

Lemma before_first_dashes a b :
  occurs "---" a = false ->
  before_first "---" (a ++ NL ++ NL ++ "---" ++ b) = a ++ NL ++ NL.
Proof.
  induction a as [| c a IH]; intros H.
  - destruct b; reflexivity.
  - cbn [occurs] in H. apply orb_false_iff in H as [Hp Ha].
    change ((String c a ++ NL ++ NL ++ "---" ++ b)%string)
      with (String c (a ++ NL ++ NL ++ "---" ++ b)%string).
    cbn [before_first].
    change (String c (a ++ NL ++ NL ++ "---" ++ b)%string)
      with ((String c a ++ String LF (NL ++ "---" ++ b))%string).
    rewrite prefix_dashes_app, Hp.
    change ((a ++ String LF (NL ++ "---" ++ b))%string)
      with ((a ++ NL ++ NL ++ "---" ++ b)%string).
    rewrite (IH Ha). reflexivity.
Qed.

Lemma take_length n s : String.length (take n s) <= n.
Proof.
  unfold take. revert s. induction n as [| n IH]; intros s.
  - destruct s; simpl; lia.
  - destruct s as [| c s]; simpl; [lia |]. specialize (IH s). lia.
Qed.


Lemma length_append s t : String.length (s ++ t) = String.length s + String.length t.
Proof. induction s as [| c s IH]; simpl; [reflexivity |]. rewrite IH. reflexivity. Qed.

Lemma append_cons c (s t : string) : String c s ++ t = String c (s ++ t).
Proof. reflexivity. Qed.

Lemma append_assoc (s t u : string) : (s ++ t) ++ u = s ++ (t ++ u).
Proof.
  induction s as [| c s IH]; [reflexivity |]. rewrite !append_cons. f_equal. exact IH.
Qed.

Lemma append_empty_r (s : string) : s ++ "" = s.
Proof.
  induction s as [| c s IH]; [reflexivity |]. rewrite append_cons. f_equal. exact IH.
Qed.

End PyFacts.

(** ** The dream that [generate_dream] parses *)

Section ParsedDream.
Import PyStr PyText PyFacts.

Lemma has_char_split1_snd c sep s r :
  has_char c s = false -> split1_snd sep s = Some r -> has_char c r = false.
Proof.
  induction s as [| a s IH]; simpl; [discriminate |]. intros H Hr.
  apply orb_false_iff in H as [_ Hs].
  destruct (Ascii.eqb a sep); [injection Hr as <-; exact Hs | auto].
Qed.

Lemma has_char_after_colon c line :
  has_char c line = false -> has_char c (after_colon line) = false.
Proof.
  intros H. unfold after_colon. apply has_char_strip.
  destruct (split1_snd ":" (strip line)) as [r |] eqn:Hr; [| reflexivity].
  simpl. eapply has_char_split1_snd; [| exact Hr]. apply has_char_strip, H.
Qed.

Lemma hd_split_no_lf s : has_char LF (List.hd EmptyString (split LF s)) = false.
Proof.
  pose proof (split_no_sep LF s) as H.
  destruct (split LF s) as [| l ls]; [reflexivity |].
  apply Forall_cons in H as [Hl _]. exact Hl.
Qed.

Lemma last_filter_no_lf (f : string -> bool) s line :
  last (List.filter f (List.tl (split LF s))) = Some line ->
  has_char LF line = false.
Proof.
  intros Hlast. apply last_Some_elem_of in Hlast.
  apply list_elem_of_In, filter_In in Hlast as [Hin _].
  pose proof (split_no_sep LF s) as H. rewrite Forall_forall in H. apply H.
  apply list_elem_of_In. destruct (split LF s); [destruct Hin | right; exact Hin].
Qed.

(** The fields of a parsed dream, read off [parse_dream]. *)
Lemma parse_dream_fields response d :
  parse_dream response = Some d ->
  let lines := split LF (strip response) in
  title d = strip (lstrip_by hash_or_space (strip (List.hd EmptyString lines)))
  /\ narrative d
     = strip (join NL (List.filter (fun line => negb (is_consolidation_line line))
                                   (List.tl lines)))
  /\ consolidation d
     = match last (List.filter is_consolidation_line (List.tl lines)) with
       | Some line => after_colon line
       | None => EmptyString
       end.
Proof.
  intros H lines. unfold parse_dream in H. rewrite scan_lines_spec in H.
  injection H as <-. auto.
Qed.

End ParsedDream.

(** X13.  Whatever the response, the dream that [generate_dream] parses
    from it is in normal form: title, narrative and consolidation have no
    white space at either end, and the title and the consolidation are on
    one line. *)
Theorem parsed_dream_is_trimmed (response : string) (d : dream) :
  parse_dream response = Some d ->
  PyStr.strip (title d) = title d
  /\ PyText.has_char LF (title d) = false
  /\ PyStr.strip (narrative d) = narrative d
  /\ PyStr.strip (consolidation d) = consolidation d
  /\ PyText.has_char LF (consolidation d) = false.
Proof.
  intros H. apply parse_dream_fields in H as (Ht & Hn & Hc).
  rewrite Ht, Hn, Hc. split; [apply PyFacts.strip_fixed |].
  split.
  { apply PyFacts.has_char_strip, PyFacts.has_char_lstrip_by, PyFacts.has_char_strip.
    apply hd_split_no_lf. }
  split; [apply PyFacts.strip_fixed |].
  destruct (last _) as [line |] eqn:Hlast.
  - split; [apply PyFacts.strip_fixed |].
    apply has_char_after_colon. eapply last_filter_no_lf. exact Hlast.
  - split; reflexivity.
Qed.

Lemma parsed_dream_is_trimmed_witness :
  let response := mk_lines [""; "  # Night shift  "; "  fog  "; "consolidation:  rest  "; ""] in
  let d := Dream "Night shift" "fog" "rest" in
  parse_dream response = Some d
  /\ PyStr.strip (title d) = title d
  /\ PyText.has_char LF (title d) = false
  /\ PyStr.strip (narrative d) = narrative d
  /\ PyStr.strip (consolidation d) = consolidation d
  /\ PyText.has_char LF (consolidation d) = false.
Proof.
  intros response d.
  assert (H : parse_dream response = Some d) by (vm_compute; reflexivity).
  split; [exact H |]. exact (parsed_dream_is_trimmed response d H).
Defined.

(** ** The dream file, written and read back *)

Section DreamFile.
Import PyStr PyText PyFacts.
#[local] Open Scope string_scope.

(** Reading leaves a text without carriage return as it is. *)
Lemma read_text_app a b :
  has_char CR a = false -> read_text (a ++ b) = a ++ read_text b.
Proof.
  induction a as [| c a IH]; intros H; [reflexivity |].
  cbn [has_char] in H. apply orb_false_iff in H as [Hc Ha].
  rewrite !append_cons. cbn [read_text]. rewrite Hc, (IH Ha). reflexivity.
Qed.

(** A text that starts as a dream file does, cut at its first three line
    feeds. *)
Lemma dream_file_lines t date rest :
  has_char LF t = false ->
  has_char LF date = false ->
  split LF ("# " ++ t ++ NL ++ "*Dreamed: " ++ date ++ "*" ++ NL ++ NL ++ rest)
  = ("# " ++ t) :: ("*Dreamed: " ++ date ++ "*") :: "" :: split LF rest.
Proof.
  intros Ht Hd.
  assert (Heq : "# " ++ t ++ NL ++ "*Dreamed: " ++ date ++ "*" ++ NL ++ NL ++ rest
                = ("# " ++ t) ++ String LF
                    (("*Dreamed: " ++ date ++ "*") ++ String LF (String LF rest))).
  { rewrite !append_assoc. reflexivity. }
  rewrite Heq. rewrite split_app.
  2: { rewrite has_char_app, Ht. reflexivity. }
  rewrite split_app.
  2: { rewrite !has_char_app, Hd. reflexivity. }
  reflexivity.
Qed.

(** What [read_text] returns for a dream file whose title, date and
    narrative have no carriage return: the text as it was written, up to
    the rule under the narrative. *)
Lemma read_text_dream_file d date :
  has_char CR (title d) = false ->
  has_char CR date = false ->
  has_char CR (narrative d) = false ->
  exists rest,
    read_text (dream_file_content d date)
    = "# " ++ title d ++ NL ++ "*Dreamed: " ++ date ++ "*" ++ NL ++ NL
      ++ narrative d ++ NL ++ NL ++ "---" ++ rest.
Proof.
  intros Ht Hd Hn. unfold dream_file_content.
  exists (read_text (NL ++ "**Consolidation:** " ++ consolidation d ++ NL)).
  do 12 (rewrite read_text_app by first [assumption | reflexivity]).
  reflexivity.
Qed.

Lemma lstrip_hash_space_title t :
  lstrip_by hash_or_space ("# " ++ t) = lstrip_by hash_or_space t.
Proof. reflexivity. Qed.

Lemma strip_app_blank_lines s : strip (s ++ NL ++ NL) = strip s.
Proof. unfold strip. rewrite rstrip_by_app_all by reflexivity. reflexivity. Qed.

End DreamFile.

(** X14.  The dream that [post_dream_journal] reads from a file is the
    dream that [save_dream_locally] wrote there: for a dream parsed from a
    generation response whose title does not begin with ['#'], whose
    narrative has no ["---"], with no carriage return in the title, the
    narrative or the date (reading the file would turn it into a line
    feed), and a date on one line, the title and the narrative read back
    are those of the dream. *)
Theorem journal_reads_saved_dream (response : string) (d : dream) (date : string) :
  parse_dream response = Some d ->
  PyStr.lstrip_by PyStr.hash_or_space (title d) = title d ->
  PyText.occurs "---" (narrative d) = false ->
  PyText.has_char CR (title d) = false ->
  PyText.has_char CR (narrative d) = false ->
  PyText.has_char LF date = false ->
  PyText.has_char CR date = false ->
  journal_from_file (dream_file_content d date) = (title d, narrative d).
Proof.
  intros Hparse Hhash Hdash Hcrt Hcrn Hdate Hcrd.
  apply parse_dream_fields in Hparse as (Ht & Hn & _).
  assert (Htrim : PyStr.strip (title d) = title d)
    by (rewrite Ht; apply PyFacts.strip_fixed).
  assert (Hntrim : PyStr.strip (narrative d) = narrative d)
    by (rewrite Hn; apply PyFacts.strip_fixed).
  assert (Hlf : PyText.has_char LF (title d) = false).
  { rewrite Ht.
    apply PyFacts.has_char_strip, PyFacts.has_char_lstrip_by, PyFacts.has_char_strip.
    apply hd_split_no_lf. }
  unfold journal_from_file.
  destruct (read_text_dream_file d date Hcrt Hcrd Hcrn) as [rest ->].
  rewrite (dream_file_lines _ _ _ Hlf Hdate).
  cbn [List.hd skipn]. rewrite skipn_O, PyFacts.join_split.
  rewrite lstrip_hash_space_title, Hhash, Htrim.
  rewrite (PyFacts.before_first_dashes _ _ Hdash).
  rewrite strip_app_blank_lines, Hntrim. reflexivity.
Qed.

Lemma journal_reads_saved_dream_witness :
  let d := Dream "Title" (mk_lines ["Line one"; "Line two"]) "insight text" in
  parse_dream Samples.reply = Some d
  /\ PyStr.lstrip_by PyStr.hash_or_space (title d) = title d
  /\ PyText.occurs "---" (narrative d) = false
  /\ PyText.has_char CR (title d) = false
  /\ PyText.has_char CR (narrative d) = false
  /\ PyText.has_char LF "2026-01-01" = false
  /\ PyText.has_char CR "2026-01-01" = false
  /\ journal_from_file (dream_file_content d "2026-01-01") = (title d, narrative d).
Proof.
  intros d.
  assert (H : parse_dream Samples.reply = Some d) by (vm_compute; reflexivity).
  split; [exact H |]. do 6 (split; [reflexivity |]).
  exact (journal_reads_saved_dream Samples.reply d "2026-01-01" H
           eq_refl eq_refl eq_refl eq_refl eq_refl eq_refl).
Defined.



(** ** The name of the dream file *)

Section DreamFileName.
Import PyStr PyText PyFacts.
#[local] Open Scope string_scope.

Lemma replace_char_length a b s : String.length (replace_char a b s) = String.length s.
Proof. induction s as [| c s IH]; simpl; [reflexivity |]. rewrite IH. reflexivity. Qed.

Lemma replace_char_removes a b s :
  a <> b -> has_char a (replace_char a b s) = false.
Proof.
  intros Hab. induction s as [| c s IH]; simpl; [reflexivity |]. rewrite IH.
  destruct (Ascii.eqb_spec c a) as [-> | Hc].
  - rewrite orb_false_r. apply Ascii.eqb_neq. congruence.
  - rewrite orb_false_r. apply Ascii.eqb_neq. exact Hc.
Qed.

Lemma replace_char_keeps_out c a b s :
  c <> b -> has_char c s = false -> has_char c (replace_char a b s) = false.
Proof.
  intros Hcb. induction s as [| x s IH]; simpl; [reflexivity |]. intros H.
  apply orb_false_iff in H as [Hx Hs]. rewrite (IH Hs), orb_false_r.
  destruct (Ascii.eqb x a); [| exact Hx]. apply Ascii.eqb_neq. congruence.
Qed.

End DreamFileName.

(** X16.  The name of a dream file is the date, an underscore, at most
    forty characters made from the title, and [".md"]; the part made from
    the title has no space and no slash, so with a date without slash the
    name has none and the file lies in the directory of the dreams itself. *)
Theorem dream_filename_is_flat (d : dream) (date : string) :
  PyText.has_char "/" date = false ->
  PyText.has_char "/" (dream_filename d date) = false
  /\ String.length (dream_filename d date) <= String.length date + 44
  /\ exists part,
       dream_filename d date = (date ++ "_" ++ part ++ ".md")%string
       /\ PyText.has_char " " part = false
       /\ PyText.has_char "/" part = false
       /\ String.length part <= 40.
Proof.
  intros Hdate.
  set (part := replace_char "/" "_" (replace_char " " "_" (PyStr.take 40 (title d)))).
  assert (Hslash : PyText.has_char "/" part = false)
    by (apply replace_char_removes; discriminate).
  assert (Hspace : PyText.has_char " " part = false).
  { apply replace_char_keeps_out; [discriminate |].
    apply replace_char_removes. discriminate. }
  assert (Hlen : String.length part <= 40).
  { unfold part. rewrite !replace_char_length. apply PyFacts.take_length. }
  assert (Hname : dream_filename d date = (date ++ "_" ++ part ++ ".md")%string)
    by reflexivity.
  split; [| split].
  - rewrite Hname, !PyFacts.has_char_app, Hdate, Hslash. reflexivity.
  - rewrite Hname, !PyFacts.length_append. simpl. lia.
  - exists part. auto.
Qed.

Lemma dream_filename_is_flat_witness :
  let d := Dream "a/b c: the long way round / home" "" "" in
  PyText.has_char "/" "2026-01-01" = false
  /\ dream_filename d "2026-01-01" = "2026-01-01_a_b_c:_the_long_way_round___home.md"
  /\ PyText.has_char "/" (dream_filename d "2026-01-01") = false.
Proof.
  intros d. split; [reflexivity |]. split; [reflexivity |].
  exact (proj1 (dream_filename_is_flat d "2026-01-01" eq_refl)).
Defined.

(** X17.  Two dreams of the same date whose titles agree on their first
    forty characters get the same file name, and saving the second
    overwrites the first: the directory holds one file under that name, with
    the text of the second dream. *)
Theorem same_title_same_day_overwrites (E : env) (d1 d2 : dream) (date : string)
    (w w1 w2 : world) (f1 f2 : string) :
  PyStr.take 40 (title d1) = PyStr.take 40 (title d2) ->
  save_dream_locally E d1 date w = (Ok f1, w1) ->
  save_dream_locally E d2 date w1 = (Ok f2, w2) ->
  f1 = f2
  /\ dreams_dir w2 = <[f2 := dream_file_content d2 date]> (dreams_dir w)
  /\ dreams_dir w2 !! f1 = Some (dream_file_content d2 date).
Proof.
  intros Htitle H1 H2.
  apply save_dream_locally_inv in H1 as [-> Hd1].
  apply save_dream_locally_inv in H2 as [-> Hd2].
  assert (Hname : dream_filename d1 date = dream_filename d2 date)
    by (unfold dream_filename; rewrite Htitle; reflexivity).
  split; [exact Hname |]. rewrite Hd2, Hd1, Hname. split.
  - apply insert_insert_eq.
  - apply lookup_insert_eq.
Qed.

Lemma same_title_same_day_overwrites_witness :
  let E := Samples.quiet engine_ties_ascending in
  let d1 := Dream "Title" "first night" "" in
  let d2 := Dream "Title" "second night" "" in
  let w1 := snd (save_dream_locally E d1 "2026-01-01" Samples.empty_world) in
  let w2 := snd (save_dream_locally E d2 "2026-01-01" w1) in
  PyStr.take 40 (title d1) = PyStr.take 40 (title d2)
  /\ save_dream_locally E d1 "2026-01-01" Samples.empty_world
     = (Ok "2026-01-01_Title.md", w1)
  /\ save_dream_locally E d2 "2026-01-01" w1 = (Ok "2026-01-01_Title.md", w2)
  /\ dreams_dir w2 !! "2026-01-01_Title.md"
     = Some (dream_file_content d2 "2026-01-01").
Proof.
  intros E d1 d2 w1 w2.
  assert (Ht : PyStr.take 40 (title d1) = PyStr.take 40 (title d2)) by reflexivity.
  assert (H1 : save_dream_locally E d1 "2026-01-01" Samples.empty_world
               = (Ok "2026-01-01_Title.md", w1)) by (vm_compute; reflexivity).
  assert (H2 : save_dream_locally E d2 "2026-01-01" w1
               = (Ok "2026-01-01_Title.md", w2)) by (vm_compute; reflexivity).
  split; [exact Ht |]. split; [exact H1 |]. split; [exact H2 |].
  exact (proj2 (proj2 (same_title_same_day_overwrites E d1 d2 "2026-01-01"
                         _ w1 w2 _ _ Ht H1 H2))).
Defined.

(** ** The dream files in order *)

#[local] Instance name_ge_total : Total name_ge.
Proof. intros a b. unfold name_ge. destruct (total String.le (fst a) (fst b)); auto. Qed.

#[local] Instance name_ge_trans : Transitive name_ge.
Proof. intros a b c Hab Hbc. unfold name_ge in *. etransitivity; eassumption. Qed.

Lemma dream_files_elem_of dir n c :
  (n, c) ∈ dream_files dir <-> dir !! n = Some c /\ ends_with ".md" n = true.
Proof.
  unfold dream_files. rewrite merge_sort_Permutation.
  rewrite list_elem_of_In, filter_In, <- list_elem_of_In, elem_of_map_to_list.
  reflexivity.
Qed.

(** X18.  The dream files that [post_dream_journal] and [cli.dreams] go
    through are exactly the files of the directory whose name ends in
    [".md"], by decreasing name.  The dream that [post_dream_journal] posts
    when it is given none is the one it parses from the text that
    [read_text] returns for the file with the greatest such name (dates
    first, then titles, as the names are built), and there is none exactly
    when the directory has no such file. *)
Theorem latest_dream_is_greatest_name (dir : gmap string string) :
  (forall n c, (n, c) ∈ dream_files dir
               <-> dir !! n = Some c /\ ends_with ".md" n = true)
  /\ StronglySorted name_ge (dream_files dir)
  /\ (forall f, latest_dream dir = Some f ->
        exists n c,
          dir !! n = Some c /\ ends_with ".md" n = true
          /\ f = journal_from_file c
          /\ forall n' c', dir !! n' = Some c' -> ends_with ".md" n' = true ->
               String.le n' n)
  /\ (latest_dream dir = None
      <-> forall n c, dir !! n = Some c -> ends_with ".md" n = false).
Proof.
  assert (Hsorted : StronglySorted name_ge (dream_files dir))
    by (apply StronglySorted_merge_sort; apply _).
  split; [apply dream_files_elem_of |]. split; [exact Hsorted |].
  unfold latest_dream. split.
  - intros f Hf. destruct (dream_files dir) as [| [n c] rest] eqn:Hfiles; [discriminate |].
    injection Hf as <-. exists n, c.
    assert (Hin : (n, c) ∈ dream_files dir) by (rewrite Hfiles; left).
    apply dream_files_elem_of in Hin as [Hn Hmd].
    split; [exact Hn |]. split; [exact Hmd |]. split; [reflexivity |].
    intros n' c' Hn' Hmd'.
    assert (Hin' : (n', c') ∈ dream_files dir) by (apply dream_files_elem_of; auto).
    rewrite Hfiles in Hin'. apply elem_of_cons in Hin' as [Heq | Hrest].
    + injection Heq as -> _. reflexivity.
    + apply StronglySorted_inv in Hsorted as [_ Hall].
      rewrite Forall_forall in Hall. apply (Hall _ Hrest).
  - destruct (dream_files dir) as [| [n c] rest] eqn:Hfiles.
    + split; [| reflexivity]. intros _ n c Hn.
      destruct (ends_with ".md" n) eqn:Hmd; [| reflexivity].
      assert (Hin : (n, c) ∈ dream_files dir) by (apply dream_files_elem_of; auto).
      rewrite Hfiles in Hin. inversion Hin.
    + split; [discriminate |]. intros Hnone. exfalso.
      assert (Hin : (n, c) ∈ dream_files dir) by (rewrite Hfiles; left).
      apply dream_files_elem_of in Hin as [Hn Hmd].
      rewrite (Hnone _ _ Hn) in Hmd. discriminate.
Qed.

Lemma latest_dream_is_greatest_name_witness :
  let crlf := String CR NL in
  let rain := PyStr.join crlf ["# Rain"; "*Dreamed: 2026-01-02*"; ""; "fog"; "mist"] in
  let dir : gmap string string :=
    <["2026-01-02_Rain.md" := rain]>
      (<["2026-01-01_Zebra.md" := "# Zebra"]> (<["notes.txt" := "n"]> ∅)) in
  latest_dream dir = Some ("Rain", mk_lines ["fog"; "mist"])
  /\ exists n c,
       dir !! n = Some c /\ ends_with ".md" n = true
       /\ ("Rain", mk_lines ["fog"; "mist"]) = journal_from_file c
       /\ forall n' c', dir !! n' = Some c' -> ends_with ".md" n' = true ->
            String.le n' n.
Proof.
  intros crlf rain dir.
  assert (H : latest_dream dir = Some ("Rain", mk_lines ["fog"; "mist"]))
    by (vm_compute; reflexivity).
  split; [exact H |].
  exact (proj1 (proj2 (proj2 (latest_dream_is_greatest_name dir))) _ H).
Defined.

Example dream_files_scenario :
  map fst (dream_files
             (<["2026-01-02_Rain.md" := "r"]>
                (<["2026-01-01_Zebra.md" := "z"]>
                   (<["2026-01-02_Ash.md" := "a"]> (<["notes.txt" := "n"]> ∅)))))
  = ["2026-01-02_Rain.md"; "2026-01-02_Ash.md"; "2026-01-01_Zebra.md"].
Proof. vm_compute. reflexivity. Qed.

(** ** The fences around the reply of [decide_engagement] *)

Section Fences.
Import PyStr PyText PyFacts.
#[local] Open Scope string_scope.

Lemma prefix_app_self p x : String.prefix p (p ++ x) = true.
Proof.
  induction p as [| c p IH].
  - destruct x; reflexivity.
  - rewrite append_cons, prefix_cons. destruct (ascii_dec c c); [exact IH | contradiction].
Qed.

Lemma occurs_fence_end x : occurs FENCE (x ++ FENCE) = true.
Proof.
  induction x as [| c x IH]; [reflexivity |].
  rewrite append_cons. cbn [occurs]. rewrite IH. apply orb_true_r.
Qed.

(** [rsplit] cuts at the last occurrence: with the fence at the very end,
    everything before it is kept, whatever it contains. *)
Lemma before_last_fence_end x : before_last FENCE (x ++ FENCE) = x.
Proof.
  induction x as [| c x IH]; [reflexivity |].
  rewrite append_cons. cbn [before_last]. rewrite occurs_fence_end, IH. reflexivity.
Qed.

Lemma split1_snd_app sep a rest :
  has_char sep a = false -> split1_snd sep (a ++ String sep rest) = Some rest.
Proof.
  induction a as [| c a IH]; intros H.
  - simpl. rewrite Ascii.eqb_refl. reflexivity.
  - cbn [has_char] in H. apply orb_false_iff in H as [Hc Ha].
    rewrite append_cons. cbn [split1_snd]. rewrite Hc. apply IH, Ha.
Qed.

Lemma split1_snd_none sep s : has_char sep s = false -> split1_snd sep s = None.
Proof.
  induction s as [| c s IH]; intros H; [reflexivity |].
  cbn [has_char] in H. apply orb_false_iff in H as [Hc Hs].
  cbn [split1_snd]. rewrite Hc. apply IH, Hs.
Qed.

End Fences.

(** X19.  The reply of [decide_engagement] loses its Markdown fences
    before it is parsed: a trimmed reply that does not start with a fence is
    taken as it is; one that is an opening fence with its language tag, a
    line feed, a body and a closing fence gives the trimmed body, whatever
    the body contains; and one that starts with a fence and has no line feed
    raises [IndexError]. *)
Theorem strip_fences_cases (reply : string) :
  (PyStr.startswith (PyStr.strip reply) FENCE = false ->
   strip_fences reply = Some (PyStr.strip reply))
  /\ (forall lang body,
        PyText.has_char LF lang = false ->
        PyStr.strip reply = (FENCE ++ lang ++ NL ++ body ++ FENCE)%string ->
        strip_fences reply = Some (PyStr.strip body))
  /\ (PyStr.startswith (PyStr.strip reply) FENCE = true ->
      PyText.has_char LF (PyStr.strip reply) = false ->
      strip_fences reply = None).
Proof.
  unfold strip_fences. split; [| split].
  - intros H. rewrite H. reflexivity.
  - intros lang body Hlang Htext. rewrite Htext.
    unfold PyStr.startswith. rewrite prefix_app_self.
    assert (Hcut : (FENCE ++ lang ++ NL ++ body ++ FENCE)%string
                   = ((FENCE ++ lang) ++ String LF (body ++ FENCE))%string).
    { rewrite PyFacts.append_assoc. reflexivity. }
    rewrite Hcut, split1_snd_app.
    + rewrite before_last_fence_end. reflexivity.
    + rewrite PyFacts.has_char_app, Hlang. reflexivity.
  - intros Hfence Hlf. rewrite Hfence, (split1_snd_none _ _ Hlf). reflexivity.
Qed.

Lemma strip_fences_cases_witness :
  let fenced := mk_lines ["```json"; "[{}]"; "```"; ""] in
  PyStr.strip fenced = (FENCE ++ "json" ++ NL ++ ("[{}]" ++ NL) ++ FENCE)%string
  /\ strip_fences fenced = Some "[{}]"
  /\ PyStr.startswith (PyStr.strip "```[]```") FENCE = true
  /\ strip_fences "```[]```" = None.
Proof.
  intros fenced.
  assert (Htext : PyStr.strip fenced
                  = (FENCE ++ "json" ++ NL ++ ("[{}]" ++ NL) ++ FENCE)%string)
    by (vm_compute; reflexivity).
  split; [exact Htext |]. split.
  - rewrite (proj1 (proj2 (strip_fences_cases fenced)) "json" _ eq_refl Htext).
    vm_compute. reflexivity.
  - split; [reflexivity |].
    exact (proj2 (proj2 (strip_fences_cases "```[]```")) eq_refl eq_refl).
Defined.

(** ** A key that the cipher rejects *)

Section InvalidKey.

Variable E : env.

Lemma retrieve_undreamed_memories_invalid w :
  no_faults E -> Fernet E (current_key E w) = None ->
  exists w', retrieve_undreamed_memories E w = (Raise ValueError, w').
Proof.
  intros Hnf Hc. unfold retrieve_undreamed_memories, _init_deep_db.
  rewrite (bind_ok _ _ _ _ _ (io_no_faults E w Hnf)).
  destruct (get_cipher_invalid E (set_io_count (S (io_count w)) w) Hnf Hc) as [w1 H1].
  rewrite (bind_raise _ _ _ _ _ H1). eauto.
Qed.

End InvalidKey.

(** X20.  With a key that [Fernet] rejects, nothing is stored in deep
    memory and nothing is read from it: [store_deep_memory],
    [retrieve_undreamed_memories] and [run_dream_cycle] never return, and
    they leave the table, working memory, the state and the dream files as
    they were; when no I/O fails, what they raise is the [ValueError] of
    [Fernet].  [deep_memory_stats] does not look at the key and still
    answers. *)
Theorem invalid_key_stops_deep_memory (E : env) (w : world) :
  Fernet E (current_key E w) = None ->
  (forall content category o w',
      store_deep_memory E content category w = (o, w') ->
      (exists e, o = Raise e) /\ same_stores w w')
  /\ (forall o w',
        retrieve_undreamed_memories E w = (o, w') ->
        (exists e, o = Raise e) /\ same_stores w w')
  /\ (forall o w',
        run_dream_cycle E w = (o, w') ->
        (exists e, o = Raise e) /\ same_stores w w')
  /\ (no_faults E ->
      (forall content category,
          exists w', store_deep_memory E content category w = (Raise ValueError, w'))
      /\ (exists w', retrieve_undreamed_memories E w = (Raise ValueError, w'))
      /\ (exists w', run_dream_cycle E w = (Raise ValueError, w'))
      /\ (exists st w', deep_memory_stats E w = (Ok st, w'))).
Proof.
  intros Hc. split; [| split; [| split]].
  - intros content category o w' H. destruct o as [[] | e].
    + apply store_deep_memory_inv in H as (c & Hc' & _). congruence.
    + split; [eauto |]. repeat split.
      * apply (store_deep_memory_raise E _ _ _ _ _ H).
      * apply (store_deep_memory_keeps E working_file _ _ _ _ _ H).
      * apply (store_deep_memory_keeps E state_file _ _ _ _ _ H).
      * apply (store_deep_memory_keeps E dreams_dir _ _ _ _ _ H).
  - intros o w' H. split.
    + destruct o as [mems | e]; [| eauto].
      apply retrieve_undreamed_memories_inv in H as (c & Hc' & _). congruence.
    + repeat split.
      * apply (retrieve_undreamed_memories_keeps E deep_db _ _ _ H).
      * apply (retrieve_undreamed_memories_keeps E working_file _ _ _ H).
      * apply (retrieve_undreamed_memories_keeps E state_file _ _ _ H).
      * apply (retrieve_undreamed_memories_keeps E dreams_dir _ _ _ H).
  - intros o w' H. rewrite run_dream_cycle_unfold in H.
    apply bind_inv in H as [(mems & w1 & Hcol & _) | (e & Hcol & ->)].
    + apply collecting_inv in Hcol as (_ & c & Hc' & _). congruence.
    + split; [eauto |]. apply (collecting_same_stores E _ _ _ Hcol).
  - intros Hnf. split; [| split; [| split]].
    + intros content category. apply store_deep_memory_invalid; assumption.
    + apply retrieve_undreamed_memories_invalid; assumption.
    + rewrite run_dream_cycle_unfold.
      destruct (deep_memory_stats_ok E (set_ticks (S (ticks w)) w) Hnf)
        as (st & w1 & H1).
      pose proof (deep_memory_stats_keeps E (current_key E) _ _ _ H1) as Hk1.
      change (current_key E (set_ticks (S (ticks w)) w)) with (current_key E w) in Hk1.
      rewrite <- Hk1 in Hc.
      destruct (retrieve_undreamed_memories_invalid E w1 Hnf Hc) as [w2 H2].
      exists w2. apply bind_raise. unfold collecting.
      unfold mbind at 1, M_bind at 1, now.
      rewrite (bind_ok _ _ _ _ _ H1). exact H2.
    + apply deep_memory_stats_ok. assumption.
Qed.

Lemma invalid_key_stops_deep_memory_witness :
  let E := Samples.bad_key in
  let w := Samples.three_stored in
  Fernet E (current_key E w) = None
  /\ (exists w', run_dream_cycle E w = (Raise ValueError, w'))
  /\ (exists st w', deep_memory_stats E w = (Ok st, w')).
Proof.
  intros E w.
  assert (Hc : Fernet E (current_key E w) = None) by reflexivity.
  assert (Hnf : no_faults E) by (intros n; reflexivity).
  split; [exact Hc |].
  destruct (proj2 (proj2 (proj2 (invalid_key_stops_deep_memory E w Hc))) Hnf)
    as (_ & _ & Hrun & Hstats).
  split; assumption.
Defined.

(** X21.  Reading deep memory is repeatable: a retrieval changes no store,
    and a second retrieval made after it returns the same memories (the key
    file that the first one may have created is the one the second reads). *)
Theorem retrieval_is_repeatable (E : env) (w w1 : world) (mems : list memory) :
  retrieve_undreamed_memories E w = (Ok mems, w1) ->
  same_stores w w1
  /\ (forall mems2 w2,
        retrieve_undreamed_memories E w1 = (Ok mems2, w2) -> mems2 = mems)
  /\ (no_faults E -> exists w2, retrieve_undreamed_memories E w1 = (Ok mems, w2)).
Proof.
  intros H.
  pose proof (retrieve_undreamed_memories_keeps E deep_db _ _ _ H) as Hdb.
  pose proof (retrieve_undreamed_memories_keeps_current E _ _ _ H) as Hkey.
  assert (Hsame : same_stores w w1).
  { repeat split.
    - exact Hdb.
    - apply (retrieve_undreamed_memories_keeps E working_file _ _ _ H).
    - apply (retrieve_undreamed_memories_keeps E state_file _ _ _ H).
    - apply (retrieve_undreamed_memories_keeps E dreams_dir _ _ _ H). }
  apply retrieve_undreamed_memories_inv in H as (c & Hc & ->).
  split; [exact Hsame |]. split.
  - intros mems2 w2 H2.
    apply retrieve_undreamed_memories_inv in H2 as (c2 & Hc2 & ->).
    rewrite Hkey, Hc in Hc2. injection Hc2 as <-. rewrite Hdb. reflexivity.
  - intros Hnf. rewrite <- Hkey in Hc.
    destruct (retrieve_undreamed_memories_ok E w1 c Hnf Hc) as (w2 & H2 & _).
    rewrite Hdb in H2. eauto.
Qed.

Lemma retrieval_is_repeatable_witness :
  let E := Samples.quiet engine_ties_ascending in
  let w := Samples.one_corrupted in
  let w1 := snd (retrieve_undreamed_memories E w) in
  let mems := [Memory 1 "2026-01-01T00:00" "interaction" (JStr "hello");
               Memory 2 "2026-01-01T00:05" "corrupted" corrupted_note] in
  retrieve_undreamed_memories E w = (Ok mems, w1)
  /\ same_stores w w1
  /\ exists w2, retrieve_undreamed_memories E w1 = (Ok mems, w2).
Proof.
  intros E w w1 mems.
  assert (H : retrieve_undreamed_memories E w = (Ok mems, w1))
    by (vm_compute; reflexivity).
  split; [exact H |].
  destruct (retrieval_is_repeatable E w _ _ H) as (Hsame & _ & Hagain).
  split; [exact Hsame |]. apply Hagain. intros n; reflexivity.
Defined.

(** X22.  Whatever the size of the file before, a [store_working_memory]
    leaves at most [WORKING_MEMORY_MAX_ENTRIES] entries: one more than
    before, or the maximum when that is less; they are the end of the old
    entries followed by the new one, which comes last.  The new entry has a
    ["metadata"] key exactly when the metadata given is a non-empty
    dictionary. *)
Theorem store_working_memory_bounded (E : env) (summary category : string)
    (metadata : option (list (string * json))) (w w' : world) :
  store_working_memory E summary category metadata w = (Ok tt, w') ->
  let entry := new_entry E w summary category metadata in
  List.length (working w')
  = Nat.min (S (List.length (working w))) WORKING_MEMORY_MAX_ENTRIES
  /\ (exists dropped, working w ++ [entry] = dropped ++ working w')
  /\ last (working w') = Some entry
  /\ (wm_metadata entry = None <-> metadata = None \/ metadata = Some []).
Proof.
  intros H entry. apply store_working_memory_inv in H as [H _].
  assert (Hw' : working w' = most_recent WORKING_MEMORY_MAX_ENTRIES (working w ++ [entry])).
  { unfold working at 1. rewrite H. cbn [default].
    apply prune_most_recent, max_entries_positive. }
  rewrite Hw'. unfold most_recent. split; [| split; [| split]].
  - rewrite length_skipn, length_app. cbn [List.length]. lia.
  - exists (firstn (List.length (working w ++ [entry]) - WORKING_MEMORY_MAX_ENTRIES)
                   (working w ++ [entry])).
    symmetry. apply firstn_skipn.
  - rewrite length_app. cbn [List.length].
    replace (List.length (working w) + 1 - WORKING_MEMORY_MAX_ENTRIES)
      with (List.length (working w) - (WORKING_MEMORY_MAX_ENTRIES - 1))
      by (unfold WORKING_MEMORY_MAX_ENTRIES; lia).
    rewrite skipn_app.
    replace (List.length (working w) - (WORKING_MEMORY_MAX_ENTRIES - 1)
             - List.length (working w)) with 0 by lia.
    cbn [skipn]. apply last_snoc.
  - unfold entry, new_entry. cbn [wm_metadata].
    destruct metadata as [[| p l] |]; cbn [truthy_dict]; split; intros Hm;
      try discriminate; auto; destruct Hm; discriminate.
Qed.

Lemma store_working_memory_bounded_witness :
  let E := Samples.quiet engine_ties_ascending in
  let w := Samples.empty_world in
  exists w',
    store_working_memory E "met a lobster" "interaction" (Some []) w = (Ok tt, w')
    /\ List.length (working w') = 1
    /\ wm_metadata (new_entry E w "met a lobster" "interaction" (Some [])) = None.
Proof.
  intros E w.
  assert (H : store_working_memory E "met a lobster" "interaction" (Some []) w
              = (Ok tt, snd (store_working_memory E "met a lobster" "interaction"
                               (Some []) w)))
    by (vm_compute; reflexivity).
  eexists. split; [exact H |].
  destruct (store_working_memory_bounded E _ _ _ _ _ H) as (Hlen & _ & _ & Hmeta).
  split; [exact Hlen |]. apply Hmeta. right; reflexivity.
Defined.
